(** * bia_integrator_core: the data model and the annotation merge

    A shallow embedding of [bia_integrator_core/models.py] and
    [bia_integrator_core/integrator.py].

    A pydantic model instance keeps the values of its fields in its
    [__dict__], and both the merge and the [ome_metadata] property read and
    write that namespace by name.  So a [BIAStudy] or a [BIAImage] that went
    through them is embedded as its [__dict__], an insertion-ordered
    dictionary from attribute names to values, while what the collaborators
    hand out are the typed records of the data model.  Objects are embedded
    by value: a study owns its images, and no two entries of [images] are
    one object.  Raising an exception is an [outcome].  The retrieval
    collaborators and the library calls ([urllib.parse], [pathlib],
    [requests], [ome_types]) are interfaces the development is parametric
    in, and so are the two ends of the text of a float.  What pydantic and
    the [json] package do when a record is written and read back is
    embedded from those libraries. *)

From Stdlib Require Import String Ascii List ZArith Bool Lia Floats.
From Stdlib Require DecimalString DecimalZ DecimalPos DecimalFacts.
Set Warnings "-register-all".
Import ListNotations.
Local Open Scope string_scope.
Local Open Scope list_scope.

(** ** Exceptions and outcomes *)

(* Python's messages are not reproduced word for word. *)
Inductive exn : Type :=
| AttributeError (obj attr : string)
    (* '<obj>' object has no attribute '<attr>' *)
| TypeError (msg : string)
| AssertionError (status_code : Z) (uri content : string)
    (* the three values the assertion message of _ome_xml_url_parse shows *)
| OtherError (cls msg : string).
    (* whatever else a collaborator or a library call raises *)

Inductive outcome (A : Type) : Type :=
| Returns (a : A)
| Raises (e : exn).
Arguments Returns {A} a.
Arguments Raises {A} e.

Definition bind {A B : Type} (c : outcome A) (k : A -> outcome B) : outcome B :=
  match c with
  | Returns a => k a
  | Raises e => Raises e
  end.

Declare Scope py_scope.
Delimit Scope py_scope with py.
Notation "x <- c ;; k" := (bind c (fun x => k))
  (at level 61, c at next level, right associativity) : py_scope.
Notation "' p <- c ;; k" := (bind c (fun x => let p := x in k))
  (at level 61, p pattern, c at next level, right associativity) : py_scope.
Local Open Scope py_scope.

(** [for x in l: ...] over a body that may raise, collecting what each
    iteration produces; the first exception ends the loop. *)
Fixpoint for_each {A B : Type} (body : A -> outcome B) (l : list A)
  : outcome (list B) :=
  match l with
  | [] => Returns []
  | x :: rest =>
      y <- body x ;;
      ys <- for_each body rest ;;
      Returns (y :: ys)
  end.

(** ** Python dictionaries

    Insertion ordered: assigning to a key that is present replaces its value
    where it stands, a new key goes to the end. *)

Section Dict.
Context {V : Type}.

Definition dict : Type := list (string * V).

Fixpoint dict_get (d : dict) (k : string) : option V :=
    match d with
    | [] => None
    | (k', v) :: rest => if String.eqb k' k then Some v else dict_get rest k
    end.

  (* d[k] = v *)
Fixpoint dict_set (d : dict) (k : string) (v : V) : dict :=
    match d with
    | [] => [(k, v)]
    | (k', v') :: rest =>
        if String.eqb k' k then (k', v) :: rest
        else (k', v') :: dict_set rest k v
    end.

  (* d.update(other) *)
Definition dict_update (d other : dict) : dict :=
    fold_left (fun acc kv => dict_set acc (fst kv) (snd kv)) other d.

Definition dict_keys (d : dict) : list string := map fst d.
End Dict.
Arguments dict V : clear implicits.

(** [for a in l: d[key(a)] = val(a)], the shape of both annotation loops. *)
Definition assign_each {A V : Type} (key : A -> string) (val : A -> V)
    (l : list A) (d : dict V) : dict V :=
  fold_left (fun acc a => dict_set acc (key a) (val a)) l d.

(** ** The data model (models.py) *)

(* A free-form value, as the untyped [Dict] fields hold them. *)
Inductive pydata : Type :=
| PNone
| PBool (b : bool)
| PInt (z : Z)
| PFloat (f : float)
| PStr (s : string)
| PList (l : list pydata)
| PDict (d : list (pydata * pydata)).

Module ChannelRendering.
Record t : Type := mk {
    colormap_start : list float;
    colormap_end : list float;
    scale_factor : float          (* = 1.0 *)
  }.
End ChannelRendering.

Module RenderingInfo.
Record t : Type := mk {
    channel_renders : list ChannelRendering.t;
    default_z : option Z;
    default_t : option Z
  }.
End RenderingInfo.

(* uri: Union[str, List[str]] *)
Inductive uri_t : Type :=
| UriStr (s : string)
| UriList (l : list string).

Module BIAImageRepresentation.
Record t : Type := mk {
    accession_id : string;
    image_id : string;
    uri : uri_t;
    size : Z;
    type : option string;
    dimensions : option string;
    attributes : option (list (pydata * pydata));
    rendering : option RenderingInfo.t
  }.
End BIAImageRepresentation.

Module BIAFileRepresentation.
Record t : Type := mk {
    accession_id : string;
    file_id : string;
    uri : uri_t;
    size : Z
  }.
End BIAFileRepresentation.

Module BIAFile.
Record t : Type := mk {
    id : string;
    original_relpath : string;    (* pathlib.Path *)
    original_size : Z;
    attributes : list (pydata * pydata);            (* = {} *)
    representations : list BIAFileRepresentation.t  (* = [] *)
  }.
End BIAFile.

Module FileReference.
Record t : Type := mk {
    id : string;
    name : string;
    uri : string;
    size_in_bytes : option Z;
    attributes : list (pydata * pydata)             (* = {} *)
  }.
End FileReference.

Module BIAImageAlias.
Record t : Type := mk {
    name : string;
    accession_id : string;
    image_id : string
  }.
End BIAImageAlias.

Module Author.
Record t : Type := mk { name : string }.
End Author.

Module BIACollection.
Record t : Type := mk {
    name : string;
    title : string;
    subtitle : string;
    description : option string;
    accession_ids : list string
  }.
End BIACollection.

Module StudyTag.
Record t : Type := mk { accession_id : string; value : string }.
End StudyTag.

Module StudyAnnotation.
Record t : Type := mk {
    accession_id : string;
    key : string;
    value : string
  }.
End StudyAnnotation.

Module ImageAnnotation.
Record t : Type := mk {
    accession_id : string;
    image_id : string;
    key : string;
    value : string
  }.
End ImageAnnotation.

Module BIAImage.
Record t : Type := mk {
    id : string;
    accession_id : option string;                   (* = None *)
    name : option string;
    original_relpath : string;                      (* pathlib.Path *)
    dimensions : option string;
    representations : list BIAImageRepresentation.t;  (* = [] *)
    attributes : list (pydata * pydata)             (* = {} *)
  }.
End BIAImage.

Module BIAStudy.
Record t : Type := mk {
    accession_id : string;
    title : string;
    description : string;
    authors : option (list Author.t);               (* = [] *)
    organism : string;
    release_date : string;
    imaging_type : option string;
    attributes : list (pydata * pydata);            (* = {} *)
    example_image_uri : string;                     (* = "" *)
    file_references : dict FileReference.t;         (* = {} *)
    images : dict BIAImage.t;                       (* = {} *)
    archive_files : dict BIAFile.t;                 (* = {} *)
    other_files : dict BIAFile.t;                   (* = {} *)
    image_aliases : dict BIAImageAlias.t;           (* = {} *)
    tags : list string                              (* Set[str] = set() *)
  }.
End BIAStudy.

(** ** Library interfaces *)

(* urllib.parse.ParseResult *)
Module ParseResult.
Record t : Type := mk {
    scheme : string;
    netloc : string;
    path : string;
    params : string;
    query : string;
    fragment : string
  }.
End ParseResult.

(* requests.Response, as far as _ome_xml_url_parse reads it *)
Module Response.
Record t : Type := mk {
    status_code : Z;
    content : string
  }.
End Response.

(** [urllib.parse] and [pathlib], as [ome_metadata] calls them.  [urlparse]
    is handed the representation's [uri] as it is, a [str] or a list. *)
Class UrlLib : Type := {
  urlparse : uri_t -> outcome ParseResult.t;
  urlunparse :
    string * string * string * option string * option string * option string
    -> string;
  PurePath : Type;
  Path : string -> PurePath;
  parent : PurePath -> PurePath;
  truediv : PurePath -> string -> PurePath;       (* p / s *)
  path_str : PurePath -> string                   (* str(p) *)
}.

(** The remote side of [_ome_xml_url_parse].  [requests_get] sees the URIs
    requested so far, so a response may change from one request to the next.
    [from_xml content parser validate]. *)
Class Remote (OME : Type) : Type := {
  requests_get : list string -> string -> outcome Response.t;
  from_xml : string -> string -> bool -> outcome OME
}.

(** The retrieval collaborators of the merge (integrator.py, lines 2-4). *)
Class Collaborators : Type := {
  get_study : string -> outcome BIAStudy.t;
  get_study_annotations : string -> outcome (list StudyAnnotation.t);
  get_image_annotations : string -> string -> outcome (list ImageAnnotation.t);
  get_representations :
    string -> string -> outcome (list BIAImageRepresentation.t)
}.

(** ** Objects: attribute namespaces *)

Section Objects.
Context {OME : Type}.

(** What an attribute of a study or an image can hold: the values of the
    declared fields, a [str] written by an annotation, and the parsed OME
    document [ome_metadata] caches. *)
Inductive attr_value : Type :=
| VNone
| VStr (s : string)
| VPath (p : string)
| VReps (l : list BIAImageRepresentation.t)
| VImages (d : list (string * list (string * attr_value)))
| VOME (o : OME)
| VAttributes (d : list (pydata * pydata))
| VAuthors (l : list Author.t)
| VFileReferences (d : dict FileReference.t)
| VFiles (d : dict BIAFile.t)
| VImageAliases (d : dict BIAImageAlias.t)
| VTags (s : list string).

(* obj.__dict__ *)
Definition obj : Type := dict attr_value.

Definition of_optional_str (o : option string) : attr_value :=
  match o with
  | Some s => VStr s
  | None => VNone
  end.

(** The namespace of a validated model instance: one entry per declared
    field, in declaration order. *)
Definition BIAImage_dict (image : BIAImage.t) : obj :=
  [ ("id", VStr (BIAImage.id image));
    ("accession_id", of_optional_str (BIAImage.accession_id image));
    ("name", of_optional_str (BIAImage.name image));
    ("original_relpath", VPath (BIAImage.original_relpath image));
    ("dimensions", of_optional_str (BIAImage.dimensions image));
    ("representations", VReps (BIAImage.representations image));
    ("attributes", VAttributes (BIAImage.attributes image)) ].

Definition BIAStudy_dict (study : BIAStudy.t) : obj :=
  [ ("accession_id", VStr (BIAStudy.accession_id study));
    ("title", VStr (BIAStudy.title study));
    ("description", VStr (BIAStudy.description study));
    ("authors",
      match BIAStudy.authors study with
      | Some l => VAuthors l
      | None => VNone
      end);
    ("organism", VStr (BIAStudy.organism study));
    ("release_date", VStr (BIAStudy.release_date study));
    ("imaging_type", of_optional_str (BIAStudy.imaging_type study));
    ("attributes", VAttributes (BIAStudy.attributes study));
    ("example_image_uri", VStr (BIAStudy.example_image_uri study));
    ("file_references", VFileReferences (BIAStudy.file_references study));
    ("images",
      VImages (map (fun e => (fst e, BIAImage_dict (snd e)))
                   (BIAStudy.images study)));
    ("archive_files", VFiles (BIAStudy.archive_files study));
    ("other_files", VFiles (BIAStudy.other_files study));
    ("image_aliases", VImageAliases (BIAStudy.image_aliases study));
    ("tags", VTags (BIAStudy.tags study)) ].

Definition BIAImage_fields : list string :=
  [ "id"; "accession_id"; "name"; "original_relpath"; "dimensions";
    "representations"; "attributes" ].

Definition BIAStudy_fields : list string :=
  [ "accession_id"; "title"; "description"; "authors"; "organism";
    "release_date"; "imaging_type"; "attributes"; "example_image_uri";
    "file_references"; "images"; "archive_files"; "other_files";
    "image_aliases"; "tags" ].

(* o.name, for a name that is no property of the class *)
Definition getattr (cls : string) (o : obj) (name : string)
  : outcome attr_value :=
  match dict_get o name with
  | Some v => Returns v
  | None => Raises (AttributeError cls name)
  end.

(* v is None *)
Definition is_None (v : attr_value) : bool :=
  match v with
  | VNone => true
  | _ => false
  end.

End Objects.
Arguments attr_value OME : clear implicits.
Arguments obj OME : clear implicits.

(** ** BIAImage.ome_metadata (models.py, lines 98-129) *)

Section OmeMetadata.
Context {OME : Type} {url : UrlLib} {remote : Remote OME}.

(* rep.type == "ome_ngff" *)
Definition is_ome_ngff (rep : BIAImageRepresentation.t) : bool :=
  match BIAImageRepresentation.type rep with
  | Some t => String.eqb t "ome_ngff"
  | None => false
  end.

Definition pydata_class (p : pydata) : string :=
  match p with
  | PNone => "NoneType"
  | PBool _ => "bool"
  | PInt _ => "int"
  | PFloat _ => "float"
  | PStr _ => "str"
  | PList _ => "list"
  | PDict _ => "dict"
  end.

(** What [for rep in v] yields when [v] is no list of representations: the
    class of each element, or nothing at all when [v] is not iterable. *)
Definition iter_classes (v : attr_value OME) : option (list string) :=
  match v with
  | VNone | VPath _ => None
  | VStr s => Some (map (fun _ => "str") (list_ascii_of_string s))
  | VReps l => Some (map (fun _ => "BIAImageRepresentation") l)
  | VImages d => Some (map (fun _ => "str") d)
  | VOME _ => Some ["tuple"]
  | VAttributes d => Some (map (fun kv => pydata_class (fst kv)) d)
  | VAuthors l => Some (map (fun _ => "Author") l)
  | VFileReferences d => Some (map (fun _ => "str") d)
  | VFiles d => Some (map (fun _ => "str") d)
  | VImageAliases d => Some (map (fun _ => "str") d)
  | VTags s => Some (map (fun _ => "str") s)
  end.

(* [rep for rep in self.representations if rep.type == "ome_ngff"] *)
Definition ngff_representations (v : attr_value OME)
  : outcome (list BIAImageRepresentation.t) :=
  match v with
  | VReps l => Returns (filter is_ome_ngff l)
  | _ =>
      match iter_classes v with
      | None => Raises (TypeError "object is not iterable")
      | Some [] => Returns []
      | Some (c :: _) => Raises (AttributeError c "type")
      end
  end.

(* lines 108-115: the URI of the metadata document beside the representation *)
Definition ome_metadata_uri_of (ngff_rep : BIAImageRepresentation.t)
  : outcome string :=
  parsed_url <- urlparse (BIAImageRepresentation.uri ngff_rep) ;;
  let ome_metadata_path :=
    truediv (parent (Path (ParseResult.path parsed_url)))
            "OME/METADATA.ome.xml" in
  Returns (urlunparse (ParseResult.scheme parsed_url,
                       ParseResult.netloc parsed_url,
                       path_str ome_metadata_path,
                       None, None, None)).

(** [net] is the list of the URIs requested so far, oldest first. *)
Definition _ome_xml_url_parse (ome_metadata_uri : string) (net : list string)
  : outcome OME * list string :=
  let net' := net ++ [ome_metadata_uri] in
  match requests_get net ome_metadata_uri with
  | Raises e => (Raises e, net')
  | Returns r =>
      if Z.eqb (Response.status_code r) 200
      then (from_xml (Response.content r) "lxml" false, net')
      else (Raises (AssertionError (Response.status_code r) ome_metadata_uri
                                   (Response.content r)), net')
  end.

(** The property: what it returns or raises, the image's namespace after
    the access, and the requests made so far. *)
Definition ome_metadata (self : obj OME) (net : list string)
  : outcome (attr_value OME) * obj OME * list string :=
  let metadata :=
    match dict_get self "ome_metadata" with     (* __dict__.get(.., None) *)
    | Some v => v
    | None => VNone
    end in
  if is_None metadata then
    match (representations <- getattr "BIAImage" self "representations" ;;
           ngff_representations representations) with
    | Raises e => (Raises e, self, net)
    | Returns [] => (Returns VNone, self, net)
    | Returns (r :: rest) =>
        let ngff_rep := last rest r in          (* ngff_rep.pop() *)
        match ome_metadata_uri_of ngff_rep with
        | Raises e => (Raises e, self, net)
        | Returns ome_metadata_uri =>
            match _ome_xml_url_parse ome_metadata_uri net with
            | (Raises e, net') => (Raises e, self, net')
            | (Returns metadata, net') =>
                (Returns (VOME metadata),
                 dict_set self "ome_metadata" (VOME metadata), net')
            end
        end
    end
  else (Returns metadata, self, net).

(** [n] accesses in a row on the same object. *)
Fixpoint ome_metadata_times (n : nat) (self : obj OME) (net : list string)
  : list (outcome (attr_value OME)) * obj OME * list string :=
  match n with
  | O => ([], self, net)
  | S n' =>
      let '(r, self', net') := ome_metadata self net in
      let '(rs, self'', net'') := ome_metadata_times n' self' net' in
      (r :: rs, self'', net'')
  end.

End OmeMetadata.

(** ** load_and_annotate_study (integrator.py) *)

Section Integrator.
Context {OME : Type} {collab : Collaborators}.

(* study.images.items() *)
Definition items (v : attr_value OME) : outcome (list (string * obj OME)) :=
  match v with
  | VImages d => Returns d
  | VStr _ => Raises (AttributeError "str" "items")
  | VNone => Raises (AttributeError "NoneType" "items")
  (* no other value stands under [images]: see [images_after_update] *)
  | _ => Raises (AttributeError "object" "items")
  end.

(* representations += additional_image_reps *)
Definition iadd (v : attr_value OME)
    (additional_image_reps : list BIAImageRepresentation.t)
  : outcome (attr_value OME) :=
  match v with
  | VReps l => Returns (VReps (l ++ additional_image_reps))
  (* a str, as an annotation leaves it; no other value stands under
     [representations]: see [representations_after_annotations] *)
  | _ => Raises (TypeError "unsupported operand type(s) for +=")
  end.

(* lines 14-16 *)
Definition annotate_study (study : obj OME)
    (study_annotations : list StudyAnnotation.t) : obj OME :=
  let annotations_dict :=
    fold_left
      (fun d annotation =>
         dict_set d (StudyAnnotation.key annotation)
                    (VStr (StudyAnnotation.value annotation)))
      study_annotations [] in
  dict_update study annotations_dict.

(* lines 20-21 *)
Definition annotate_image (image : obj OME)
    (image_annotations : list ImageAnnotation.t) : obj OME :=
  fold_left
    (fun d image_annotation =>
       dict_set d (ImageAnnotation.key image_annotation)
                  (VStr (ImageAnnotation.value image_annotation)))
    image_annotations image.

(* the value an annotation assigns *)
Definition study_value (a : StudyAnnotation.t) : attr_value OME :=
  VStr (StudyAnnotation.value a).

Definition image_value (a : ImageAnnotation.t) : attr_value OME :=
  VStr (ImageAnnotation.value a).

(* a name that begins with two underscores, as the attributes pydantic
   keeps on the class do *)
Definition is_dunder (name : string) : bool := prefix "__" name.

(* name in s, for a str s *)
Definition is_substring (name s : string) : bool :=
  match index 0 name s with
  | Some _ => true
  | None => false
  end.

(* type(v).__name__ *)
Definition class_name (v : attr_value OME) : string :=
  match v with
  | VNone => "NoneType"
  | VStr _ => "str"
  | VPath _ => "PosixPath"
  | VReps _ | VAuthors _ => "list"
  | VImages _ | VAttributes _ | VFileReferences _ | VFiles _
  | VImageAliases _ => "dict"
  | VOME _ => "OME"
  | VTags _ => "set"
  end.

(** Modelled from the library: [self.name = value] on a pydantic (1.10)
    model with the default Config, that is [BaseModel.__setattr__]:

      if name in self.__private_attributes__ or name in DUNDER_ATTRIBUTES:
          return object_setattr(self, name, value)
      if self.__config__.extra is not Extra.allow
            and name not in self.__fields__:
          raise ValueError(...)
      elif not self.__config__.allow_mutation or self.__config__.frozen:
          raise TypeError(...)
      elif name in self.__fields__ and self.__fields__[name].final:
          raise TypeError(...)
      elif self.__config__.validate_assignment: ...
      self.__dict__[name] = value
      self.__fields_set__.add(name)

    [__private_attributes__] (empty), [__config__] and [__fields__] are
    attributes of the class, which an entry of the instance's namespace under
    the same name shadows; [__fields_set__] is a slot.  Only an annotation
    writes such an entry, and it writes a str: [name in] is then the
    substring test.  [fields] are the declared fields of the class, [name]
    is none of the DUNDER_ATTRIBUTES, and no field is final. *)
Definition BaseModel_setattr (fields : list string) (self : obj OME)
    (name : string) (value : attr_value OME) : outcome (obj OME) :=
  let assign := Returns (dict_set self name value) in
  is_private <-
    match dict_get self "__private_attributes__" with
    | None => Returns false
    | Some (VStr s) => Returns (is_substring name s)
    | Some _ => Raises (TypeError "argument is not iterable")
    end ;;
  if is_private : bool then assign
  else
    match dict_get self "__config__" with
    | Some v => Raises (AttributeError (class_name v) "extra")
    | None =>
        match dict_get self "__fields__" with
        | None =>
            if in_dec string_dec name fields then assign
            else Raises (OtherError "ValueError" "object has no field")
        | Some (VStr s) =>
            if is_substring name s
            then Raises (TypeError "string indices must be integers")
            else Raises (OtherError "ValueError" "object has no field")
        | Some _ => Raises (TypeError "argument is not iterable")
        end
    end.

(* lines 19-23: the body of the loop over study.images.items() *)
Definition merge_image (accession_id : string) (entry : string * obj OME)
  : outcome (string * obj OME) :=
  let '(image_id, image) := entry in
  image_annotations <- get_image_annotations accession_id image_id ;;
  let image := annotate_image image image_annotations in
  additional_image_reps <- get_representations accession_id image_id ;;
  representations <- getattr "BIAImage" image "representations" ;;
  representations <- iadd representations additional_image_reps ;;
  image <- BaseModel_setattr BIAImage_fields image "representations"
             representations ;;
  Returns (image_id, image).

Definition load_and_annotate_study (accession_id : string)
  : outcome (obj OME) :=
  study <- get_study accession_id ;;
  let study := BIAStudy_dict study in           (* the instance's __dict__ *)
  study_annotations <- get_study_annotations accession_id ;;
  let study := annotate_study study study_annotations in
  images <- getattr "BIAStudy" study "images" ;;
  image_items <- items images ;;
  images <- for_each (merge_image accession_id) image_items ;;
  Returns (dict_set study "images" (VImages images)).

End Integrator.

(** ** Serialization (models.py, lines 10-14)

    [BIABaseModel.json] hands the record to pydantic's [BaseModel.json],
    which hands [self.dict()] to [json.dumps]; [parse_raw] is the way back,
    through [json.loads] and the validation of the fields.  Modelled from
    the libraries: the text layer follows the [json] package of the Python
    library (encoder.py, scanner.py, decoder.py), the model layer pydantic
    1.10.

    A [str] is read as its sequence of code points, one [ascii] for each, so
    the embedding holds the code points below 256. *)

Section JsonText.
Local Open Scope string_scope.

Definition ord (c : ascii) : nat := nat_of_ascii c.
Definition quote : ascii := "034"%char.
Definition backslash : ascii := "092"%char.

Definition JSONDecodeError {A : Type} (msg : string) : outcome A :=
  Raises (OtherError "JSONDecodeError" msg).
Definition ValidationError {A : Type} (msg : string) : outcome A :=
  Raises (OtherError "ValidationError" msg).

(** *** json.encoder *)

Definition hex_digit (n : nat) : ascii :=
  match n with
  | 0 => "0" | 1 => "1" | 2 => "2" | 3 => "3" | 4 => "4" | 5 => "5"
  | 6 => "6" | 7 => "7" | 8 => "8" | 9 => "9" | 10 => "a" | 11 => "b"
  | 12 => "c" | 13 => "d" | 14 => "e" | _ => "f"
  end%char.

(* '\\u{0:04x}'.format(ord(c)), for a code point below 256 *)
Definition escape_u (c : ascii) : string :=
  String backslash
    (String "u" (String "0" (String "0"
       (String (hex_digit (ord c / 16))
          (String (hex_digit (ord c mod 16)) ""))))).

Definition ESCAPE_DCT (c : ascii) : option string :=
  if Ascii.eqb c backslash then Some (String backslash (String backslash ""))
  else if Ascii.eqb c quote then Some (String backslash (String quote ""))
  else if Ascii.eqb c "008" then Some (String backslash "b")
  else if Ascii.eqb c "012" then Some (String backslash "f")
  else if Ascii.eqb c "010" then Some (String backslash "n")
  else if Ascii.eqb c "013" then Some (String backslash "r")
  else if Ascii.eqb c "009" then Some (String backslash "t")
  else if Nat.ltb (ord c) 32 then Some (escape_u c)
  else None.

(* the pattern ESCAPE: a control character, the backslash or the quote *)
Definition ESCAPE (c : ascii) : bool :=
  Nat.ltb (ord c) 32 || Ascii.eqb c backslash || Ascii.eqb c quote.

(* the pattern ESCAPE_ASCII: the backslash, the quote, or any character
   outside the range from the space to the tilde *)
Definition ESCAPE_ASCII (c : ascii) : bool :=
  Ascii.eqb c backslash || Ascii.eqb c quote
  || negb (Nat.leb 32 (ord c) && Nat.leb (ord c) 126).

(* pattern.sub(replace, s) for a pattern that matches single characters *)
Fixpoint sub (pattern : ascii -> bool) (replace : ascii -> string)
    (s : string) : string :=
  match s with
  | EmptyString => ""
  | String c rest =>
      (if pattern c then replace c else String c "")
      ++ sub pattern replace rest
  end.

(* ESCAPE_DCT[s], and '\\u{0:04x}'.format(ord(s)) on a KeyError; ESCAPE
   matches no character outside ESCAPE_DCT *)
Definition replace (c : ascii) : string :=
  match ESCAPE_DCT c with
  | Some s => s
  | None => escape_u c
  end.

Definition encode_basestring (s : string) : string :=
  String quote (sub ESCAPE replace s ++ String quote "").

Definition encode_basestring_ascii (s : string) : string :=
  String quote (sub ESCAPE_ASCII replace s ++ String quote "").

(** [float.__repr__] and [float] on a str. *)
Class FloatText : Type := {
  float_repr : float -> string;
  float_of_str : string -> float
}.

(* int.__repr__ *)
Definition int_repr (z : Z) : string := DecimalString.NilZero.string_of_int (Z.to_int z).

Context {float_text : FloatText}.

(* allow_nan is left at True *)
Definition floatstr (o : float) : string :=
  if negb (PrimFloat.eqb o o) then "NaN"
  else if PrimFloat.eqb o infinity then "Infinity"
  else if PrimFloat.eqb o neg_infinity then "-Infinity"
  else float_repr o.

(* the str a key of a dict is written as *)
Definition json_key (key : pydata) : outcome string :=
  match key with
  | PStr s => Returns s
  | PFloat f => Returns (floatstr f)
  | PBool true => Returns "true"
  | PBool false => Returns "false"
  | PNone => Returns "null"
  | PInt z => Returns (int_repr z)
  | PList _ =>
      Raises (TypeError "keys must be str, int, float, bool or None, not list")
  | PDict _ =>
      Raises (TypeError "keys must be str, int, float, bool or None, not dict")
  end.

(* No indent, the separators ', ' and ': ', keys in the order of the dict. *)
Fixpoint _iterencode (_encoder : string -> string) (o : pydata)
  : outcome string :=
  match o with
  | PStr s => Returns (_encoder s)
  | PNone => Returns "null"
  | PBool true => Returns "true"
  | PBool false => Returns "false"
  | PInt z => Returns (int_repr z)
  | PFloat f => Returns (floatstr f)
  | PList lst =>
      chunks <- for_each (_iterencode _encoder) lst ;;
      match chunks with
      | [] => Returns "[]"
      | _ => Returns ("[" ++ String.concat ", " chunks ++ "]")
      end
  | PDict dct =>
      chunks <- for_each
                  (fun item =>
                     key <- json_key (fst item) ;;
                     value <- _iterencode _encoder (snd item) ;;
                     Returns (_encoder key ++ ": " ++ value))
                  dct ;;
      match chunks with
      | [] => Returns "{}"
      | _ => Returns ("{" ++ String.concat ", " chunks ++ "}")
      end
  end.

(* json.dumps(obj, ensure_ascii=ensure_ascii) *)
Definition dumps (obj : pydata) (ensure_ascii : bool) : outcome string :=
  _iterencode
    (if ensure_ascii then encode_basestring_ascii else encode_basestring) obj.

(** *** json.scanner and json.decoder *)

Definition is_digit (c : ascii) : bool := Nat.leb 48 (ord c) && Nat.leb (ord c) 57.

(* ' \t\n\r' *)
Definition is_whitespace (c : ascii) : bool :=
  Ascii.eqb c " " || Ascii.eqb c "009" || Ascii.eqb c "010"
  || Ascii.eqb c "013".

(* what is left after WHITESPACE.match *)
Fixpoint skip_whitespace (s : string) : string :=
  match s with
  | String c rest => if is_whitespace c then skip_whitespace rest else s
  | EmptyString => ""
  end.

(* the longest run of digits, and what follows it *)
Fixpoint digits (s : string) : string * string :=
  match s with
  | String c rest =>
      if is_digit c
      then let '(d, after) := digits rest in (String c d, after)
      else ("", s)
  | EmptyString => ("", "")
  end.

(* an optional sign: a minus, or a minus or a plus *)
Definition sign (minus_only : bool) (s : string) : string * string :=
  match s with
  | String c rest =>
      if Ascii.eqb c "-" || (negb minus_only && Ascii.eqb c "+")
      then (String c "", rest) else ("", s)
  | EmptyString => ("", "")
  end.

(* the first group of NUMBER_RE: an optional minus, then a single 0 or a
   run of digits that does not start with 0 *)
Definition match_integer (s : string) : option (string * string) :=
  let '(minus, s1) := sign true s in
  match s1 with
  | String c rest =>
      if Ascii.eqb c "0" then Some (minus ++ "0", rest)
      else if is_digit c
      then let '(d, after) := digits rest in Some (minus ++ String c d, after)
      else None
  | EmptyString => None
  end.

(* the second group: a point and one digit or more, if they are there *)
Definition match_frac (s : string) : string * string :=
  match s with
  | String c rest =>
      if Ascii.eqb c "."
      then match digits rest with
           | (EmptyString, _) => ("", s)
           | (d, after) => (String c d, after)
           end
      else ("", s)
  | EmptyString => ("", "")
  end.

(* the third group: e or E, an optional sign and one digit or more, if they
   are there *)
Definition match_exp (s : string) : string * string :=
  match s with
  | String c rest =>
      if Ascii.eqb c "e" || Ascii.eqb c "E"
      then let '(pm, s1) := sign false rest in
           match digits s1 with
           | (EmptyString, _) => ("", s)
           | (d, after) => (String c (pm ++ d), after)
           end
      else ("", s)
  | EmptyString => ("", "")
  end.

(* NUMBER_RE.match: the three groups and what follows the match *)
Definition match_number (s : string)
  : option (string * string * string * string) :=
  match match_integer s with
  | None => None
  | Some (integer, s1) =>
      let '(frac, s2) := match_frac s1 in
      let '(exp, s3) := match_exp s2 in
      Some (integer, frac, exp, s3)
  end.

(* int(s), for what NUMBER_RE hands it *)
Definition parse_int (s : string) : outcome Z :=
  match DecimalString.NilZero.int_of_string s with
  | Some d => Returns (Z.of_int d)
  | None => Raises (OtherError "ValueError" "invalid literal for int()")
  end.

Definition hex_value (c : ascii) : option nat :=
  let n := ord c in
  if is_digit c then Some (n - 48)
  else if Nat.leb 97 n && Nat.leb n 102 then Some (n - 87)
  else if Nat.leb 65 n && Nat.leb n 70 then Some (n - 55)
  else None.

(* the code point of \uXXXX: four hexadecimal digits, as the scanstring of
   the C accelerator, the one in use, reads them (py_scanstring hands the
   four characters to int with base 16, which takes a few more forms) *)
Definition decode_uXXXX (h1 h2 h3 h4 : ascii) : option nat :=
  match hex_value h1, hex_value h2, hex_value h3, hex_value h4 with
  | Some a, Some b, Some c, Some d => Some (((a * 16 + b) * 16 + c) * 16 + d)
  | _, _, _, _ => None
  end.

Definition BACKSLASH (esc : ascii) : option ascii :=
  if Ascii.eqb esc quote then Some quote
  else if Ascii.eqb esc backslash then Some backslash
  else if Ascii.eqb esc "/" then Some "/"%char
  else if Ascii.eqb esc "b" then Some "008"%char
  else if Ascii.eqb esc "f" then Some "012"%char
  else if Ascii.eqb esc "n" then Some "010"%char
  else if Ascii.eqb esc "r" then Some "013"%char
  else if Ascii.eqb esc "t" then Some "009"%char
  else None.

(** [scanstring(s, end, strict=True)], from the character after the opening
    quote: the decoded str and what follows the closing quote.  An escape
    that denotes a code point the embedding of str does not hold (256 and
    above) is reported as an error of its own. *)
Fixpoint scanstring (s : string) : outcome (string * string) :=
  match s with
  | EmptyString => JSONDecodeError "Unterminated string starting at"
  | String c rest =>
      if Ascii.eqb c quote then Returns ("", rest)
      else if Ascii.eqb c backslash then
        match rest with
        | EmptyString => JSONDecodeError "Unterminated string starting at"
        | String esc rest1 =>
            if Ascii.eqb esc "u" then
              match rest1 with
              | String h1 (String h2 (String h3 (String h4 rest2))) =>
                  match decode_uXXXX h1 h2 h3 h4 with
                  | Some uni =>
                      if Nat.ltb uni 256 then
                        '(content, after) <- scanstring rest2 ;;
                        Returns (String (ascii_of_nat uni) content, after)
                      else Raises (OtherError "NotEmbedded"
                                     "code point above U+00FF")
                  | None => JSONDecodeError "Invalid uXXXX escape"
                  end
              | _ => JSONDecodeError "Invalid uXXXX escape"
              end
            else
              match BACKSLASH esc with
              | Some char =>
                  '(content, after) <- scanstring rest1 ;;
                  Returns (String char content, after)
              | None => JSONDecodeError "Invalid escape"
              end
        end
      else if Nat.ltb (ord c) 32 then JSONDecodeError "Invalid control character at"
      else
        '(content, after) <- scanstring rest ;;
        Returns (String c content, after)
  end.

(* dict(pairs) *)
Definition dict_of_pairs (pairs : list (string * pydata))
  : list (pydata * pydata) :=
  map (fun kv => (PStr (fst kv), snd kv)) (dict_update [] pairs).

(* s.startswith(prefix), and what follows the prefix *)
Fixpoint startswith (prefix s : string) : option string :=
  match prefix, s with
  | EmptyString, _ => Some s
  | String a p, String b rest =>
      if Ascii.eqb a b then startswith p rest else None
  | String _ _, EmptyString => None
  end.

(* what the embedding raises when the fuel of the decoder is spent *)
Definition out_of_fuel : exn := OtherError "RecursionError" "out of fuel".

(** The last branches of [_scan_once]: a number, or one of the constants
    NaN, Infinity and -Infinity. *)
Definition scan_number (s : string) : outcome (pydata * string) :=
  match match_number s with
  | Some (integer, frac, exp, after) =>
      match frac, exp with
      | EmptyString, EmptyString =>
          res <- parse_int integer ;;
          Returns (PInt res, after)
      | _, _ =>
          Returns (PFloat (float_of_str (integer ++ frac ++ exp)), after)
      end
  | None =>
      match startswith "NaN" s, startswith "Infinity" s,
            startswith "-Infinity" s with
      | Some after, _, _ => Returns (PFloat nan, after)
      | None, Some after, _ => Returns (PFloat infinity, after)
      | None, None, Some after => Returns (PFloat neg_infinity, after)
      | None, None, None => JSONDecodeError "Expecting value"
      end
  end.

(** [scan_once], [JSONArray] and [JSONObject].  Each returns the value and
    what follows it.  The StopIteration of [scan_once], which every caller
    turns into the JSONDecodeError "Expecting value", is raised as that
    error.  [fuel] bounds the nesting and the number of members. *)
Fixpoint scan_once (fuel : nat) (s : string) {struct fuel}
  : outcome (pydata * string) :=
  match fuel with
  | 0 => Raises out_of_fuel
  | S fuel =>
      match s with
      | EmptyString => JSONDecodeError "Expecting value"
      | String nextchar rest =>
          if Ascii.eqb nextchar quote then
            '(str, after) <- scanstring rest ;;
            Returns (PStr str, after)
          else if Ascii.eqb nextchar "{" then
            match skip_whitespace rest with
            | String c after =>
                if Ascii.eqb c "}" then Returns (PDict [], after)
                else if Ascii.eqb c quote then
                  '(pairs, after) <- JSONObject fuel after [] ;;
                  Returns (PDict (dict_of_pairs pairs), after)
                else JSONDecodeError
                       "Expecting property name enclosed in double quotes"
            | EmptyString =>
                JSONDecodeError
                  "Expecting property name enclosed in double quotes"
            end
          else if Ascii.eqb nextchar "[" then
            match skip_whitespace rest with
            | String c after =>
                if Ascii.eqb c "]" then Returns (PList [], after)
                else
                  '(values, after) <-
                    JSONArray fuel (skip_whitespace rest) [] ;;
                  Returns (PList values, after)
            | EmptyString => JSONDecodeError "Expecting value"
            end
          else
            match startswith "null" s, startswith "true" s,
                  startswith "false" s with
            | Some after, _, _ => Returns (PNone, after)
            | None, Some after, _ => Returns (PBool true, after)
            | None, None, Some after => Returns (PBool false, after)
            | None, None, None => scan_number s
            end
      end
  end

(* the loop of JSONArray, at a value *)
with JSONArray (fuel : nat) (s : string) (values : list pydata)
    {struct fuel} : outcome (list pydata * string) :=
  match fuel with
  | 0 => Raises out_of_fuel
  | S fuel =>
      '(value, after) <- scan_once fuel s ;;
      let values := (values ++ [value])%list in
      match skip_whitespace after with
      | String nextchar after =>
          if Ascii.eqb nextchar "]" then Returns (values, after)
          else if Ascii.eqb nextchar ","
          then JSONArray fuel (skip_whitespace after) values
          else JSONDecodeError "Expecting ',' delimiter"
      | EmptyString => JSONDecodeError "Expecting ',' delimiter"
      end
  end

(* the loop of JSONObject, after the opening quote of a key *)
with JSONObject (fuel : nat) (s : string) (pairs : list (string * pydata))
    {struct fuel} : outcome (list (string * pydata) * string) :=
  match fuel with
  | 0 => Raises out_of_fuel
  | S fuel =>
      '(key, after) <- scanstring s ;;
      match skip_whitespace after with
      | String colon after =>
          if Ascii.eqb colon ":" then
            '(value, after) <- scan_once fuel (skip_whitespace after) ;;
            let pairs := (pairs ++ [(key, value)])%list in
            match skip_whitespace after with
            | String nextchar after =>
                if Ascii.eqb nextchar "}" then Returns (pairs, after)
                else if Ascii.eqb nextchar "," then
                  match skip_whitespace after with
                  | String c after =>
                      if Ascii.eqb c quote then JSONObject fuel after pairs
                      else JSONDecodeError
                        "Expecting property name enclosed in double quotes"
                  | EmptyString =>
                      JSONDecodeError
                        "Expecting property name enclosed in double quotes"
                  end
                else JSONDecodeError "Expecting ',' delimiter"
            | EmptyString => JSONDecodeError "Expecting ',' delimiter"
            end
          else JSONDecodeError "Expecting ':' delimiter"
      | EmptyString => JSONDecodeError "Expecting ':' delimiter"
      end
  end.

(* JSONDecoder.decode.  No str spends the fuel given here: each level of
   nesting and each member takes a character of the text. *)
Definition loads (s : string) : outcome pydata :=
  '(obj, after) <- scan_once (S (2 * String.length s)) (skip_whitespace s) ;;
  match skip_whitespace after with
  | EmptyString => Returns obj
  | String _ _ => JSONDecodeError "Extra data"
  end.

End JsonText.

(** *** pydantic: a model as a dict, and a dict as a model

    [json_dict] is [self.dict()] as [json.dumps] writes it with pydantic's
    encoder as its [default]: a model inside a model is its dict, a Path is
    its str, a set is the list of its members.  [parse_obj] validates the
    fields in the order of the class, takes the default of a field the dict
    does not name and leaves out the keys that name no field; the
    ValidationError is raised at the first field that fails.  Where
    pydantic converts a value of another type to the type of the field (a
    number given for a str, a str of digits given for an int, a list of
    pairs given for a dict), the validators here raise the ValidationError;
    the text [json] writes holds no such value. *)

Class BaseModel (T : Type) : Type := {
  json_dict : T -> list (pydata * pydata);
  parse_obj : pydata -> outcome T
}.

Section Fields.
Context {url : UrlLib}.

Definition validator (A : Type) : Type := pydata -> outcome A.

(* values.get(name) on a dict whose keys may be of any type *)
Fixpoint data_get (values : list (pydata * pydata)) (name : string)
  : option pydata :=
  match values with
  | [] => None
  | (PStr k, v) :: rest =>
      if String.eqb k name then Some v else data_get rest name
  | _ :: rest => data_get rest name
  end.

Definition required {A : Type} (validate : validator A) (name : string)
    (values : list (pydata * pydata)) : outcome A :=
  match data_get values name with
  | Some v => validate v
  | None => ValidationError "field required"
  end.

Definition with_default {A : Type} (validate : validator A) (default : A)
    (name : string) (values : list (pydata * pydata)) : outcome A :=
  match data_get values name with
  | Some v => validate v
  | None => Returns default
  end.

Definition str_validator : validator string :=
  fun v => match v with
           | PStr s => Returns s
           | _ => ValidationError "str type expected"
           end.

Definition int_validator : validator Z :=
  fun v => match v with
           | PInt z => Returns z
           | _ => ValidationError "value is not a valid integer"
           end.

Definition float_validator : validator float :=
  fun v => match v with
           | PFloat f => Returns f
           | _ => ValidationError "value is not a valid float"
           end.

(* pathlib.Path: Path(v), a path being embedded as its str *)
Definition path_validator : validator string :=
  fun v => match v with
           | PStr s => Returns (path_str (Path s))
           | _ => ValidationError "value is not a valid path"
           end.

(* Optional[...] *)
Definition optional {A : Type} (validate : validator A)
  : validator (option A) :=
  fun v => match v with
           | PNone => Returns None
           | _ => x <- validate v ;; Returns (Some x)
           end.

(* List[...] *)
Definition list_of {A : Type} (validate : validator A) : validator (list A) :=
  fun v => match v with
           | PList l => for_each validate l
           | _ => ValidationError "value is not a valid list"
           end.

(* Dict[str, ...] *)
Definition dict_of {A : Type} (validate : validator A) : validator (dict A) :=
  fun v => match v with
           | PDict d =>
               for_each (fun item =>
                           key <- str_validator (fst item) ;;
                           value <- validate (snd item) ;;
                           Returns (key, value)) d
           | _ => ValidationError "value is not a valid dict"
           end.

(* Dict *)
Definition any_dict : validator (list (pydata * pydata)) :=
  fun v => match v with
           | PDict d => Returns d
           | _ => ValidationError "value is not a valid dict"
           end.

(* Set[str]: set(v), a set being embedded as the list of its members *)
Definition set_of_str : validator (list string) :=
  fun v => match v with
           | PList l =>
               members <- for_each str_validator l ;;
               Returns (nodup string_dec members)
           | _ => ValidationError "value is not a valid set"
           end.

(* Union[str, List[str]]: the first member of the union that validates *)
Definition uri_validator : validator uri_t :=
  fun v => match str_validator v with
           | Returns s => Returns (UriStr s)
           | Raises _ => l <- list_of str_validator v ;; Returns (UriList l)
           end.

(* a field whose type is a model class *)
Definition model (T : Type) {M : BaseModel T} : validator T := parse_obj.

Definition of_optional {A : Type} (f : A -> pydata) (o : option A) : pydata :=
  match o with
  | Some x => f x
  | None => PNone
  end.

Definition of_list {A : Type} (f : A -> pydata) (l : list A) : pydata :=
  PList (map f l).

Definition of_dict {A : Type} (f : A -> pydata) (d : dict A) : pydata :=
  PDict (map (fun item => (PStr (fst item), f (snd item))) d).

Definition of_uri (u : uri_t) : pydata :=
  match u with
  | UriStr s => PStr s
  | UriList l => of_list PStr l
  end.

Definition of_model {T : Type} {M : BaseModel T} (x : T) : pydata :=
  PDict (json_dict x).

(* parse_obj: the class called on the members of obj, when obj is a dict *)
Definition parse_dict {T : Type}
    (fields : list (pydata * pydata) -> outcome T) : pydata -> outcome T :=
  fun obj => match obj with
             | PDict values => fields values
             | _ => ValidationError "object is not a dict"
             end.

#[export] Instance ChannelRendering_model : BaseModel ChannelRendering.t := {
  json_dict self :=
    [ (PStr "colormap_start",
       of_list PFloat (ChannelRendering.colormap_start self));
      (PStr "colormap_end",
       of_list PFloat (ChannelRendering.colormap_end self));
      (PStr "scale_factor", PFloat (ChannelRendering.scale_factor self)) ];
  parse_obj := parse_dict (fun values =>
    colormap_start <- required (list_of float_validator)
                        "colormap_start" values ;;
    colormap_end <- required (list_of float_validator)
                      "colormap_end" values ;;
    scale_factor <- with_default float_validator 1%float
                      "scale_factor" values ;;
    Returns (ChannelRendering.mk colormap_start colormap_end scale_factor))
}.

#[export] Instance RenderingInfo_model : BaseModel RenderingInfo.t := {
  json_dict self :=
    [ (PStr "channel_renders",
       of_list of_model (RenderingInfo.channel_renders self));
      (PStr "default_z", of_optional PInt (RenderingInfo.default_z self));
      (PStr "default_t", of_optional PInt (RenderingInfo.default_t self)) ];
  parse_obj := parse_dict (fun values =>
    channel_renders <- required (list_of (model ChannelRendering.t))
                         "channel_renders" values ;;
    default_z <- with_default (optional int_validator) None
                   "default_z" values ;;
    default_t <- with_default (optional int_validator) None
                   "default_t" values ;;
    Returns (RenderingInfo.mk channel_renders default_z default_t))
}.

#[export] Instance BIAImageRepresentation_model
  : BaseModel BIAImageRepresentation.t := {
  json_dict self :=
    [ (PStr "accession_id", PStr (BIAImageRepresentation.accession_id self));
      (PStr "image_id", PStr (BIAImageRepresentation.image_id self));
      (PStr "uri", of_uri (BIAImageRepresentation.uri self));
      (PStr "size", PInt (BIAImageRepresentation.size self));
      (PStr "type", of_optional PStr (BIAImageRepresentation.type self));
      (PStr "dimensions",
       of_optional PStr (BIAImageRepresentation.dimensions self));
      (PStr "attributes",
       of_optional PDict (BIAImageRepresentation.attributes self));
      (PStr "rendering",
       of_optional of_model (BIAImageRepresentation.rendering self)) ];
  parse_obj := parse_dict (fun values =>
    accession_id <- required str_validator "accession_id" values ;;
    image_id <- required str_validator "image_id" values ;;
    uri <- required uri_validator "uri" values ;;
    size <- required int_validator "size" values ;;
    type <- with_default (optional str_validator) None "type" values ;;
    dimensions <- with_default (optional str_validator) None
                    "dimensions" values ;;
    attributes <- with_default (optional any_dict) None
                    "attributes" values ;;
    rendering <- with_default (optional (model RenderingInfo.t)) None
                   "rendering" values ;;
    Returns (BIAImageRepresentation.mk accession_id image_id uri size type
               dimensions attributes rendering))
}.

#[export] Instance BIAFileRepresentation_model
  : BaseModel BIAFileRepresentation.t := {
  json_dict self :=
    [ (PStr "accession_id", PStr (BIAFileRepresentation.accession_id self));
      (PStr "file_id", PStr (BIAFileRepresentation.file_id self));
      (PStr "uri", of_uri (BIAFileRepresentation.uri self));
      (PStr "size", PInt (BIAFileRepresentation.size self)) ];
  parse_obj := parse_dict (fun values =>
    accession_id <- required str_validator "accession_id" values ;;
    file_id <- required str_validator "file_id" values ;;
    uri <- required uri_validator "uri" values ;;
    size <- required int_validator "size" values ;;
    Returns (BIAFileRepresentation.mk accession_id file_id uri size))
}.

#[export] Instance BIAFile_model : BaseModel BIAFile.t := {
  json_dict self :=
    [ (PStr "id", PStr (BIAFile.id self));
      (PStr "original_relpath", PStr (BIAFile.original_relpath self));
      (PStr "original_size", PInt (BIAFile.original_size self));
      (PStr "attributes", PDict (BIAFile.attributes self));
      (PStr "representations",
       of_list of_model (BIAFile.representations self)) ];
  parse_obj := parse_dict (fun values =>
    id <- required str_validator "id" values ;;
    original_relpath <- required path_validator "original_relpath" values ;;
    original_size <- required int_validator "original_size" values ;;
    attributes <- with_default any_dict [] "attributes" values ;;
    representations <- with_default
                         (list_of (model BIAFileRepresentation.t)) []
                         "representations" values ;;
    Returns (BIAFile.mk id original_relpath original_size attributes
               representations))
}.

#[export] Instance FileReference_model : BaseModel FileReference.t := {
  json_dict self :=
    [ (PStr "id", PStr (FileReference.id self));
      (PStr "name", PStr (FileReference.name self));
      (PStr "uri", PStr (FileReference.uri self));
      (PStr "size_in_bytes",
       of_optional PInt (FileReference.size_in_bytes self));
      (PStr "attributes", PDict (FileReference.attributes self)) ];
  parse_obj := parse_dict (fun values =>
    id <- required str_validator "id" values ;;
    name <- required str_validator "name" values ;;
    uri <- required str_validator "uri" values ;;
    size_in_bytes <- with_default (optional int_validator) None
                       "size_in_bytes" values ;;
    attributes <- with_default any_dict [] "attributes" values ;;
    Returns (FileReference.mk id name uri size_in_bytes attributes))
}.

#[export] Instance BIAImage_model : BaseModel BIAImage.t := {
  json_dict self :=
    [ (PStr "id", PStr (BIAImage.id self));
      (PStr "accession_id", of_optional PStr (BIAImage.accession_id self));
      (PStr "name", of_optional PStr (BIAImage.name self));
      (PStr "original_relpath", PStr (BIAImage.original_relpath self));
      (PStr "dimensions", of_optional PStr (BIAImage.dimensions self));
      (PStr "representations",
       of_list of_model (BIAImage.representations self));
      (PStr "attributes", PDict (BIAImage.attributes self)) ];
  parse_obj := parse_dict (fun values =>
    id <- required str_validator "id" values ;;
    accession_id <- with_default (optional str_validator) None
                      "accession_id" values ;;
    name <- with_default (optional str_validator) None "name" values ;;
    original_relpath <- required path_validator "original_relpath" values ;;
    dimensions <- with_default (optional str_validator) None
                    "dimensions" values ;;
    representations <- with_default
                         (list_of (model BIAImageRepresentation.t)) []
                         "representations" values ;;
    attributes <- with_default any_dict [] "attributes" values ;;
    Returns (BIAImage.mk id accession_id name original_relpath dimensions
               representations attributes))
}.

#[export] Instance BIAImageAlias_model : BaseModel BIAImageAlias.t := {
  json_dict self :=
    [ (PStr "name", PStr (BIAImageAlias.name self));
      (PStr "accession_id", PStr (BIAImageAlias.accession_id self));
      (PStr "image_id", PStr (BIAImageAlias.image_id self)) ];
  parse_obj := parse_dict (fun values =>
    name <- required str_validator "name" values ;;
    accession_id <- required str_validator "accession_id" values ;;
    image_id <- required str_validator "image_id" values ;;
    Returns (BIAImageAlias.mk name accession_id image_id))
}.

#[export] Instance Author_model : BaseModel Author.t := {
  json_dict self := [ (PStr "name", PStr (Author.name self)) ];
  parse_obj := parse_dict (fun values =>
    name <- required str_validator "name" values ;;
    Returns (Author.mk name))
}.

#[export] Instance BIAStudy_model : BaseModel BIAStudy.t := {
  json_dict self :=
    [ (PStr "accession_id", PStr (BIAStudy.accession_id self));
      (PStr "title", PStr (BIAStudy.title self));
      (PStr "description", PStr (BIAStudy.description self));
      (PStr "authors",
       of_optional (of_list of_model) (BIAStudy.authors self));
      (PStr "organism", PStr (BIAStudy.organism self));
      (PStr "release_date", PStr (BIAStudy.release_date self));
      (PStr "imaging_type", of_optional PStr (BIAStudy.imaging_type self));
      (PStr "attributes", PDict (BIAStudy.attributes self));
      (PStr "example_image_uri", PStr (BIAStudy.example_image_uri self));
      (PStr "file_references",
       of_dict of_model (BIAStudy.file_references self));
      (PStr "images", of_dict of_model (BIAStudy.images self));
      (PStr "archive_files", of_dict of_model (BIAStudy.archive_files self));
      (PStr "other_files", of_dict of_model (BIAStudy.other_files self));
      (PStr "image_aliases", of_dict of_model (BIAStudy.image_aliases self));
      (PStr "tags", of_list PStr (BIAStudy.tags self)) ];
  parse_obj := parse_dict (fun values =>
    accession_id <- required str_validator "accession_id" values ;;
    title <- required str_validator "title" values ;;
    description <- required str_validator "description" values ;;
    authors <- with_default (optional (list_of (model Author.t))) (Some [])
                 "authors" values ;;
    organism <- required str_validator "organism" values ;;
    release_date <- required str_validator "release_date" values ;;
    imaging_type <- with_default (optional str_validator) None
                      "imaging_type" values ;;
    attributes <- with_default any_dict [] "attributes" values ;;
    example_image_uri <- with_default str_validator ""
                           "example_image_uri" values ;;
    file_references <- with_default (dict_of (model FileReference.t)) []
                         "file_references" values ;;
    images <- with_default (dict_of (model BIAImage.t)) [] "images" values ;;
    archive_files <- with_default (dict_of (model BIAFile.t)) []
                       "archive_files" values ;;
    other_files <- with_default (dict_of (model BIAFile.t)) []
                     "other_files" values ;;
    image_aliases <- with_default (dict_of (model BIAImageAlias.t)) []
                       "image_aliases" values ;;
    tags <- with_default set_of_str [] "tags" values ;;
    Returns (BIAStudy.mk accession_id title description authors organism
               release_date imaging_type attributes example_image_uri
               file_references images archive_files other_files
               image_aliases tags))
}.

#[export] Instance BIACollection_model : BaseModel BIACollection.t := {
  json_dict self :=
    [ (PStr "name", PStr (BIACollection.name self));
      (PStr "title", PStr (BIACollection.title self));
      (PStr "subtitle", PStr (BIACollection.subtitle self));
      (PStr "description",
       of_optional PStr (BIACollection.description self));
      (PStr "accession_ids",
       of_list PStr (BIACollection.accession_ids self)) ];
  parse_obj := parse_dict (fun values =>
    name <- required str_validator "name" values ;;
    title <- required str_validator "title" values ;;
    subtitle <- required str_validator "subtitle" values ;;
    description <- with_default (optional str_validator) None
                     "description" values ;;
    accession_ids <- required (list_of str_validator)
                       "accession_ids" values ;;
    Returns (BIACollection.mk name title subtitle description accession_ids))
}.

#[export] Instance StudyTag_model : BaseModel StudyTag.t := {
  json_dict self :=
    [ (PStr "accession_id", PStr (StudyTag.accession_id self));
      (PStr "value", PStr (StudyTag.value self)) ];
  parse_obj := parse_dict (fun values =>
    accession_id <- required str_validator "accession_id" values ;;
    value <- required str_validator "value" values ;;
    Returns (StudyTag.mk accession_id value))
}.

#[export] Instance StudyAnnotation_model : BaseModel StudyAnnotation.t := {
  json_dict self :=
    [ (PStr "accession_id", PStr (StudyAnnotation.accession_id self));
      (PStr "key", PStr (StudyAnnotation.key self));
      (PStr "value", PStr (StudyAnnotation.value self)) ];
  parse_obj := parse_dict (fun values =>
    accession_id <- required str_validator "accession_id" values ;;
    key <- required str_validator "key" values ;;
    value <- required str_validator "value" values ;;
    Returns (StudyAnnotation.mk accession_id key value))
}.

#[export] Instance ImageAnnotation_model : BaseModel ImageAnnotation.t := {
  json_dict self :=
    [ (PStr "accession_id", PStr (ImageAnnotation.accession_id self));
      (PStr "image_id", PStr (ImageAnnotation.image_id self));
      (PStr "key", PStr (ImageAnnotation.key self));
      (PStr "value", PStr (ImageAnnotation.value self)) ];
  parse_obj := parse_dict (fun values =>
    accession_id <- required str_validator "accession_id" values ;;
    image_id <- required str_validator "image_id" values ;;
    key <- required str_validator "key" values ;;
    value <- required str_validator "value" values ;;
    Returns (ImageAnnotation.mk accession_id image_id key value))
}.

End Fields.

Section Json.
Context {url : UrlLib} {float_text : FloatText}.
Context {T : Type} {M : BaseModel T}.

(** pydantic's [BaseModel.json]: [json.dumps] of [self.dict()], with the
    keyword arguments it was given handed on. *)
Definition BaseModel_json (self : T) (ensure_ascii : bool) : outcome string :=
  dumps (PDict (json_dict self)) ensure_ascii.

(** [BIABaseModel.json] (models.py, lines 11-14): [None] for a call that
    leaves [ensure_ascii] out.  The call is embedded without further
    keyword arguments. *)
Definition json (self : T) (ensure_ascii : option bool) : outcome string :=
  let ensure_ascii :=
    match ensure_ascii with
    | Some given => given
    | None => false
    end in
  BaseModel_json self ensure_ascii.

(** pydantic's [parse_raw] on a str: [json.loads], whose errors become the
    ValidationError, then [parse_obj]. *)
Definition parse_raw (b : string) : outcome T :=
  match loads b with
  | Returns obj => parse_obj obj
  | Raises (OtherError "JSONDecodeError" msg) => ValidationError msg
  | Raises e => Raises e
  end.

End Json.

(** *** Records that are written and read back

    What the round trip asks of a record.  A float must be equal to itself,
    which a NaN is not, so that no record that holds a NaN is equal to the
    record read back; and of a finite float, that its [repr] is a JSON
    number with a fraction or an exponent that [float] reads back to it, as
    Python's [repr] is.  A free-form value must be one of those JSON has: a
    dict in it has str keys only, each once. *)

Section Validity.
Context {url : UrlLib} {float_text : FloatText}.
Local Open Scope string_scope.

(* the whole of s is a match of NUMBER_RE with a fraction or an exponent *)
Definition float_literal (s : string) : bool :=
  match match_number s with
  | Some (_, frac, exp, EmptyString) =>
      negb (String.eqb frac "" && String.eqb exp "")
  | _ => false
  end.

Definition float_ok (f : float) : Prop :=
  PrimFloat.eqb f f = true
  /\ (PrimFloat.eqb f infinity = false ->
      PrimFloat.eqb f neg_infinity = false ->
      float_literal (float_repr f) = true
      /\ float_of_str (float_repr f) = f).

Inductive native : pydata -> Prop :=
| native_None : native PNone
| native_Bool (b : bool) : native (PBool b)
| native_Int (z : Z) : native (PInt z)
| native_Float (f : float) : float_ok f -> native (PFloat f)
| native_Str (s : string) : native (PStr s)
| native_List (l : list pydata) : Forall native l -> native (PList l)
| native_Dict (d : list (pydata * pydata)) :
    Forall (fun item => (exists k, fst item = PStr k) /\ native (snd item)) d ->
    NoDup (map fst d) ->
    native (PDict d).

(* a pathlib.Path is embedded as its str, which Path reads back to it *)
Definition path_ok (p : string) : Prop := path_str (Path p) = p.

(* a dict of models: each key once *)
Definition dict_ok {A : Type} (ok : A -> Prop) (d : dict A) : Prop :=
  NoDup (dict_keys d) /\ Forall (fun item => ok (snd item)) d.

Definition optional_ok {A : Type} (ok : A -> Prop) (o : option A) : Prop :=
  match o with
  | Some x => ok x
  | None => True
  end.

Definition ChannelRendering_ok (r : ChannelRendering.t) : Prop :=
  Forall float_ok (ChannelRendering.colormap_start r)
  /\ Forall float_ok (ChannelRendering.colormap_end r)
  /\ float_ok (ChannelRendering.scale_factor r).

Definition RenderingInfo_ok (r : RenderingInfo.t) : Prop :=
  Forall ChannelRendering_ok (RenderingInfo.channel_renders r).

Definition BIAImageRepresentation_ok (r : BIAImageRepresentation.t) : Prop :=
  optional_ok (fun d => native (PDict d)) (BIAImageRepresentation.attributes r)
  /\ optional_ok RenderingInfo_ok (BIAImageRepresentation.rendering r).

Definition BIAFile_ok (r : BIAFile.t) : Prop :=
  path_ok (BIAFile.original_relpath r)
  /\ native (PDict (BIAFile.attributes r)).

Definition FileReference_ok (r : FileReference.t) : Prop :=
  native (PDict (FileReference.attributes r)).

Definition BIAImage_ok (r : BIAImage.t) : Prop :=
  path_ok (BIAImage.original_relpath r)
  /\ Forall BIAImageRepresentation_ok (BIAImage.representations r)
  /\ native (PDict (BIAImage.attributes r)).

Definition BIAStudy_ok (r : BIAStudy.t) : Prop :=
  native (PDict (BIAStudy.attributes r))
  /\ dict_ok FileReference_ok (BIAStudy.file_references r)
  /\ dict_ok BIAImage_ok (BIAStudy.images r)
  /\ dict_ok BIAFile_ok (BIAStudy.archive_files r)
  /\ dict_ok BIAFile_ok (BIAStudy.other_files r)
  /\ dict_ok (fun _ => True) (BIAStudy.image_aliases r)
  /\ NoDup (BIAStudy.tags r).

End Validity.

(** The classes of models.py. *)
Module Cls.
Inductive t : Type :=
| ChannelRendering | RenderingInfo | BIAImageRepresentation
| BIAFileRepresentation | BIAFile | FileReference | BIAImage | BIAImageAlias
| Author | BIAStudy | BIACollection | StudyTag | StudyAnnotation
| ImageAnnotation.
End Cls.

Definition record (cls : Cls.t) : Type :=
  match cls with
  | Cls.ChannelRendering => ChannelRendering.t
  | Cls.RenderingInfo => RenderingInfo.t
  | Cls.BIAImageRepresentation => BIAImageRepresentation.t
  | Cls.BIAFileRepresentation => BIAFileRepresentation.t
  | Cls.BIAFile => BIAFile.t
  | Cls.FileReference => FileReference.t
  | Cls.BIAImage => BIAImage.t
  | Cls.BIAImageAlias => BIAImageAlias.t
  | Cls.Author => Author.t
  | Cls.BIAStudy => BIAStudy.t
  | Cls.BIACollection => BIACollection.t
  | Cls.StudyTag => StudyTag.t
  | Cls.StudyAnnotation => StudyAnnotation.t
  | Cls.ImageAnnotation => ImageAnnotation.t
  end.

Section Records.
Context {url : UrlLib} {float_text : FloatText}.

Definition record_model (cls : Cls.t) : BaseModel (record cls) :=
  match cls with
  | Cls.ChannelRendering => ChannelRendering_model
  | Cls.RenderingInfo => RenderingInfo_model
  | Cls.BIAImageRepresentation => BIAImageRepresentation_model
  | Cls.BIAFileRepresentation => BIAFileRepresentation_model
  | Cls.BIAFile => BIAFile_model
  | Cls.FileReference => FileReference_model
  | Cls.BIAImage => BIAImage_model
  | Cls.BIAImageAlias => BIAImageAlias_model
  | Cls.Author => Author_model
  | Cls.BIAStudy => BIAStudy_model
  | Cls.BIACollection => BIACollection_model
  | Cls.StudyTag => StudyTag_model
  | Cls.StudyAnnotation => StudyAnnotation_model
  | Cls.ImageAnnotation => ImageAnnotation_model
  end.

Definition record_ok (cls : Cls.t) : record cls -> Prop :=
  match cls with
  | Cls.ChannelRendering => ChannelRendering_ok
  | Cls.RenderingInfo => RenderingInfo_ok
  | Cls.BIAImageRepresentation => BIAImageRepresentation_ok
  | Cls.BIAFile => BIAFile_ok
  | Cls.FileReference => FileReference_ok
  | Cls.BIAImage => BIAImage_ok
  | Cls.BIAStudy => BIAStudy_ok
  | Cls.BIAFileRepresentation | Cls.BIAImageAlias | Cls.Author
  | Cls.BIACollection | Cls.StudyTag | Cls.StudyAnnotation
  | Cls.ImageAnnotation => fun _ => True
  end.

End Records.


(** What may follow a value inside a list or a dict: nothing, a comma or a
    closing bracket. *)
Definition delimiter (c : ascii) : bool :=
  Ascii.eqb c "," || Ascii.eqb c "]" || Ascii.eqb c "}".

Definition delimited (rest : string) : Prop :=
  match rest with
  | EmptyString => True
  | String c _ => delimiter c = true
  end.

(* a pattern that matches every character ESCAPE matches *)
Definition escapes_enough (pattern : ascii -> bool) : Prop :=
  forall c, ESCAPE c = true -> pattern c = true.

(* the characters a number starts with *)
Definition number_head (c : ascii) : bool := Ascii.eqb c "-" || is_digit c.

(* the encoder of strs that escapes what [pattern] matches *)
Definition encoder_of (pattern : ascii -> bool) (s : string) : string :=
  String quote (sub pattern replace s ++ String quote "")%string.

(* the str of a key that is one *)
Definition key_str (key : pydata) : string :=
  match key with
  | PStr s => s
  | _ => EmptyString
  end.

(* the characters the text of a value starts with: no whitespace, and not
   the bracket that closes a list *)
Definition value_head (c : ascii) : bool :=
  negb (is_whitespace c || Ascii.eqb c "]").

(** [scan_once] reads a value back from its text, whatever delimiter
    follows, with fuel for the characters of the text. *)
Definition reads {float_text : FloatText} (pattern : ascii -> bool)
    (v : pydata) : Prop :=
  forall t, _iterencode (encoder_of pattern) v = Returns t ->
  forall fuel rest,
    String.length t <= fuel -> delimited rest ->
    scan_once fuel (t ++ rest)%string = Returns (v, rest).

(** The strs of a value, keys and values in the order they are written in,
    each as [shown] gives it; and with them the characters outside ASCII
    that the strs of a value hold. *)
Definition is_ascii (c : ascii) : bool := Nat.ltb (ord c) 128.

Fixpoint non_ascii (s : string) : string :=
  match s with
  | EmptyString => EmptyString
  | String c rest =>
      if is_ascii c then non_ascii rest else String c (non_ascii rest)
  end.

Fixpoint str_content (shown : string -> string) (v : pydata) : string :=
  match v with
  | PStr s => shown s
  | PList l => String.concat "" (map (str_content shown) l)
  | PDict d =>
      String.concat ""
        (map (fun item =>
                (str_content shown (fst item)
                 ++ str_content shown (snd item))%string) d)
  | _ => EmptyString
  end.

Definition non_ascii_content (v : pydata) : string :=
  str_content non_ascii v.

(** ** Instances for the examples

    [urllib.parse] and [pathlib] on URLs of the form [scheme://host/path],
    a remote side that serves every document, one that refuses every
    request, and a small archive behind the collaborators. *)

Module Demo.

(* the text before the last "/" and the text after it *)
Fixpoint split_last_slash (s : string) : option (string * string) :=
  match s with
  | EmptyString => None
  | String c rest =>
      match split_last_slash rest with
      | Some (a, b) => Some (String c a, b)
      | None =>
          if Ascii.eqb c "/"%char then Some (EmptyString, rest) else None
      end
  end.

Definition urlparse (u : uri_t) : outcome ParseResult.t :=
  match u with
  | UriList _ => Raises (AttributeError "list" "decode")
  | UriStr s =>
      match index 0 "://" s with
      | None => Returns (ParseResult.mk "" "" s "" "" "")
      | Some n =>
          let rest := substring (n + 3) (String.length s - (n + 3)) s in
          match index 0 "/" rest with
          | None => Returns (ParseResult.mk (substring 0 n s) rest "" "" "" "")
          | Some m =>
              Returns (ParseResult.mk (substring 0 n s) (substring 0 m rest)
                         (substring m (String.length rest - m) rest) "" "" "")
          end
      end
  end.

Definition urlunparse
    (c : string * string * string * option string * option string
         * option string) : string :=
  let '(scheme, netloc, url, _, _, _) := c in
  let url :=
    if String.eqb netloc "" then url
    else String.append "//" (String.append netloc url) in
  if String.eqb scheme "" then url
  else String.append scheme (String.append ":" url).

Definition parent (p : string) : string :=
  match split_last_slash p with
  | Some (EmptyString, _) => "/"
  | Some (a, _) => a
  | None => "."
  end.

Definition truediv (p s : string) : string :=
  if String.eqb p "/" then String.append "/" s
  else String.append p (String.append "/" s).

#[local] Instance url : UrlLib :=
  Build_UrlLib urlparse urlunparse string (fun s => s) parent truediv
    (fun p => p).

(* every request is answered 200 with a document naming its URI; the
   parsed document is stood for by its text *)
#[local] Instance serving : Remote string := {|
  requests_get := fun _ uri =>
    Returns (Response.mk 200 (String.append "<OME>" uri));
  from_xml := fun content _ _ => Returns content
|}.

(* every request is answered 503 *)
#[local] Instance refusing : Remote string := {|
  requests_get := fun _ _ => Returns (Response.mk 503 "unavailable");
  from_xml := fun content _ _ => Returns content
|}.

Definition rep (image_id uri type : string) : BIAImageRepresentation.t :=
  BIAImageRepresentation.mk "S-BIAD1" image_id (UriStr uri) 1024 (Some type)
    None None None.

Definition raw_rep : BIAImageRepresentation.t := rep "IM1" "http://x/a" "raw".
Definition thumbnail_rep : BIAImageRepresentation.t :=
  rep "IM1" "http://x/thumb" "thumbnail".
Definition raw_c : BIAImageRepresentation.t := rep "IM3" "http://x/c" "raw".
Definition ngff_a : BIAImageRepresentation.t :=
  rep "IM2" "https://host/a/image.zarr" "ome_ngff".
Definition ngff_b : BIAImageRepresentation.t :=
  rep "IM2" "https://host/b/image.zarr" "ome_ngff".

Definition image (id : string) (reps : list BIAImageRepresentation.t)
  : BIAImage.t :=
  BIAImage.mk id (Some "S-BIAD1") (Some id) (String.append id ".tif") None
    reps [].

Definition IM1 : BIAImage.t := image "IM1" [raw_rep].
Definition IM2 : BIAImage.t := image "IM2" [ngff_a; raw_rep; ngff_b].
Definition IM3 : BIAImage.t := image "IM3" [raw_c].

Definition study : BIAStudy.t :=
  BIAStudy.mk "S-BIAD1" "A study" "Three images" (Some [Author.mk "A. N."])
    "unknown" "2022-01-01" None [] "" []
    [("IM1", IM1); ("IM2", IM2); ("IM3", IM3)] [] [] [] [].

Definition image_annotation (image_id key value : string)
  : ImageAnnotation.t :=
  ImageAnnotation.mk "S-BIAD1" image_id key value.

Definition study_annotations : list StudyAnnotation.t :=
  [ StudyAnnotation.mk "S-BIAD1" "organism" "mouse";
    StudyAnnotation.mk "S-BIAD1" "curator" "bia";
    StudyAnnotation.mk "S-BIAD1" "organism" "human" ].

Definition IM1_annotations : list ImageAnnotation.t :=
  [ image_annotation "IM1" "dimensions" "4D";
    image_annotation "IM1" "dimensions" "5D" ].

Definition IM2_annotations : list ImageAnnotation.t :=
  [ image_annotation "IM2" "ome_metadata" "pending";
    image_annotation "IM2" "name" "second";
    image_annotation "IM2" "ome_metadata" "see paper" ].

Definition IM3_annotations : list ImageAnnotation.t :=
  [ image_annotation "IM3" "ome_metadata" "not recorded" ].

(** An archive holding the one study [S-BIAD1], given what it answers when
    asked for the study annotations and for the annotations of [IM3]. *)
Definition archive_with
    (about_study : outcome (list StudyAnnotation.t))
    (about_IM3 : outcome (list ImageAnnotation.t)) : Collaborators :=
  {|
    get_study := fun accession_id =>
      if String.eqb accession_id "S-BIAD1" then Returns study
      else Raises (OtherError "KeyError" accession_id);
    get_study_annotations := fun _ => about_study;
    get_image_annotations := fun _ image_id =>
      if String.eqb image_id "IM1" then Returns IM1_annotations
      else if String.eqb image_id "IM2" then Returns IM2_annotations
      else about_IM3;
    get_representations := fun _ image_id =>
      if String.eqb image_id "IM1" then Returns [thumbnail_rep; raw_rep]
      else Returns []
  |}.

Definition archive : Collaborators :=
  archive_with (Returns study_annotations) (Returns IM3_annotations).

(* no study annotations, no annotations of IM3 *)
Definition archive_unannotated : Collaborators :=
  archive_with (Returns []) (Returns []).

Definition archive_without_study_annotations : Collaborators :=
  archive_with (Raises (OtherError "ConnectionError" "study annotations"))
               (Returns IM3_annotations).

Definition archive_without_IM3_annotations : Collaborators :=
  archive_with (Returns study_annotations)
               (Raises (OtherError "ConnectionError" "IM3")).

(* what load_and_annotate_study returns *)
Definition merged_by (collab : Collaborators) : obj string :=
  match load_and_annotate_study (collab := collab) "S-BIAD1" with
  | Returns study' => study'
  | Raises _ => []
  end.

Definition merged : obj string := Eval vm_compute in merged_by archive.
Definition merged_unannotated : obj string :=
  Eval vm_compute in merged_by archive_unannotated.

(* an image of [merged] *)
Definition merged_image (d : obj string) (image_id : string) : obj string :=
  match dict_get d "images" with
  | Some (VImages images') =>
      match dict_get images' image_id with
      | Some image' => image'
      | None => []
      end
  | _ => []
  end.

Definition merged_images (d : obj string) : list (string * obj string) :=
  match dict_get d "images" with
  | Some (VImages images') => images'
  | _ => []
  end.

End Demo.

(** More examples: annotations that collide with what the merge reads, a
    study without images, a representation whose URI is a list, and an
    archive that fetches a representation of type ome_ngff. *)

Module DemoMore.

Definition archive_naming_images : Collaborators :=
  Demo.archive_with
    (Returns [ StudyAnnotation.mk "S-BIAD1" "organism" "mouse";
               StudyAnnotation.mk "S-BIAD1" "images" "none" ])
    (Returns Demo.IM3_annotations).

Definition archive_naming_representations : Collaborators :=
  Demo.archive_with (Returns Demo.study_annotations)
    (Returns [ Demo.image_annotation "IM3" "representations" "lost" ]).

Definition study_without_images : BIAStudy.t :=
  BIAStudy.mk "S-BIAD2" "An empty study" "No image yet" (Some []) "unknown"
    "2022-01-01" None [] "" [] [] [] [] [] [].

(* the image collaborators are out of reach *)
Definition archive_of_empty_study : Collaborators :=
  {|
    get_study := fun _ => Returns study_without_images;
    get_study_annotations := fun _ =>
      Returns [ StudyAnnotation.mk "S-BIAD2" "organism" "yeast" ];
    get_image_annotations := fun _ image_id =>
      Raises (OtherError "ConnectionError" image_id);
    get_representations := fun _ image_id =>
      Raises (OtherError "ConnectionError" image_id)
  |}.

Definition ngff_list : BIAImageRepresentation.t :=
  BIAImageRepresentation.mk "S-BIAD1" "IM4"
    (UriList ["https://host/a/0.zarr"; "https://host/a/1.zarr"]) 2048
    (Some "ome_ngff") None None None.

Definition IM4 : BIAImage.t := Demo.image "IM4" [Demo.raw_rep; ngff_list].

Definition ngff_c : BIAImageRepresentation.t :=
  Demo.rep "IM2" "https://host/c/image.zarr" "ome_ngff".

(* IM2 is annotated with a name only, and a representation of type
   ome_ngff is fetched for it, followed by a thumbnail *)
Definition archive_fetching_ngff : Collaborators :=
  {|
    get_study := fun _ => Returns Demo.study;
    get_study_annotations := fun _ => Returns [];
    get_image_annotations := fun _ image_id =>
      if String.eqb image_id "IM2"
      then Returns [ Demo.image_annotation "IM2" "name" "second" ]
      else Returns [];
    get_representations := fun _ image_id =>
      if String.eqb image_id "IM2" then Returns [ngff_c; Demo.thumbnail_rep]
      else Returns []
  |}.

(* an archive with the study and nothing to add to it *)
Definition archive_bare : Collaborators :=
  {|
    get_study := fun _ => Returns Demo.study;
    get_study_annotations := fun _ => Returns [];
    get_image_annotations := fun _ _ => Returns [];
    get_representations := fun _ _ => Returns []
  |}.

Definition merged_fetching_ngff : obj string :=
  Eval vm_compute in Demo.merged_by archive_fetching_ngff.

Definition merged_empty_study : obj string :=
  Eval vm_compute in
    match load_and_annotate_study (collab := archive_of_empty_study)
            "S-BIAD2" with
    | Returns study' => study'
    | Raises _ => []
    end.

End DemoMore.

(** ** Records for the examples of serialization

    [float.__repr__] and [float] on the floats the examples hold, and
    records with text outside ASCII, floats and free-form attributes. *)

Module DemoJson.

#[local] Instance float_text : FloatText := {|
  float_repr := fun f =>
    if PrimFloat.eqb f 1 then "1.0"
    else if PrimFloat.eqb f 0.5 then "0.5"
    else if PrimFloat.eqb f (-2.5) then "-2.5"
    else "0.0";
  float_of_str := fun s =>
    if String.eqb s "1.0" then 1%float
    else if String.eqb s "0.5" then 0.5%float
    else if String.eqb s "-2.5" then (-2.5)%float
    else 0%float
|}.

(* the word cafe with an acute accent, its last letter at code point 233 *)
Definition cafe : string := String.append "caf" (String "233" "").

(* 5 micrometres, with the micro sign at code point 181 *)
Definition five_micrometres : string :=
  String.append "5 " (String "181" "m").

Definition rendering : RenderingInfo.t :=
  RenderingInfo.mk
    [ ChannelRendering.mk [0%float; 0.5%float] [1%float; infinity] 1%float;
      ChannelRendering.mk [] [(-2.5)%float; neg_infinity] 0.5%float ]
    (Some 3%Z) None.

Definition rendered_rep : BIAImageRepresentation.t :=
  BIAImageRepresentation.mk "S-BIAD1" "IM1"
    (UriList ["http://x/a"; "http://x/b"]) 2048 (Some "ome_ngff") None
    (Some [(PStr "pixel size", PStr five_micrometres)]) (Some rendering).

Definition image : BIAImage.t :=
  BIAImage.mk "IM1" (Some "S-BIAD1") None "dir/IM1.tif" (Some "3D")
    [rendered_rep; Demo.raw_rep]
    [ (PStr "channels",
       PList [PInt 2; PBool true; PNone; PFloat 0.5%float;
              PDict [(PStr cafe, PList [])]]);
      (PStr "line", PStr (String "010" "")) ].

Definition file : BIAFile.t :=
  BIAFile.mk "F1" "dir/notes.txt" (-1) []
    [BIAFileRepresentation.mk "S-BIAD1" "F1" (UriStr "http://x/notes") 12].

Definition study : BIAStudy.t :=
  BIAStudy.mk "S-BIAD1" cafe "One image" (Some [Author.mk cafe])
    "unknown" "2022-01-01" None [(PStr "note", PStr five_micrometres)] ""
    [("R1", FileReference.mk "R1" "ref" "http://x/r" (Some 7%Z) [])]
    [("IM1", image)] [("F1", file)] []
    [("first", BIAImageAlias.mk "first" "S-BIAD1" "IM1")]
    ["public"; cafe].

(* a file reference whose free-form attributes have an int for a key *)
Definition numbered : FileReference.t :=
  FileReference.mk "R2" "ref" "http://x/r" None [(PInt 1, PStr "x")].

(* what is read back from the text of [numbered] *)
Definition numbered_back : FileReference.t :=
  FileReference.mk "R2" "ref" "http://x/r" None [(PStr "1", PStr "x")].

(* a channel rendering whose scale factor is a NaN *)
Definition unsettled : ChannelRendering.t := ChannelRendering.mk [] [] nan.

End DemoJson.

(** * Properties *)

(** ** Dictionaries *)

Section DictFacts.
Context {V : Type}.
Implicit Types (d e : dict V) (k : string) (v : V).

Lemma dict_get_set_eq d k v : dict_get (dict_set d k v) k = Some v.
Proof.
  induction d as [|[k0 v0] d IH]; simpl.
  - now rewrite String.eqb_refl.
  - destruct (String.eqb k0 k) eqn:E; simpl; rewrite E; auto.
Qed.

Lemma dict_get_set_neq d k k' v :
  k <> k' -> dict_get (dict_set d k v) k' = dict_get d k'.
Proof.
  intros Hne. induction d as [|[k0 v0] d IH]; simpl.
  - apply String.eqb_neq in Hne. now rewrite Hne.
  - destruct (String.eqb k0 k) eqn:E; simpl.
    + apply String.eqb_eq in E. subst k0.
      apply String.eqb_neq in Hne. now rewrite Hne.
    + now rewrite IH.
Qed.

Lemma dict_keys_set d k v :
  dict_keys (dict_set d k v)
  = if in_dec string_dec k (dict_keys d) then dict_keys d
    else dict_keys d ++ [k].
Proof.
  induction d as [|[k0 v0] d IH]; simpl; [reflexivity|].
  destruct (String.eqb k0 k) eqn:E.
  - apply String.eqb_eq in E. subst k0. simpl.
    destruct (string_dec k k); [reflexivity | congruence].
  - apply String.eqb_neq in E. simpl. rewrite IH.
    destruct (string_dec k0 k); [congruence|].
    destruct (in_dec string_dec k (dict_keys d)); reflexivity.
Qed.

Lemma dict_set_keeps_key d k k' v :
  In k (dict_keys d) -> In k (dict_keys (dict_set d k' v)).
Proof.
  intros Hin. rewrite dict_keys_set.
  destruct (in_dec string_dec k' (dict_keys d)); auto.
  apply in_or_app. now left.
Qed.

Lemma dict_set_has_key d k v : In k (dict_keys (dict_set d k v)).
Proof.
  rewrite dict_keys_set.
  destruct (in_dec string_dec k (dict_keys d)); auto.
  apply in_or_app. right. now left.
Qed.

Lemma dict_set_NoDup d k v :
  NoDup (dict_keys d) -> NoDup (dict_keys (dict_set d k v)).
Proof.
  intros Hnd. rewrite dict_keys_set.
  destruct (in_dec string_dec k (dict_keys d)) as [|Hnot]; auto.
  apply NoDup_app; auto.
  - repeat constructor. simpl. tauto.
  - intros x Hx [->|[]]. contradiction.
Qed.

(* assigning twice to one key *)
Lemma dict_set_set d k v v' :
  dict_set (dict_set d k v) k v' = dict_set d k v'.
Proof.
  induction d as [|[k0 v0] d IH]; simpl.
  - now rewrite String.eqb_refl.
  - destruct (String.eqb k0 k) eqn:E; simpl; rewrite E; congruence.
Qed.

(* an assignment to a key that is present keeps every key where it is, so
   it commutes with an assignment to another key *)
Lemma dict_set_comm d k k' v v' :
  k <> k' -> In k (dict_keys d) ->
  dict_set (dict_set d k' v') k v = dict_set (dict_set d k v) k' v'.
Proof.
  intros Hne. induction d as [|[k0 v0] d IH]; simpl; [tauto|].
  intros Hin.
  destruct (String.eqb k0 k') eqn:E'; destruct (String.eqb k0 k) eqn:E;
    simpl; rewrite ?E, ?E'; try reflexivity.
  - apply String.eqb_eq in E, E'. congruence.
  - f_equal. apply IH. destruct Hin as [H|H]; auto.
    apply String.eqb_neq in E. congruence.
Qed.

End DictFacts.

(** The namespace of a validated instance holds its declared fields, each
    once and in declaration order. *)
Lemma BIAStudy_dict_keys {OME : Type} (s : BIAStudy.t) :
  dict_keys (BIAStudy_dict (OME := OME) s) = BIAStudy_fields.
Proof. reflexivity. Qed.

Lemma BIAImage_dict_keys {OME : Type} (i : BIAImage.t) :
  dict_keys (BIAImage_dict (OME := OME) i) = BIAImage_fields.
Proof. reflexivity. Qed.

(** ** Sequences of assignments

    Both annotation loops assign [d[key a] = val a] for each annotation [a]
    in list order; the study-level one does so into an empty dictionary
    first and merges the result with [dict.update]. *)

Section Assignments.
Context {A V : Type} (key : A -> string) (val : A -> V).
Implicit Types (d e : dict V) (l : list A).
Local Abbreviation assign_each := (assign_each key val).

Lemma assign_each_cons a l d :
  assign_each (a :: l) d = assign_each l (dict_set d (key a) (val a)).
Proof. reflexivity. Qed.

Lemma assign_each_app l l' d :
  assign_each (l ++ l') d = assign_each l' (assign_each l d).
Proof. apply fold_left_app. Qed.

Lemma assign_each_snoc l a d :
  assign_each (l ++ [a]) d = dict_set (assign_each l d) (key a) (val a).
Proof. now rewrite assign_each_app. Qed.

Lemma assign_each_other l d k :
  (forall a, In a l -> key a <> k) ->
  dict_get (assign_each l d) k = dict_get d k.
Proof.
  revert d. induction l as [|a l IH]; intros d Hl; [reflexivity|].
  rewrite assign_each_cons, IH.
  - apply dict_get_set_neq. apply Hl. now left.
  - intros b Hb. apply Hl. now right.
Qed.

Lemma assign_each_last pre a post d :
  (forall b, In b post -> key b <> key a) ->
  dict_get (assign_each (pre ++ a :: post) d) (key a) = Some (val a).
Proof.
  intros Hpost.
  rewrite assign_each_app, assign_each_cons, assign_each_other
    by assumption.
  apply dict_get_set_eq.
Qed.

(* a key holds what it held, or what an annotation wrote *)
Lemma assign_each_cases l d k :
  dict_get (assign_each l d) k = dict_get d k
  \/ exists a, In a l /\ key a = k
               /\ dict_get (assign_each l d) k = Some (val a).
Proof.
  induction l as [|a l IH] using rev_ind; [now left|].
  rewrite assign_each_snoc.
  destruct (string_dec (key a) k) as [<-|Hne].
  - right. exists a. rewrite dict_get_set_eq. split; [|split]; auto.
    apply in_or_app. right. now left.
  - rewrite dict_get_set_neq by assumption.
    destruct IH as [IH|[b [Hb [Hk IH]]]]; [now left|].
    right. exists b. split; [|split]; auto. apply in_or_app. now left.
Qed.

(* a key an annotation names holds what an annotation wrote *)
Lemma assign_each_written l d a :
  In a l ->
  exists b, In b l /\ key b = key a
            /\ dict_get (assign_each l d) (key a) = Some (val b).
Proof.
  induction l as [|c l IH] using rev_ind; [contradiction|].
  intros Ha. rewrite assign_each_snoc.
  destruct (string_dec (key c) (key a)) as [E|Hne].
  - exists c. rewrite <- E, dict_get_set_eq. split; [|split]; auto.
    apply in_or_app. right. now left.
  - rewrite dict_get_set_neq by assumption.
    apply in_app_or in Ha. destruct Ha as [Ha|[->|[]]]; [|congruence].
    destruct (IH Ha) as [b [Hb [Hk E]]].
    exists b. split; [|split]; auto. apply in_or_app. now left.
Qed.

Lemma assign_each_NoDup l d :
  NoDup (dict_keys d) -> NoDup (dict_keys (assign_each l d)).
Proof.
  revert d. induction l as [|a l IH]; intros d Hd; [assumption|].
  rewrite assign_each_cons. apply IH. now apply dict_set_NoDup.
Qed.

Lemma assign_each_keeps_key l d k :
  In k (dict_keys d) -> In k (dict_keys (assign_each l d)).
Proof.
  revert d. induction l as [|a l IH]; intros d Hd; [assumption|].
  rewrite assign_each_cons. apply IH. now apply dict_set_keeps_key.
Qed.

End Assignments.

Section Update.
Context {V : Type}.
Implicit Types (d e : dict V) (k : string) (v : V).

Lemma dict_update_cons d k v e :
  dict_update d ((k, v) :: e) = dict_update (dict_set d k v) e.
Proof. reflexivity. Qed.

(* a later assignment to a key of the receiver can be made first *)
Lemma dict_update_set_present e d k v :
  ~ In k (dict_keys e) -> In k (dict_keys d) ->
  dict_set (dict_update d e) k v = dict_update (dict_set d k v) e.
Proof.
  revert d. induction e as [|[k1 v1] e IH]; intros d Hnot Hin;
    [reflexivity|].
  rewrite !dict_update_cons. simpl in Hnot.
  rewrite IH.
  - f_equal. apply dict_set_comm; [|assumption].
    intros ->. apply Hnot. now left.
  - tauto.
  - now apply dict_set_keeps_key.
Qed.

(* dict.update with an argument that received one more assignment *)
Lemma dict_update_set e d k v :
  NoDup (dict_keys e) ->
  dict_update d (dict_set e k v) = dict_set (dict_update d e) k v.
Proof.
  revert d. induction e as [|[k1 v1] e IH]; intros d Hnd; [reflexivity|].
  simpl in Hnd. inversion Hnd as [|? ? Hnot Hnd']; subst.
  simpl dict_set. destruct (String.eqb k1 k) eqn:E.
  - apply String.eqb_eq in E. subst k1.
    rewrite !dict_update_cons.
    rewrite dict_update_set_present;
      [ now rewrite dict_set_set | assumption | apply dict_set_has_key ].
  - rewrite !dict_update_cons. now apply IH.
Qed.

End Update.

(** Aggregating first and merging afterwards assigns the same values to
    the same keys, in the same places, as assigning one by one. *)
Lemma dict_update_assign_each {A V : Type}
    (key : A -> string) (val : A -> V) (l : list A) (d : dict V) :
  dict_update d (assign_each key val l []) = assign_each key val l d.
Proof.
  induction l as [|a l IH] using rev_ind; [reflexivity|].
  rewrite !assign_each_snoc, dict_update_set.
  - now rewrite IH.
  - apply assign_each_NoDup. constructor.
Qed.

Lemma assign_each_map {A B V : Type} (f : B -> A)
    (key : A -> string) (val : A -> V) (l : list B) (d : dict V) :
  assign_each key val (map f l) d
  = assign_each (fun b => key (f b)) (fun b => val (f b)) l d.
Proof.
  revert d. induction l as [|b l IH]; intros d; [reflexivity|].
  simpl map. rewrite !assign_each_cons. apply IH.
Qed.

Lemma dict_get_map {X Y : Type} (f : X -> Y) (d : dict X) (k : string) :
  dict_get (map (fun e => (fst e, f (snd e))) d) k
  = option_map f (dict_get d k).
Proof.
  induction d as [|[k0 x] d IH]; simpl; [reflexivity|].
  destruct (String.eqb k0 k); auto.
Qed.

(** ** Loops that may raise *)

Section ForEach.
Context {X Y : Type} (body : string * X -> outcome (string * Y)).
Hypothesis body_keeps_key :
  forall x y, body x = Returns y -> fst y = fst x.

(* a loop over the items of a dictionary that went through: every entry
   was handled, under its own key *)
Lemma for_each_lookup (l : dict X) (l' : dict Y) (k : string) :
  for_each body l = Returns l' ->
  match dict_get l k with
  | Some x => exists y, body (k, x) = Returns (k, y) /\ dict_get l' k = Some y
  | None => dict_get l' k = None
  end.
Proof.
  revert l'. induction l as [|[k0 x] l IH]; intros l' Hl; simpl in Hl.
  - inversion Hl. reflexivity.
  - destruct (body (k0, x)) as [[k1 y]|] eqn:Hb; simpl in Hl;
      [|discriminate].
    destruct (for_each body l) as [ys|] eqn:Hys; simpl in Hl;
      [|discriminate].
    inversion Hl; subst l'; clear Hl.
    pose proof (body_keeps_key _ _ Hb) as Hk. simpl in Hk. subst k1.
    specialize (IH ys eq_refl). simpl.
    destruct (String.eqb k0 k) eqn:E; [|exact IH].
    apply String.eqb_eq in E. subst k0. eauto.
Qed.

(* the first iteration that raises ends the loop with what it raised *)
Lemma for_each_raises (done : list (string * X)) (x : string * X)
    (rest : list (string * X)) (ys : list (string * Y)) (e : exn) :
  for_each body done = Returns ys ->
  body x = Raises e ->
  for_each body (done ++ x :: rest) = Raises e.
Proof.
  revert ys. induction done as [|x0 done IH]; intros ys Hd Hx; simpl.
  - now rewrite Hx.
  - simpl in Hd. destruct (body x0) as [y0|]; simpl in *; [|discriminate].
    destruct (for_each body done) as [ys0|]; simpl in *; [|discriminate].
    now rewrite (IH ys0 eq_refl Hx).
Qed.

End ForEach.

(** ** The merge *)

Section IntegratorFacts.
Context {OME : Type} {collab : Collaborators}.
Implicit Types (study image : obj OME).
Local Abbreviation study_value := (@study_value OME).
Local Abbreviation image_value := (@image_value OME).
Local Abbreviation BIAStudy_dict := (@BIAStudy_dict OME).
Local Abbreviation BIAImage_dict := (@BIAImage_dict OME).
Local Abbreviation merge_image := (@merge_image OME collab).
Local Abbreviation load_and_annotate_study :=
  (@load_and_annotate_study OME collab).

Lemma annotate_study_each study anns :
  annotate_study study anns
  = assign_each StudyAnnotation.key study_value anns study.
Proof. apply dict_update_assign_each. Qed.

Lemma annotate_image_each image anns :
  annotate_image image anns
  = assign_each ImageAnnotation.key image_value anns image.
Proof. reflexivity. Qed.

(* an assignment that goes through writes the namespace and nothing else *)
Lemma BaseModel_setattr_inv fields (self self' : obj OME) name value :
  BaseModel_setattr fields self name value = Returns self' ->
  self' = dict_set self name value.
Proof.
  unfold BaseModel_setattr.
  destruct (dict_get self "__private_attributes__") as [[]|]; simpl bind;
    try discriminate.
  - destruct (is_substring name s); [intros H; now inversion H|].
    destruct (dict_get self "__config__"); [discriminate|].
    destruct (dict_get self "__fields__") as [[]|]; try discriminate.
    + destruct (is_substring name s0); discriminate.
    + destruct (in_dec string_dec name fields); [|discriminate].
      intros H. now inversion H.
  - destruct (dict_get self "__config__"); [discriminate|].
    destruct (dict_get self "__fields__") as [[]|]; try discriminate.
    + destruct (is_substring name s); discriminate.
    + destruct (in_dec string_dec name fields); [|discriminate].
      intros H. now inversion H.
Qed.

(* with no class attribute shadowed, a declared field is assigned *)
Lemma BaseModel_setattr_plain fields (self : obj OME) name value :
  dict_get self "__private_attributes__" = None ->
  dict_get self "__config__" = None ->
  dict_get self "__fields__" = None ->
  In name fields ->
  BaseModel_setattr fields self name value
  = Returns (dict_set self name value).
Proof.
  intros Hp Hc Hf Hin. unfold BaseModel_setattr. rewrite Hp, Hc, Hf.
  simpl bind. cbv iota.
  destruct (in_dec string_dec name fields); [reflexivity|contradiction].
Qed.

Lemma merge_image_keeps_key accession_id (x y : string * obj OME) :
  merge_image accession_id x = Returns y -> fst y = fst x.
Proof.
  destruct x as [image_id image]. unfold merge_image.
  destruct (get_image_annotations accession_id image_id); simpl;
    [|discriminate].
  destruct (get_representations accession_id image_id); simpl;
    [|discriminate].
  destruct (getattr _ _ _) as [v|]; simpl; [|discriminate].
  destruct (iadd v _); simpl; [|discriminate].
  destruct (BaseModel_setattr _ _ _ _); simpl; [|discriminate].
  intros H. inversion H. reflexivity.
Qed.

Lemma iadd_inv (v v' : attr_value OME) fetched :
  iadd v fetched = Returns v' ->
  exists before, v = VReps before /\ v' = VReps (before ++ fetched).
Proof.
  destruct v; simpl; try discriminate.
  intros H. inversion H. eauto.
Qed.

Lemma merge_image_inv accession_id image_id image entry :
  merge_image accession_id (image_id, image) = Returns entry ->
  exists anns fetched before,
    get_image_annotations accession_id image_id = Returns anns
    /\ get_representations accession_id image_id = Returns fetched
    /\ dict_get (annotate_image image anns) "representations"
       = Some (VReps before)
    /\ entry = (image_id,
                dict_set (annotate_image image anns) "representations"
                  (VReps (before ++ fetched))).
Proof.
  unfold merge_image.
  destruct (get_image_annotations accession_id image_id) as [anns|];
    simpl; [|discriminate].
  destruct (get_representations accession_id image_id) as [fetched|];
    simpl; [|discriminate].
  unfold getattr.
  destruct (dict_get (annotate_image image anns) "representations")
    as [v|] eqn:Hv; simpl; [|discriminate].
  destruct (iadd v fetched) as [v'|] eqn:Hadd; simpl; [|discriminate].
  apply iadd_inv in Hadd. destruct Hadd as [before [-> ->]].
  destruct (BaseModel_setattr _ _ _ _) as [image'|] eqn:Hset; simpl;
    [|discriminate].
  apply BaseModel_setattr_inv in Hset. subst image'.
  intros H. inversion H. exists anns, fetched, before. auto.
Qed.

(* an annotation never leaves a list under [representations] *)
Lemma annotated_representations image anns before :
  dict_get (annotate_image image anns) "representations"
  = Some (VReps before) ->
  dict_get image "representations" = Some (VReps before)
  /\ forall a, In a anns -> ImageAnnotation.key a <> "representations".
Proof.
  rewrite annotate_image_each. intros H. split.
  - destruct (assign_each_cases ImageAnnotation.key image_value anns image
                "representations") as [E|[a [_ [_ E]]]].
    + now rewrite <- E.
    + rewrite E in H. discriminate.
  - intros a Ha Hk.
    destruct (assign_each_written ImageAnnotation.key image_value anns
                image a Ha) as [b [_ [_ E]]].
    rewrite Hk, H in E. discriminate.
Qed.

(* what stands under [representations] once the image annotations are
   applied *)
Lemma representations_after_annotations (i : BIAImage.t) anns :
  let image : obj OME := annotate_image (BIAImage_dict i) anns in
  dict_get image "representations"
  = Some (VReps (BIAImage.representations i))
  \/ exists a, In a anns /\ ImageAnnotation.key a = "representations"
               /\ dict_get image "representations"
                  = Some (VStr (ImageAnnotation.value a)).
Proof.
  intros image. subst image. rewrite annotate_image_each.
  destruct (assign_each_cases ImageAnnotation.key image_value anns
              (BIAImage_dict i) "representations") as [E|[a [Ha [Hk E]]]].
  - left. rewrite E. reflexivity.
  - right. exists a. auto.
Qed.

(* what stands under [images] once the study annotations are applied *)
Lemma images_after_update (s : BIAStudy.t) anns :
  let study : obj OME := annotate_study (BIAStudy_dict s) anns in
  dict_get study "images"
  = Some (VImages (map (fun e => (fst e, BIAImage_dict (snd e)))
                       (BIAStudy.images s)))
  \/ exists a, In a anns /\ StudyAnnotation.key a = "images"
               /\ dict_get study "images"
                  = Some (VStr (StudyAnnotation.value a)).
Proof.
  intros study. subst study. rewrite annotate_study_each.
  destruct (assign_each_cases StudyAnnotation.key study_value anns
              (BIAStudy_dict s) "images") as [E|[a [Ha [Hk E]]]].
  - left. rewrite E. reflexivity.
  - right. exists a. auto.
Qed.

Lemma load_inv accession_id study' :
  load_and_annotate_study accession_id = Returns study' ->
  exists (s : BIAStudy.t) anns images',
    get_study accession_id = Returns s
    /\ get_study_annotations accession_id = Returns anns
    /\ dict_get (annotate_study (BIAStudy_dict s) anns) "images"
       = Some (VImages (map (fun e => (fst e, BIAImage_dict (snd e)))
                            (BIAStudy.images s)))
    /\ for_each (merge_image accession_id)
         (map (fun e => (fst e, BIAImage_dict (snd e))) (BIAStudy.images s))
       = Returns images'
    /\ study' = dict_set (annotate_study (BIAStudy_dict s) anns) "images"
                  (VImages images').
Proof.
  unfold load_and_annotate_study.
  destruct (get_study accession_id) as [s|]; simpl; [|discriminate].
  destruct (get_study_annotations accession_id) as [anns|]; simpl;
    [|discriminate].
  unfold getattr.
  destruct (images_after_update s anns) as [E|[a [_ [_ E]]]];
    rewrite E; simpl; [|discriminate].
  destruct (for_each _ _) as [images'|] eqn:Hloop; simpl; [|discriminate].
  intros H. inversion H.
  exists s, anns, images'. auto.
Qed.

(* the attributes of the returned study, [images] apart, are those the
   study annotations left; no annotation was named [images] *)
Lemma load_study accession_id study' (s : BIAStudy.t) anns :
  load_and_annotate_study accession_id = Returns study' ->
  get_study accession_id = Returns s ->
  get_study_annotations accession_id = Returns anns ->
  (forall a, In a anns -> StudyAnnotation.key a <> "images")
  /\ forall k, k <> "images" ->
       dict_get study' k
       = dict_get (annotate_study (BIAStudy_dict s) anns) k.
Proof.
  intros Hload Hs Hanns.
  destruct (load_inv _ _ Hload) as [s0 [anns0 [images' [Hs0 [Ha0 [Himg [_ ->]]]]]]].
  rewrite Hs in Hs0. inversion Hs0; subst s0.
  rewrite Hanns in Ha0. inversion Ha0; subst anns0.
  split.
  - intros a Ha Hk. rewrite annotate_study_each in Himg.
    destruct (assign_each_written StudyAnnotation.key study_value anns
                (BIAStudy_dict s) a Ha) as [b [_ [_ E]]].
    rewrite Hk, Himg in E. discriminate.
  - intros k Hk. apply dict_get_set_neq. congruence.
Qed.

(* every image of the study is in the returned study, annotated and with
   the fetched representations appended *)
Lemma load_image accession_id study' (s : BIAStudy.t) image_id
    (image : BIAImage.t) :
  load_and_annotate_study accession_id = Returns study' ->
  get_study accession_id = Returns s ->
  dict_get (BIAStudy.images s) image_id = Some image ->
  exists images' anns fetched,
    dict_get study' "images" = Some (VImages images')
    /\ get_image_annotations accession_id image_id = Returns anns
    /\ get_representations accession_id image_id = Returns fetched
    /\ (forall a, In a anns -> ImageAnnotation.key a <> "representations")
    /\ dict_get images' image_id
       = Some (dict_set (annotate_image (BIAImage_dict image) anns)
                 "representations"
                 (VReps (BIAImage.representations image ++ fetched))).
Proof.
  intros Hload Hs Himage.
  destruct (load_inv _ _ Hload) as [s0 [anns0 [images' [Hs0 [_ [_ [Hloop ->]]]]]]].
  rewrite Hs in Hs0. inversion Hs0; subst s0.
  pose proof (for_each_lookup (merge_image accession_id)
                (merge_image_keeps_key accession_id) _ _ image_id Hloop)
    as Hl.
  rewrite dict_get_map, Himage in Hl. simpl in Hl.
  destruct Hl as [image' [Hm Hg]].
  destruct (merge_image_inv _ _ _ _ Hm)
    as [anns [fetched [before [Ha [Hf [Hb E]]]]]].
  inversion E; subst image'.
  destruct (annotated_representations _ _ _ Hb) as [Hb0 Hkeys].
  simpl in Hb0. inversion Hb0; subst before.
  exists images', anns, fetched.
  rewrite dict_get_set_eq. auto.
Qed.

(** C1: whenever load_and_annotate_study returns, an attribute named by a
    study annotation holds the value of the last study annotation with that
    key in the list the collaborator returned, and on every image of the
    study an attribute named by one of its image annotations holds the value
    of the last image annotation with that key: later entries with a
    duplicate key overwrite earlier ones. *)
Theorem last_annotation_wins accession_id study' :
  load_and_annotate_study accession_id = Returns study' ->
  (forall anns pre a post,
      get_study_annotations accession_id = Returns anns ->
      anns = pre ++ a :: post ->
      (forall b, In b post ->
                 StudyAnnotation.key b <> StudyAnnotation.key a) ->
      dict_get study' (StudyAnnotation.key a)
      = Some (VStr (StudyAnnotation.value a)))
  /\ (forall (s : BIAStudy.t) image_id (image : BIAImage.t),
      get_study accession_id = Returns s ->
      dict_get (BIAStudy.images s) image_id = Some image ->
      exists images' image',
        dict_get study' "images" = Some (VImages images')
        /\ dict_get images' image_id = Some image'
        /\ forall anns pre a post,
             get_image_annotations accession_id image_id = Returns anns ->
             anns = pre ++ a :: post ->
             (forall b, In b post ->
                        ImageAnnotation.key b <> ImageAnnotation.key a) ->
             dict_get image' (ImageAnnotation.key a)
             = Some (VStr (ImageAnnotation.value a))).
Proof.
  intros Hload. split.
  - intros anns pre a post Hanns -> Hpost.
    destruct (load_inv _ _ Hload) as [s [anns0 [? [Hs [Ha0 _]]]]].
    rewrite Hanns in Ha0. inversion Ha0; subst anns0.
    destruct (load_study _ _ _ _ Hload Hs Hanns) as [Hkeys Hframe].
    rewrite Hframe.
    + rewrite annotate_study_each.
      apply (assign_each_last StudyAnnotation.key study_value).
      exact Hpost.
    + apply Hkeys. apply in_or_app. right. now left.
  - intros s image_id image Hs Himage.
    destruct (load_image _ _ _ _ _ Hload Hs Himage)
      as [images' [anns0 [fetched [Hi [Ha0 [_ [Hkeys Hg]]]]]]].
    eexists images', _. split; [exact Hi|]. split; [exact Hg|].
    intros anns pre a post Hanns -> Hpost.
    rewrite Hanns in Ha0. inversion Ha0; subst anns0.
    rewrite dict_get_set_neq.
    + rewrite annotate_image_each.
      apply (assign_each_last ImageAnnotation.key image_value).
      exact Hpost.
    + intros E. symmetry in E. revert E. apply Hkeys.
      apply in_or_app. right. now left.
Qed.

(** C2: whenever load_and_annotate_study returns, every image of the study
    holds its former representations followed by the fetched ones, as they
    came: the list is as long as both together, it starts with the former
    list and the rest is the fetched list, nothing left out and nothing
    merged. *)
Theorem representations_are_appended accession_id study' (s : BIAStudy.t)
    image_id (image : BIAImage.t) fetched :
  load_and_annotate_study accession_id = Returns study' ->
  get_study accession_id = Returns s ->
  dict_get (BIAStudy.images s) image_id = Some image ->
  get_representations accession_id image_id = Returns fetched ->
  let before := BIAImage.representations image in
  exists images' image' after,
    dict_get study' "images" = Some (VImages images')
    /\ dict_get images' image_id = Some image'
    /\ dict_get image' "representations" = Some (VReps after)
    /\ after = before ++ fetched
    /\ length after = length before + length fetched
    /\ firstn (length before) after = before
    /\ skipn (length before) after = fetched.
Proof.
  intros Hload Hs Himage Hfetched before.
  destruct (load_image _ _ _ _ _ Hload Hs Himage)
    as [images' [anns [fetched0 [Hi [_ [Hf [_ Hg]]]]]]].
  rewrite Hfetched in Hf. inversion Hf; subst fetched0.
  eexists images', _, (before ++ fetched).
  split; [exact Hi|]. split; [exact Hg|].
  rewrite dict_get_set_eq. split; [reflexivity|]. split; [reflexivity|].
  split; [apply length_app|]. split.
  - rewrite firstn_app, Nat.sub_diag, firstn_all. simpl.
    now rewrite app_nil_r.
  - rewrite skipn_app, Nat.sub_diag, skipn_all. reflexivity.
Qed.

Lemma merge_image_raises accession_id image_id image e :
  get_image_annotations accession_id image_id = Raises e
  \/ (exists anns,
        get_image_annotations accession_id image_id = Returns anns
        /\ get_representations accession_id image_id = Raises e) ->
  merge_image accession_id (image_id, image) = Raises e.
Proof.
  unfold merge_image. intros [H|[anns [H H']]]; rewrite H; simpl;
    [reflexivity|].
  now rewrite H'.
Qed.

(** C3: load_and_annotate_study handles no error.  What get_study raises,
    it raises; what get_study_annotations raises, it raises; and when the
    loop over the images is reached (no study annotation is named images),
    the images before some image of the study went through and
    get_image_annotations or get_representations raises for that image, it
    raises just that.  Its outcome is then the exception alone: no study,
    merged in part or otherwise, is returned. *)
Theorem collaborator_errors_propagate accession_id e :
  (get_study accession_id = Raises e ->
   load_and_annotate_study accession_id = Raises e)
  /\ (forall s : BIAStudy.t,
        get_study accession_id = Returns s ->
        get_study_annotations accession_id = Raises e ->
        load_and_annotate_study accession_id = Raises e)
  /\ (forall (s : BIAStudy.t) anns done image_id (image : BIAImage.t) rest
             merged,
        get_study accession_id = Returns s ->
        get_study_annotations accession_id = Returns anns ->
        (forall a, In a anns -> StudyAnnotation.key a <> "images") ->
        BIAStudy.images s = done ++ (image_id, image) :: rest ->
        for_each (merge_image accession_id)
          (map (fun e => (fst e, BIAImage_dict (snd e))) done)
        = Returns merged ->
        get_image_annotations accession_id image_id = Raises e
        \/ (exists image_annotations,
              get_image_annotations accession_id image_id
              = Returns image_annotations
              /\ get_representations accession_id image_id = Raises e) ->
        load_and_annotate_study accession_id = Raises e).
Proof.
  unfold load_and_annotate_study. split; [|split].
  - intros ->. reflexivity.
  - intros s -> ->. reflexivity.
  - intros s anns done image_id image rest merged -> -> Hkeys Himages Hdone
      Hraise.
    simpl. unfold getattr.
    destruct (images_after_update s anns) as [E|[a [Ha [Hk _]]]];
      [|now apply Hkeys in Ha].
    rewrite E. simpl. rewrite Himages, map_app. simpl.
    rewrite (for_each_raises _ _ _ _ _ e Hdone); [reflexivity|].
    now apply merge_image_raises.
Qed.

(** C7: applying an empty list of annotations changes nothing.  The study
    annotation step and the image annotation step return the record as it
    was; so when the collaborator returns no study annotations every
    attribute of the returned study other than [images] is as get_study gave
    it, and when it returns no annotations for an image every attribute of
    that image other than [representations] is as get_study gave it. *)
Theorem empty_annotations_change_nothing :
  (forall study, annotate_study study [] = study)
  /\ (forall image, annotate_image image [] = image)
  /\ (forall accession_id (s : BIAStudy.t) study' field,
        get_study accession_id = Returns s ->
        get_study_annotations accession_id = Returns [] ->
        load_and_annotate_study accession_id = Returns study' ->
        field <> "images" ->
        dict_get study' field = dict_get (BIAStudy_dict s) field)
  /\ (forall accession_id (s : BIAStudy.t) study' image_id
             (image : BIAImage.t),
        get_study accession_id = Returns s ->
        load_and_annotate_study accession_id = Returns study' ->
        dict_get (BIAStudy.images s) image_id = Some image ->
        get_image_annotations accession_id image_id = Returns [] ->
        exists images' image',
          dict_get study' "images" = Some (VImages images')
          /\ dict_get images' image_id = Some image'
          /\ forall field,
               field <> "representations" ->
               dict_get image' field = dict_get (BIAImage_dict image) field).
Proof.
  split; [reflexivity|]. split; [reflexivity|]. split.
  - intros accession_id s study' field Hs Hanns Hload Hfield.
    destruct (load_study _ _ _ _ Hload Hs Hanns) as [_ Hframe].
    now rewrite Hframe.
  - intros accession_id s study' image_id image Hs Hload Himage Hanns.
    destruct (load_image _ _ _ _ _ Hload Hs Himage)
      as [images' [anns [fetched [Hi [Ha [_ [_ Hg]]]]]]].
    rewrite Hanns in Ha. inversion Ha; subst anns.
    eexists images', _. split; [exact Hi|]. split; [exact Hg|].
    intros field Hfield. apply dict_get_set_neq. congruence.
Qed.

End IntegratorFacts.

(** C9: the two ways load_and_annotate_study applies annotations agree.
    Collecting the pairs into a dictionary and merging it with one update,
    as for the study, and assigning the pairs one at a time, as for an
    image, leave the same namespace behind on the same record, entry for
    entry and in the same order, whenever the two lists carry the same keys
    and values in the same order. *)
Theorem annotation_strategies_agree {OME : Type} (target : obj OME)
    (study_annotations : list StudyAnnotation.t)
    (image_annotations : list ImageAnnotation.t) :
  map (fun a => (StudyAnnotation.key a, StudyAnnotation.value a))
      study_annotations
  = map (fun a => (ImageAnnotation.key a, ImageAnnotation.value a))
        image_annotations ->
  annotate_study target study_annotations
  = annotate_image target image_annotations.
Proof.
  intros Hsame.
  rewrite annotate_study_each, annotate_image_each.
  change (assign_each StudyAnnotation.key study_value study_annotations
            target)
    with (assign_each (fun a => fst (StudyAnnotation.key a,
                                     StudyAnnotation.value a))
            (fun a => VStr (snd (StudyAnnotation.key a,
                                 StudyAnnotation.value a)))
            study_annotations target).
  rewrite <- (assign_each_map
                (fun a => (StudyAnnotation.key a, StudyAnnotation.value a))
                fst (fun kv => VStr (snd kv))).
  rewrite Hsame, assign_each_map. reflexivity.
Qed.

(** ** The ome_metadata property *)

Section OmeMetadataFacts.
Context {OME : Type} {url : UrlLib} {remote : Remote OME}.
Implicit Types (self : obj OME) (net : list string).

(* a value other than None under [ome_metadata] is returned as it is *)
Lemma ome_metadata_hit self net v :
  dict_get self "ome_metadata" = Some v -> is_None v = false ->
  ome_metadata self net = (Returns v, self, net).
Proof.
  intros Hv Hnone. unfold ome_metadata.
  now rewrite Hv, Hnone.
Qed.

(* an access that changes nothing can be repeated at will *)
Lemma ome_metadata_times_fixed self net r n :
  ome_metadata self net = (r, self, net) ->
  ome_metadata_times n self net = (repeat r n, self, net).
Proof.
  intros H. induction n as [|n IH]; [reflexivity|].
  simpl. rewrite H, IH. reflexivity.
Qed.

Lemma is_ome_ngff_type (rep : BIAImageRepresentation.t) :
  is_ome_ngff rep = true
  <-> BIAImageRepresentation.type rep = Some "ome_ngff".
Proof.
  unfold is_ome_ngff. destruct (BIAImageRepresentation.type rep) as [t|].
  - rewrite String.eqb_eq. split; congruence.
  - split; discriminate.
Qed.

Lemma filter_no_ngff (reps : list BIAImageRepresentation.t) :
  (forall r, In r reps -> BIAImageRepresentation.type r <> Some "ome_ngff") ->
  filter is_ome_ngff reps = [].
Proof.
  intros H. induction reps as [|r reps IH]; [reflexivity|]. simpl.
  destruct (is_ome_ngff r) eqn:E.
  - apply is_ome_ngff_type in E. exfalso. apply (H r); auto. now left.
  - apply IH. intros r' Hr'. apply H. now right.
Qed.

(* the comprehension ends with the last ome_ngff representation *)
Lemma filter_last_ngff (pre post : list BIAImageRepresentation.t) rep :
  BIAImageRepresentation.type rep = Some "ome_ngff" ->
  (forall r, In r post -> BIAImageRepresentation.type r <> Some "ome_ngff") ->
  filter is_ome_ngff (pre ++ rep :: post) = filter is_ome_ngff pre ++ [rep].
Proof.
  intros Hrep Hpost. rewrite filter_app. simpl.
  apply is_ome_ngff_type in Hrep. rewrite Hrep.
  now rewrite (filter_no_ngff post Hpost).
Qed.

(* list.pop() on a list that ends with x *)
Lemma pop_last {X : Type} (l : list X) (x r : X) (rest : list X) :
  l ++ [x] = r :: rest -> last rest r = x.
Proof.
  intros H.
  assert (E : last (r :: rest) r = x) by (rewrite <- H; apply last_last).
  destruct rest; [|exact E]. simpl in *. exact E.
Qed.

(* among the representations of type ome_ngff, one is the last *)
Lemma last_ngff_split (reps : list BIAImageRepresentation.t) :
  (exists r, In r reps /\ BIAImageRepresentation.type r = Some "ome_ngff") ->
  exists pre x post,
    reps = pre ++ x :: post
    /\ BIAImageRepresentation.type x = Some "ome_ngff"
    /\ forall r, In r post ->
                 BIAImageRepresentation.type r <> Some "ome_ngff".
Proof.
  induction reps as [|y reps IH] using rev_ind; intros [r [Hin Hr]];
    [contradiction|].
  destruct (is_ome_ngff y) eqn:Hy.
  - apply is_ome_ngff_type in Hy.
    exists reps, y, []. split; [reflexivity|]. split; [assumption|].
    intros ? [].
  - assert (Hy' : BIAImageRepresentation.type y <> Some "ome_ngff").
    { intros E. apply is_ome_ngff_type in E. congruence. }
    apply in_app_or in Hin. destruct Hin as [Hin|[->|[]]]; [|contradiction].
    destruct IH as [pre [x [post [-> [Hx Hpost]]]]]; [eauto|].
    exists pre, x, (post ++ [y]).
    split; [now rewrite <- app_assoc|]. split; [assumption|].
    intros r' Hr'. apply in_app_or in Hr'.
    destruct Hr' as [Hr'|[<-|[]]]; auto.
Qed.

(* either a value other than None stands under [ome_metadata], or nothing *)
Lemma cached_or_not self :
  (exists c, dict_get self "ome_metadata" = Some c /\ is_None c = false)
  \/ (dict_get self "ome_metadata" = None
      \/ dict_get self "ome_metadata" = Some VNone).
Proof.
  destruct (dict_get self "ome_metadata") as [c|]; [|auto].
  destruct (is_None c) eqn:Hn; [|eauto].
  destruct c; try discriminate. auto.
Qed.

(* the first access on an image with an ome_ngff representation and nothing
   under [ome_metadata] goes through the representation popped *)
Lemma ome_metadata_miss self net reps pre ngff_rep post :
  dict_get self "ome_metadata" = None
  \/ dict_get self "ome_metadata" = Some VNone ->
  dict_get self "representations" = Some (VReps reps) ->
  reps = pre ++ ngff_rep :: post ->
  BIAImageRepresentation.type ngff_rep = Some "ome_ngff" ->
  (forall r, In r post -> BIAImageRepresentation.type r <> Some "ome_ngff") ->
  ome_metadata self net
  = match ome_metadata_uri_of ngff_rep with
    | Raises e => (Raises e, self, net)
    | Returns ome_metadata_uri =>
        match _ome_xml_url_parse ome_metadata_uri net with
        | (Raises e, net') => (Raises e, self, net')
        | (Returns metadata, net') =>
            (Returns (VOME metadata),
             dict_set self "ome_metadata" (VOME metadata), net')
        end
    end.
Proof.
  intros Hcache Hreps -> Htype Hpost.
  unfold ome_metadata, getattr.
  assert (Hnone : is_None match dict_get self "ome_metadata" with
                          | Some v => v
                          | None => VNone
                          end = true)
    by (destruct Hcache as [-> | ->]; reflexivity).
  rewrite Hnone, Hreps. simpl bind.
  rewrite (filter_last_ngff pre post ngff_rep Htype Hpost).
  destruct (filter is_ome_ngff pre ++ [ngff_rep]) as [|r rest] eqn:E.
  - now destruct (filter is_ome_ngff pre).
  - now rewrite (pop_last _ _ _ _ E).
Qed.

(** C4, as amended: on an image with nothing under [ome_metadata] yet, the
    first access takes the LAST representation of type "ome_ngff" in the
    list (the comprehension keeps them in order and pop() removes the last
    one), parses its URI, replaces the path by OME/METADATA.ome.xml beside
    it, requests that URI once and, on status 200, parses the content with
    validate=False, stores the document under [ome_metadata] and returns
    it.  What the request or the parser raises is raised, a status other
    than 200 fails the assertion, and nothing is stored then. *)
Theorem ome_metadata_first_access self net reps pre ngff_rep post parsed_url :
  dict_get self "ome_metadata" = None
  \/ dict_get self "ome_metadata" = Some VNone ->
  dict_get self "representations" = Some (VReps reps) ->
  reps = pre ++ ngff_rep :: post ->
  BIAImageRepresentation.type ngff_rep = Some "ome_ngff" ->
  (forall r, In r post -> BIAImageRepresentation.type r <> Some "ome_ngff") ->
  urlparse (BIAImageRepresentation.uri ngff_rep) = Returns parsed_url ->
  let ome_metadata_uri :=
    urlunparse (ParseResult.scheme parsed_url, ParseResult.netloc parsed_url,
                path_str (truediv (parent (Path (ParseResult.path parsed_url)))
                                  "OME/METADATA.ome.xml"),
                None, None, None) in
  ome_metadata self net
  = match requests_get net ome_metadata_uri with
    | Raises e => (Raises e, self, net ++ [ome_metadata_uri])
    | Returns r =>
        if Z.eqb (Response.status_code r) 200 then
          match from_xml (Response.content r) "lxml" false with
          | Returns metadata =>
              (Returns (VOME metadata),
               dict_set self "ome_metadata" (VOME metadata),
               net ++ [ome_metadata_uri])
          | Raises e => (Raises e, self, net ++ [ome_metadata_uri])
          end
        else
          (Raises (AssertionError (Response.status_code r) ome_metadata_uri
                                  (Response.content r)),
           self, net ++ [ome_metadata_uri])
    end.
Proof.
  intros Hcache Hreps Hsplit Htype Hpost Hparse ome_metadata_uri.
  rewrite (ome_metadata_miss self net reps pre ngff_rep post)
    by assumption.
  unfold ome_metadata_uri_of. rewrite Hparse. simpl bind.
  fold ome_metadata_uri. unfold _ome_xml_url_parse.
  destruct (requests_get net ome_metadata_uri) as [r|e]; [|reflexivity].
  destruct (Z.eqb (Response.status_code r) 200); [|reflexivity].
  destruct (from_xml (Response.content r) "lxml" false); reflexivity.
Qed.

(** C5, as amended: an image with no representation of type "ome_ngff"
    is never fetched for: the access makes no request and changes nothing.
    It returns None when the image holds nothing (or None) under
    [ome_metadata]; a value that stands there, as an annotation named
    ome_metadata leaves one, is returned instead. *)
Theorem ome_metadata_without_ngff self net reps :
  dict_get self "representations" = Some (VReps reps) ->
  (forall r, In r reps -> BIAImageRepresentation.type r <> Some "ome_ngff") ->
  snd (ome_metadata self net) = net
  /\ snd (fst (ome_metadata self net)) = self
  /\ (dict_get self "ome_metadata" = None
      \/ dict_get self "ome_metadata" = Some VNone ->
      ome_metadata self net = (Returns VNone, self, net))
  /\ (forall v, dict_get self "ome_metadata" = Some v -> v <> VNone ->
      ome_metadata self net = (Returns v, self, net)).
Proof.
  intros Hreps Hnone.
  assert (Hmiss : dict_get self "ome_metadata" = None
                  \/ dict_get self "ome_metadata" = Some VNone ->
                  ome_metadata self net = (Returns VNone, self, net)).
  { intros Hcache. unfold ome_metadata, getattr.
    assert (E : is_None match dict_get self "ome_metadata" with
                        | Some v => v
                        | None => VNone
                        end = true)
      by (destruct Hcache as [-> | ->]; reflexivity).
    rewrite E, Hreps. simpl bind. now rewrite (filter_no_ngff reps Hnone). }
  assert (Hsame : exists v, ome_metadata self net = (Returns v, self, net)).
  { destruct (cached_or_not self) as [[c [Hc Hn]]|Hcache]; eauto.
    exists c. now apply ome_metadata_hit. }
  destruct Hsame as [v Hsame].
  split; [now rewrite Hsame|]. split; [now rewrite Hsame|].
  split; [exact Hmiss|].
  intros c Hc Hne. apply ome_metadata_hit; [assumption|].
  destruct c; try reflexivity. congruence.
Qed.

(** C6, as amended: on an image with a representation of type
    "ome_ngff", once an access has returned, the metadata is not computed
    again: that access made one request at most and returned a value that
    is not None, and every access after it, however many, returns that same
    value, makes no request and leaves the image as it is.  (An access that
    raises stores nothing, so the next one fetches again.) *)
Theorem ome_metadata_computed_once self net reps v self' net' :
  dict_get self "representations" = Some (VReps reps) ->
  (exists r, In r reps /\ BIAImageRepresentation.type r = Some "ome_ngff") ->
  ome_metadata self net = (Returns v, self', net') ->
  v <> VNone
  /\ (net' = net \/ exists uri, net' = net ++ [uri])
  /\ forall n,
       ome_metadata_times n self' net' = (repeat (Returns v) n, self', net').
Proof.
  intros Hreps Hngff Hfirst.
  assert (Hcached : dict_get self' "ome_metadata" = Some v
                    /\ is_None v = false
                    /\ (net' = net \/ exists uri, net' = net ++ [uri])).
  { destruct (cached_or_not self) as [[c [Hc Hn]]|Hcache].
    - rewrite (ome_metadata_hit self net c Hc Hn) in Hfirst.
      inversion Hfirst; subst. auto.
    - destruct (last_ngff_split reps Hngff)
        as [pre [x [post [Hsplit [Hx Hpost]]]]].
      rewrite (ome_metadata_miss self net reps pre x post) in Hfirst
        by assumption.
      destruct (ome_metadata_uri_of x) as [u|]; [|discriminate].
      unfold _ome_xml_url_parse in Hfirst.
      destruct (requests_get net u) as [resp|]; [|discriminate].
      destruct (Z.eqb (Response.status_code resp) 200); [|discriminate].
      destruct (from_xml (Response.content resp) "lxml" false) as [md|];
        [|discriminate].
      inversion Hfirst; subst. rewrite dict_get_set_eq. eauto. }
  destruct Hcached as [Hv [Hn Hnet]].
  split; [intros ->; discriminate|]. split; [exact Hnet|].
  intros n. apply ome_metadata_times_fixed. now apply ome_metadata_hit.
Qed.

End OmeMetadataFacts.

(** ** Annotations and the cache share one namespace *)

Section Shadowing.
Context {OME : Type} {url : UrlLib} {remote : Remote OME}
        {collab : Collaborators}.

(** C10: when load_and_annotate_study returns and the annotations of an
    image hold one named ome_metadata, every later access of that image's
    ome_metadata returns the value of the last such annotation, a str, as it
    stands: no request is made, the image is left as it is, and the same
    holds whatever stands under [representations]. *)
Theorem annotation_shadows_ome_metadata accession_id (study' : obj OME)
    (s : BIAStudy.t) image_id (image : BIAImage.t) anns pre a post :
  load_and_annotate_study accession_id = Returns study' ->
  get_study accession_id = Returns s ->
  dict_get (BIAStudy.images s) image_id = Some image ->
  get_image_annotations accession_id image_id = Returns anns ->
  anns = pre ++ a :: post ->
  ImageAnnotation.key a = "ome_metadata" ->
  (forall b, In b post -> ImageAnnotation.key b <> "ome_metadata") ->
  exists images' image',
    dict_get study' "images" = Some (VImages images')
    /\ dict_get images' image_id = Some image'
    /\ forall net,
         (forall n,
             ome_metadata_times n image' net
             = (repeat (Returns (VStr (ImageAnnotation.value a))) n,
                image', net))
         /\ (forall representations,
               let image'' :=
                 dict_set image' "representations" representations in
               ome_metadata image'' net
               = (Returns (VStr (ImageAnnotation.value a)), image'', net)).
Proof.
  intros Hload Hs Himage Hanns -> Hkey Hpost.
  destruct (load_image _ _ _ _ _ Hload Hs Himage)
    as [images' [anns0 [fetched [Hi [Ha0 [_ [_ Hg]]]]]]].
  rewrite Hanns in Ha0. inversion Ha0; subst anns0.
  eexists images', _. split; [exact Hi|]. split; [exact Hg|].
  set (image' := dict_set _ "representations" _).
  assert (Hv : dict_get image' "ome_metadata"
               = Some (VStr (ImageAnnotation.value a))).
  { subst image'. rewrite dict_get_set_neq by discriminate.
    rewrite annotate_image_each, <- Hkey.
    apply (assign_each_last ImageAnnotation.key image_value).
    now rewrite Hkey. }
  intros net. split.
  - intros n. apply ome_metadata_times_fixed.
    now apply ome_metadata_hit.
  - intros representations image''. apply ome_metadata_hit; [|reflexivity].
    subst image''. now rewrite dict_get_set_neq by discriminate.
Qed.

End Shadowing.

(** * The properties at work on the examples *)

Lemma load_demo :
  load_and_annotate_study (collab := Demo.archive) "S-BIAD1"
  = Returns Demo.merged.
Proof. vm_compute. reflexivity. Defined.

Lemma load_demo_unannotated :
  load_and_annotate_study (collab := Demo.archive_unannotated) "S-BIAD1"
  = Returns Demo.merged_unannotated.
Proof. vm_compute. reflexivity. Defined.

(** The study annotations name organism twice, mouse then human; the
    annotations of IM1 name dimensions twice, 4D then 5D. *)
Lemma last_annotation_wins_example :
  load_and_annotate_study (collab := Demo.archive) "S-BIAD1"
  = Returns Demo.merged
  /\ dict_get Demo.merged "organism" = Some (VStr "human")
  /\ exists images' image',
       dict_get Demo.merged "images" = Some (VImages images')
       /\ dict_get images' "IM1" = Some image'
       /\ dict_get image' "dimensions" = Some (VStr "5D").
Proof.
  split; [exact load_demo|].
  destruct (last_annotation_wins (collab := Demo.archive) "S-BIAD1"
              Demo.merged load_demo) as [Hstudy Himage].
  split.
  - exact (Hstudy Demo.study_annotations
             [ StudyAnnotation.mk "S-BIAD1" "organism" "mouse";
               StudyAnnotation.mk "S-BIAD1" "curator" "bia" ]
             (StudyAnnotation.mk "S-BIAD1" "organism" "human") []
             eq_refl eq_refl (fun b (F : In b []) => match F with end)).
  - destruct (Himage Demo.study "IM1" Demo.IM1 eq_refl eq_refl)
      as [images' [image' [H1 [H2 H3]]]].
    exists images', image'. split; [exact H1|]. split; [exact H2|].
    exact (H3 Demo.IM1_annotations
             [Demo.image_annotation "IM1" "dimensions" "4D"]
             (Demo.image_annotation "IM1" "dimensions" "5D") []
             eq_refl eq_refl (fun b (F : In b []) => match F with end)).
Defined.

(** IM1 holds one raw representation; the thumbnail and the same raw
    representation are fetched for it. *)
Lemma representations_are_appended_example :
  load_and_annotate_study (collab := Demo.archive) "S-BIAD1"
  = Returns Demo.merged
  /\ exists images' image' after,
       dict_get Demo.merged "images" = Some (VImages images')
       /\ dict_get images' "IM1" = Some image'
       /\ dict_get image' "representations" = Some (VReps after)
       /\ after = [Demo.raw_rep; Demo.thumbnail_rep; Demo.raw_rep]
       /\ length after = 1 + 2
       /\ firstn 1 after = [Demo.raw_rep]
       /\ skipn 1 after = [Demo.thumbnail_rep; Demo.raw_rep].
Proof.
  split; [exact load_demo|].
  exact (representations_are_appended (collab := Demo.archive) "S-BIAD1"
           Demo.merged Demo.study "IM1" Demo.IM1
           [Demo.thumbnail_rep; Demo.raw_rep]
           load_demo eq_refl eq_refl eq_refl).
Defined.

(** An unknown accession, the study annotations out of reach, and the
    annotations of the third image out of reach after two images went
    through. *)
Lemma collaborator_errors_propagate_example :
  load_and_annotate_study (OME := string) (collab := Demo.archive) "S-BIAD9"
  = Raises (OtherError "KeyError" "S-BIAD9")
  /\ load_and_annotate_study (OME := string)
       (collab := Demo.archive_without_study_annotations) "S-BIAD1"
     = Raises (OtherError "ConnectionError" "study annotations")
  /\ load_and_annotate_study (OME := string)
       (collab := Demo.archive_without_IM3_annotations) "S-BIAD1"
     = Raises (OtherError "ConnectionError" "IM3").
Proof.
  split; [|split].
  - exact (proj1 (collaborator_errors_propagate (OME := string)
                    (collab := Demo.archive) "S-BIAD9"
                    (OtherError "KeyError" "S-BIAD9")) eq_refl).
  - exact (proj1 (proj2 (collaborator_errors_propagate (OME := string)
                    (collab := Demo.archive_without_study_annotations)
                    "S-BIAD1"
                    (OtherError "ConnectionError" "study annotations")))
             Demo.study eq_refl eq_refl).
  - refine (proj2 (proj2 (collaborator_errors_propagate (OME := string)
                    (collab := Demo.archive_without_IM3_annotations)
                    "S-BIAD1" (OtherError "ConnectionError" "IM3")))
              Demo.study Demo.study_annotations
              [("IM1", Demo.IM1); ("IM2", Demo.IM2)] "IM3" Demo.IM3 []
              (firstn 2 (Demo.merged_images Demo.merged))
              eq_refl eq_refl _ eq_refl _ (or_introl eq_refl)).
    + intros a [<-|[<-|[<-|[]]]]; discriminate.
    + vm_compute. reflexivity.
Defined.

(** No study annotations and no annotations of IM3: the title of the study
    and the name of IM3 are as they were. *)
Lemma empty_annotations_change_nothing_example :
  annotate_study (BIAStudy_dict (OME := string) Demo.study) []
  = BIAStudy_dict Demo.study
  /\ annotate_image (BIAImage_dict (OME := string) Demo.IM3) []
     = BIAImage_dict Demo.IM3
  /\ dict_get Demo.merged_unannotated "title" = Some (VStr "A study")
  /\ exists images' image',
       dict_get Demo.merged_unannotated "images" = Some (VImages images')
       /\ dict_get images' "IM3" = Some image'
       /\ dict_get image' "name" = Some (VStr "IM3").
Proof.
  destruct (empty_annotations_change_nothing (OME := string)
              (collab := Demo.archive_unannotated))
    as [Hstudy [Himage [Hfields Himages]]].
  split; [apply Hstudy|]. split; [apply Himage|]. split.
  - exact (Hfields "S-BIAD1" Demo.study Demo.merged_unannotated "title"
             eq_refl eq_refl load_demo_unannotated
             ltac:(discriminate)).
  - destruct (Himages "S-BIAD1" Demo.study Demo.merged_unannotated "IM3"
                Demo.IM3 eq_refl load_demo_unannotated eq_refl eq_refl)
      as [images' [image' [H1 [H2 H3]]]].
    exists images', image'. split; [exact H1|]. split; [exact H2|].
    exact (H3 "name" ltac:(discriminate)).
Defined.

(** The three study annotations of the example, and image annotations with
    the same keys and values, applied to the same record. *)
Lemma annotation_strategies_agree_example :
  annotate_study (BIAStudy_dict (OME := string) Demo.study)
    Demo.study_annotations
  = annotate_image (BIAStudy_dict Demo.study)
      [ Demo.image_annotation "IM1" "organism" "mouse";
        Demo.image_annotation "IM1" "curator" "bia";
        Demo.image_annotation "IM1" "organism" "human" ].
Proof.
  exact (annotation_strategies_agree (BIAStudy_dict Demo.study)
           Demo.study_annotations
           [ Demo.image_annotation "IM1" "organism" "mouse";
             Demo.image_annotation "IM1" "curator" "bia";
             Demo.image_annotation "IM1" "organism" "human" ]
           eq_refl).
Defined.

(** IM2 holds two representations of type ome_ngff, the one under /a
    before the one under /b: the document beside the last is requested. *)
Lemma ome_metadata_first_access_example :
  ome_metadata (url := Demo.url) (remote := Demo.serving)
    (BIAImage_dict Demo.IM2) []
  = (Returns (VOME "<OME>https://host/b/OME/METADATA.ome.xml"),
     dict_set (BIAImage_dict Demo.IM2) "ome_metadata"
       (VOME "<OME>https://host/b/OME/METADATA.ome.xml"),
     ["https://host/b/OME/METADATA.ome.xml"]).
Proof.
  exact (ome_metadata_first_access (url := Demo.url)
           (remote := Demo.serving) (BIAImage_dict Demo.IM2) []
           [Demo.ngff_a; Demo.raw_rep; Demo.ngff_b]
           [Demo.ngff_a; Demo.raw_rep] Demo.ngff_b []
           (ParseResult.mk "https" "host" "/b/image.zarr" "" "" "")
           (or_introl eq_refl) eq_refl eq_refl eq_refl
           (fun r (F : In r []) => match F with end) eq_refl).
Defined.

(** The claim as stated fails on IM2: its first representation of type
    ome_ngff is the one under /a, and the document requested is the one
    beside the representation under /b. *)
Lemma first_ngff_representation_is_not_used :
  BIAImage.representations Demo.IM2
  = [Demo.ngff_a; Demo.raw_rep; Demo.ngff_b]
  /\ BIAImageRepresentation.type Demo.ngff_a = Some "ome_ngff"
  /\ ome_metadata_uri_of (url := Demo.url) Demo.ngff_a
     = Returns "https://host/a/OME/METADATA.ome.xml"
  /\ snd (ome_metadata (url := Demo.url) (remote := Demo.serving)
            (BIAImage_dict Demo.IM2) [])
     = ["https://host/b/OME/METADATA.ome.xml"]
  /\ fst (fst (ome_metadata (url := Demo.url) (remote := Demo.serving)
                 (BIAImage_dict Demo.IM2) []))
     <> Returns (VOME "<OME>https://host/a/OME/METADATA.ome.xml").
Proof.
  repeat split; try reflexivity. vm_compute. discriminate.
Qed.

(** IM1 holds a raw representation only and nothing under ome_metadata. *)
Lemma ome_metadata_without_ngff_example :
  ome_metadata (url := Demo.url) (remote := Demo.serving)
    (BIAImage_dict Demo.IM1) []
  = (Returns VNone, BIAImage_dict Demo.IM1, []).
Proof.
  assert (Hno : forall r, In r [Demo.raw_rep] ->
                 BIAImageRepresentation.type r <> Some "ome_ngff")
    by (intros r [<-|[]]; discriminate).
  exact (proj1 (proj2 (proj2
           (ome_metadata_without_ngff (url := Demo.url)
              (remote := Demo.serving) (BIAImage_dict Demo.IM1) []
              [Demo.raw_rep] eq_refl Hno)))
           (or_introl eq_refl)).
Defined.

(** The claim as stated fails on IM3 as load_and_annotate_study returns
    it: its one representation is of type raw, an annotation named
    ome_metadata was applied to it, and the access returns the annotation's
    value. *)
Lemma ome_metadata_without_ngff_is_not_always_None :
  load_and_annotate_study (collab := Demo.archive) "S-BIAD1"
  = Returns Demo.merged
  /\ dict_get (Demo.merged_images Demo.merged) "IM3"
     = Some (Demo.merged_image Demo.merged "IM3")
  /\ dict_get (Demo.merged_image Demo.merged "IM3") "representations"
     = Some (VReps [Demo.raw_c])
  /\ BIAImageRepresentation.type Demo.raw_c = Some "raw"
  /\ ome_metadata (url := Demo.url) (remote := Demo.serving)
       (Demo.merged_image Demo.merged "IM3") []
     = (Returns (VStr "not recorded"), Demo.merged_image Demo.merged "IM3",
        [])
  /\ Returns (VStr "not recorded") <> Returns (@VNone string).
Proof.
  repeat split; try (vm_compute; reflexivity). discriminate.
Qed.

(** The first access on IM2 requests the document; three more accesses
    return it again and request nothing. *)
Lemma ome_metadata_computed_once_example :
  ome_metadata (url := Demo.url) (remote := Demo.serving)
    (BIAImage_dict Demo.IM2) []
  = (Returns (VOME "<OME>https://host/b/OME/METADATA.ome.xml"),
     dict_set (BIAImage_dict Demo.IM2) "ome_metadata"
       (VOME "<OME>https://host/b/OME/METADATA.ome.xml"),
     ["https://host/b/OME/METADATA.ome.xml"])
  /\ ome_metadata_times (url := Demo.url) (remote := Demo.serving) 3
       (dict_set (BIAImage_dict Demo.IM2) "ome_metadata"
          (VOME "<OME>https://host/b/OME/METADATA.ome.xml"))
       ["https://host/b/OME/METADATA.ome.xml"]
     = (repeat (Returns (VOME "<OME>https://host/b/OME/METADATA.ome.xml")) 3,
        dict_set (BIAImage_dict Demo.IM2) "ome_metadata"
          (VOME "<OME>https://host/b/OME/METADATA.ome.xml"),
        ["https://host/b/OME/METADATA.ome.xml"]).
Proof.
  assert (Hfirst :
            ome_metadata (url := Demo.url) (remote := Demo.serving)
              (BIAImage_dict Demo.IM2) []
            = (Returns (VOME "<OME>https://host/b/OME/METADATA.ome.xml"),
               dict_set (BIAImage_dict Demo.IM2) "ome_metadata"
                 (VOME "<OME>https://host/b/OME/METADATA.ome.xml"),
               ["https://host/b/OME/METADATA.ome.xml"]))
    by reflexivity.
  split; [exact Hfirst|].
  exact (proj2 (proj2
           (ome_metadata_computed_once (url := Demo.url)
              (remote := Demo.serving) (BIAImage_dict Demo.IM2) []
              [Demo.ngff_a; Demo.raw_rep; Demo.ngff_b] _ _ _ eq_refl
              (ex_intro _ Demo.ngff_a (conj (or_introl eq_refl) eq_refl))
              Hfirst)) 3).
Defined.

(** The claim as stated fails on IM2 while the remote side answers 503:
    IM2 holds a representation of type ome_ngff, the first access raises
    and stores nothing, and the second access requests the document again
    instead of returning a cached value. *)
Lemma second_access_fetches_again_after_a_failure :
  (exists r, In r (BIAImage.representations Demo.IM2)
             /\ BIAImageRepresentation.type r = Some "ome_ngff")
  /\ ome_metadata_times (url := Demo.url) (remote := Demo.refusing) 2
       (BIAImage_dict Demo.IM2) []
     = ([ Raises (AssertionError 503 "https://host/b/OME/METADATA.ome.xml"
                    "unavailable");
          Raises (AssertionError 503 "https://host/b/OME/METADATA.ome.xml"
                    "unavailable") ],
        BIAImage_dict Demo.IM2,
        [ "https://host/b/OME/METADATA.ome.xml";
          "https://host/b/OME/METADATA.ome.xml" ]).
Proof.
  split; [|reflexivity].
  exists Demo.ngff_a. split; [now left|reflexivity].
Qed.

(** IM2 holds representations of type ome_ngff; its annotations name
    ome_metadata twice, "pending" and then "see paper". *)
Lemma annotation_shadows_ome_metadata_example :
  load_and_annotate_study (collab := Demo.archive) "S-BIAD1"
  = Returns Demo.merged
  /\ exists images' image',
       dict_get Demo.merged "images" = Some (VImages images')
       /\ dict_get images' "IM2" = Some image'
       /\ ome_metadata_times (url := Demo.url) (remote := Demo.serving) 2
            image' []
          = ([Returns (VStr "see paper"); Returns (VStr "see paper")],
             image', []).
Proof.
  split; [exact load_demo|].
  destruct (annotation_shadows_ome_metadata (url := Demo.url)
              (remote := Demo.serving) (collab := Demo.archive)
              "S-BIAD1" Demo.merged Demo.study "IM2" Demo.IM2
              Demo.IM2_annotations
              [ Demo.image_annotation "IM2" "ome_metadata" "pending";
                Demo.image_annotation "IM2" "name" "second" ]
              (Demo.image_annotation "IM2" "ome_metadata" "see paper") []
              load_demo eq_refl eq_refl eq_refl eq_refl eq_refl
              (fun b (F : In b []) => match F with end))
    as [images' [image' [H1 [H2 H3]]]].
  exists images', image'. split; [exact H1|]. split; [exact H2|].
  exact (proj1 (H3 []) 2).
Defined.

(** * Further properties of the merge *)

Section AssignmentsFurther.
Context {A V : Type} (key : A -> string) (val : A -> V).
Implicit Types (d : dict V) (l : list A) (k : string).
Local Abbreviation assign_each := (assign_each key val).

Lemma key_named_dec l k :
  (exists a, In a l /\ key a = k) \/ (forall a, In a l -> key a <> k).
Proof.
  induction l as [|a l [[b [Hb Hk]]|IH]].
  - right. intros ? [].
  - left. exists b. split; [now right|assumption].
  - destruct (string_dec (key a) k) as [E|Hne].
    + left. exists a. split; [now left|assumption].
    + right. intros b [<-|Hb]; auto.
Qed.

(* among the annotations with one key, one is the last *)
Lemma last_named_split l k :
  (exists a, In a l /\ key a = k) ->
  exists pre a post,
    l = pre ++ a :: post /\ key a = k
    /\ forall b, In b post -> key b <> k.
Proof.
  induction l as [|c l IH] using rev_ind; intros [a [Hin Hk]];
    [contradiction|].
  destruct (string_dec (key c) k) as [E|Hne].
  - exists l, c, []. split; [reflexivity|]. split; [assumption|].
    intros ? [].
  - apply in_app_or in Hin. destruct Hin as [Hin|[->|[]]]; [|contradiction].
    destruct IH as [pre [x [post [-> [Hx Hpost]]]]]; [eauto|].
    exists pre, x, (post ++ [c]).
    split; [now rewrite <- app_assoc|]. split; [assumption|].
    intros b Hb. apply in_app_or in Hb. destruct Hb as [Hb|[<-|[]]]; auto.
Qed.

(* the keys after the assignments: those there were, where they were, and
   behind them the new ones *)
Lemma assign_each_keys l d :
  exists added,
    dict_keys (assign_each l d) = dict_keys d ++ added
    /\ forall k, In k added
                 <-> (exists a, In a l /\ key a = k)
                     /\ ~ In k (dict_keys d).
Proof.
  induction l as [|c l [added [Hkeys Hadded]]] using rev_ind.
  - exists []. split; [now rewrite app_nil_r|].
    intros k. split; [intros []|intros [[a [[] _]] _]].
  - rewrite assign_each_snoc, dict_keys_set, Hkeys.
    destruct (in_dec string_dec (key c) (dict_keys d ++ added))
      as [Hin|Hnot].
    + exists added. split; [reflexivity|]. intros k. rewrite Hadded.
      split.
      * intros [[a [Ha Hk]] Hn]. split; [|assumption].
        exists a. split; [apply in_or_app; now left|assumption].
      * intros [[a [Ha Hk]] Hn]. split; [|assumption].
        apply in_app_or in Ha. destruct Ha as [Ha|[->|[]]]; [eauto|].
        subst k. apply in_app_or in Hin. destruct Hin as [Hin|Hin];
          [contradiction|].
        apply Hadded in Hin. tauto.
    + exists (added ++ [key c]). split; [now rewrite app_assoc|].
      intros k. rewrite in_app_iff, Hadded. simpl. split.
      * intros [[[a [Ha Hk]] Hn]|[<-|[]]].
        -- split; [|assumption].
           exists a. split; [apply in_or_app; now left|assumption].
        -- split.
           ++ exists c. split; [apply in_or_app; right; now left|reflexivity].
           ++ intros Hd. apply Hnot. apply in_or_app. now left.
      * intros [[a [Ha Hk]] Hn].
        apply in_app_or in Ha. destruct Ha as [Ha|[->|[]]]; [eauto|auto].
Qed.

Lemma assign_each_keys_present l d :
  (forall a, In a l -> In (key a) (dict_keys d)) ->
  dict_keys (assign_each l d) = dict_keys d.
Proof.
  intros Hall. destruct (assign_each_keys l d) as [added [-> Hadded]].
  destruct added as [|k added]; [apply app_nil_r|].
  exfalso. destruct (proj1 (Hadded k) (or_introl eq_refl))
    as [[a [Ha <-]] Hn].
  auto.
Qed.

Lemma assign_each_has_key l d a :
  In a l -> In (key a) (dict_keys (assign_each l d)).
Proof.
  intros Ha. destruct (assign_each_keys l d) as [added [-> Hadded]].
  destruct (in_dec string_dec (key a) (dict_keys d)) as [Hin|Hnot].
  - apply in_or_app. now left.
  - apply in_or_app. right. apply Hadded. eauto.
Qed.

(* what a key holds after the assignments does not depend on the
   dictionary they went into, once an annotation names the key *)
Lemma assign_each_named l d d' k :
  (exists a, In a l /\ key a = k) ->
  dict_get (assign_each l d) k = dict_get (assign_each l d') k.
Proof.
  intros H. destruct (last_named_split l k H)
    as [pre [a [post [-> [<- Hpost]]]]].
  now rewrite !(assign_each_last key val pre a post) by assumption.
Qed.

End AssignmentsFurther.

(* two dictionaries with the same keys in the same order, each once, and
   the same value under each key are one dictionary *)
Lemma dict_ext {V : Type} (d1 d2 : dict V) :
  NoDup (dict_keys d1) ->
  dict_keys d1 = dict_keys d2 ->
  (forall k, dict_get d1 k = dict_get d2 k) ->
  d1 = d2.
Proof.
  revert d2. induction d1 as [|[k1 v1] d1 IH]; intros [|[k2 v2] d2];
    simpl; try discriminate; [reflexivity|].
  intros Hnd Hkeys Hget. inversion Hnd as [|? ? Hnot Hnd']; subst.
  inversion Hkeys as [[Hk Hkeys']]. subst k2.
  pose proof (Hget k1) as H1. rewrite String.eqb_refl in H1.
  inversion H1; subst v2. f_equal.
  apply IH; [assumption|assumption|].
  intros k. specialize (Hget k).
  destruct (String.eqb k1 k) eqn:E; [|assumption].
  apply String.eqb_eq in E. subst k.
  assert (G : forall d : dict V, ~ In k1 (dict_keys d) -> dict_get d k1 = None).
  { clear. induction d as [|[k0 v0] d IHd]; simpl; [reflexivity|].
    intros Hn. destruct (String.eqb k0 k1) eqn:E.
    - apply String.eqb_eq in E. tauto.
    - apply IHd. tauto. }
  rewrite (G d1 Hnot). rewrite Hkeys' in Hnot. now rewrite (G d2 Hnot).
Qed.

Section ForEachFurther.
Context {X Y : Type} (body : X -> outcome Y).

(* a loop goes through exactly when each of its iterations does *)
Lemma for_each_returns_iff (l : list X) :
  (exists ys, for_each body l = Returns ys)
  <-> forall x, In x l -> exists y, body x = Returns y.
Proof.
  induction l as [|x l IH]; simpl.
  - split; [intros _ ? []|eauto].
  - split.
    + intros [ys H] x' [<-|Hin].
      * destruct (body x) as [y|]; [eauto|discriminate].
      * destruct (body x) as [y|]; simpl in H; [|discriminate].
        destruct (for_each body l) as [ys'|]; simpl in H; [|discriminate].
        apply IH; eauto.
    + intros H. destruct (H x (or_introl eq_refl)) as [y ->]. simpl.
      destruct (proj2 IH (fun x' Hx' => H x' (or_intror Hx'))) as [ys ->].
      simpl. eauto.
Qed.

(* a loop that raises does so at its first failing iteration *)
Lemma for_each_raises_inv (l : list X) (e : exn) :
  for_each body l = Raises e ->
  exists done x rest ys,
    l = done ++ x :: rest
    /\ for_each body done = Returns ys
    /\ body x = Raises e.
Proof.
  induction l as [|x l IH]; simpl; [discriminate|].
  destruct (body x) as [y|e0] eqn:Hx; simpl.
  - destruct (for_each body l) as [ys|e1]; simpl; [discriminate|].
    intros H. inversion H; subst e1.
    destruct (IH eq_refl) as [done [x' [rest [ys [-> [Hd Hx']]]]]].
    exists (x :: done), x', rest, (y :: ys). simpl.
    rewrite Hx, Hd. auto.
  - intros H. inversion H; subst e0.
    exists [], x, l, []. auto.
Qed.

End ForEachFurther.

Lemma for_each_keys {X Y : Type} (body : string * X -> outcome (string * Y))
    (l : dict X) (ys : dict Y) :
  (forall x y, body x = Returns y -> fst y = fst x) ->
  for_each body l = Returns ys ->
  dict_keys ys = dict_keys l.
Proof.
  intros Hkey. revert ys. induction l as [|x l IH]; simpl; intros ys H.
  - inversion H. reflexivity.
  - destruct (body x) as [y|] eqn:Hx; simpl in H; [|discriminate].
    destruct (for_each body l) as [ys'|]; simpl in H; [|discriminate].
    inversion H. simpl. rewrite (Hkey _ _ Hx). f_equal. now apply IH.
Qed.

Section MergeFurther.
Context {OME : Type} {collab : Collaborators}.
Local Abbreviation BIAStudy_dict := (@BIAStudy_dict OME).
Local Abbreviation BIAImage_dict := (@BIAImage_dict OME).
Local Abbreviation merge_image := (@merge_image OME collab).
Local Abbreviation load_and_annotate_study :=
  (@load_and_annotate_study OME collab).
Local Abbreviation image_value := (@image_value OME).
Local Abbreviation study_value := (@study_value OME).

Lemma annotate_image_untouched (image : obj OME) anns k :
  (forall a, In a anns -> ImageAnnotation.key a <> k) ->
  dict_get (annotate_image image anns) k = dict_get image k.
Proof.
  rewrite annotate_image_each.
  apply (assign_each_other ImageAnnotation.key image_value).
Qed.

Lemma annotate_study_untouched (study : obj OME) anns k :
  (forall a, In a anns -> StudyAnnotation.key a <> k) ->
  dict_get (annotate_study study anns) k = dict_get study k.
Proof.
  rewrite annotate_study_each.
  apply (assign_each_other StudyAnnotation.key study_value).
Qed.

(* an annotation named [representations] leaves a str there *)
Lemma annotate_image_named_representations (image : obj OME) anns a :
  In a anns -> ImageAnnotation.key a = "representations" ->
  exists s, dict_get (annotate_image image anns) "representations"
            = Some (VStr s).
Proof.
  intros Ha Hk. rewrite annotate_image_each.
  destruct (assign_each_written ImageAnnotation.key image_value anns image
              a Ha) as [b [_ [_ E]]].
  rewrite Hk in E. eexists. exact E.
Qed.

(* annotations with plain keys shadow no attribute of the class *)
Lemma annotate_image_plain (i : BIAImage.t) anns k :
  (forall a, In a anns -> is_dunder (ImageAnnotation.key a) = false) ->
  In k ["__private_attributes__"; "__config__"; "__fields__"] ->
  dict_get (annotate_image (BIAImage_dict i) anns) k = None.
Proof.
  intros Hplain Hk. rewrite annotate_image_untouched.
  - destruct Hk as [<-|[<-|[<-|[]]]]; reflexivity.
  - intros a Ha E. specialize (Hplain a Ha). rewrite E in Hplain.
    destruct Hk as [<-|[<-|[<-|[]]]]; discriminate.
Qed.

(* when the body of the loop returns for an image, and when it raises *)
Lemma merge_image_returns accession_id image_id (i : BIAImage.t) anns
    fetched :
  get_image_annotations accession_id image_id = Returns anns ->
  get_representations accession_id image_id = Returns fetched ->
  (forall a, In a anns -> ImageAnnotation.key a <> "representations") ->
  (forall a, In a anns -> is_dunder (ImageAnnotation.key a) = false) ->
  merge_image accession_id (image_id, BIAImage_dict i)
  = Returns (image_id,
             dict_set (annotate_image (BIAImage_dict i) anns)
               "representations"
               (VReps (BIAImage.representations i ++ fetched))).
Proof.
  intros Ha Hf Hk Hplain. unfold merge_image. rewrite Ha. simpl bind.
  rewrite Hf. simpl bind. unfold getattr.
  rewrite (annotate_image_untouched _ _ _ Hk). simpl bind.
  rewrite BaseModel_setattr_plain; [reflexivity| | | |].
  - apply annotate_image_plain; simpl; auto.
  - apply annotate_image_plain; simpl; auto.
  - apply annotate_image_plain; simpl; auto.
  - simpl. tauto.
Qed.

Lemma merge_image_returns_iff accession_id image_id (i : BIAImage.t) :
  (forall anns a,
      get_image_annotations accession_id image_id = Returns anns ->
      In a anns -> is_dunder (ImageAnnotation.key a) = false) ->
  (exists entry,
      merge_image accession_id (image_id, BIAImage_dict i) = Returns entry)
  <-> exists anns fetched,
        get_image_annotations accession_id image_id = Returns anns
        /\ get_representations accession_id image_id = Returns fetched
        /\ forall a, In a anns ->
                     ImageAnnotation.key a <> "representations".
Proof.
  intros Hplain. split.
  - intros [entry H].
    destruct (merge_image_inv _ _ _ _ H)
      as [anns [fetched [before [Ha [Hf [Hb _]]]]]].
    exists anns, fetched. split; [assumption|]. split; [assumption|].
    apply (annotated_representations _ _ _ Hb).
  - intros [anns [fetched [Ha [Hf Hk]]]].
    eexists. apply (merge_image_returns _ _ _ anns fetched); try assumption.
    intros a. now apply Hplain.
Qed.

Lemma merge_image_named_representations accession_id image_id
    (image : obj OME) anns fetched a :
  get_image_annotations accession_id image_id = Returns anns ->
  get_representations accession_id image_id = Returns fetched ->
  In a anns -> ImageAnnotation.key a = "representations" ->
  merge_image accession_id (image_id, image)
  = Raises (TypeError "unsupported operand type(s) for +=").
Proof.
  intros Ha Hf Hin Hk. unfold merge_image. rewrite Ha. simpl bind.
  rewrite Hf. simpl bind. unfold getattr.
  destruct (annotate_image_named_representations image anns a Hin Hk)
    as [s ->].
  reflexivity.
Qed.

Lemma merge_image_raises_inv accession_id image_id (i : BIAImage.t) e :
  (forall anns a,
      get_image_annotations accession_id image_id = Returns anns ->
      In a anns -> is_dunder (ImageAnnotation.key a) = false) ->
  merge_image accession_id (image_id, BIAImage_dict i) = Raises e ->
  get_image_annotations accession_id image_id = Raises e
  \/ (exists anns,
        get_image_annotations accession_id image_id = Returns anns
        /\ (get_representations accession_id image_id = Raises e
            \/ (exists fetched a,
                  get_representations accession_id image_id
                  = Returns fetched
                  /\ In a anns
                  /\ ImageAnnotation.key a = "representations"
                  /\ e = TypeError "unsupported operand type(s) for +="))).
Proof.
  intros Hplain.
  destruct (get_image_annotations accession_id image_id) as [anns|e0]
    eqn:Ha; [|unfold merge_image; rewrite Ha; intros H; inversion H; auto].
  destruct (get_representations accession_id image_id) as [fetched|e0]
    eqn:Hf;
    [|unfold merge_image; rewrite Ha; simpl bind; rewrite Hf;
      intros H; inversion H; eauto].
  intros H. right. exists anns. split; [reflexivity|]. right.
  destruct (key_named_dec ImageAnnotation.key anns "representations")
    as [[a [Hin Hk]]|Hnot].
  - rewrite (merge_image_named_representations _ _ _ _ _ _ Ha Hf Hin Hk)
      in H.
    inversion H. exists fetched, a. auto.
  - rewrite (merge_image_returns _ _ i _ _ Ha Hf Hnot) in H;
      [discriminate|].
    intros a. now apply Hplain.
Qed.

Lemma in_image_items (images : dict BIAImage.t) (x : string * obj OME) :
  In x (map (fun e => (fst e, BIAImage_dict (snd e))) images)
  <-> exists image_id i, In (image_id, i) images
                         /\ x = (image_id, BIAImage_dict i).
Proof.
  rewrite in_map_iff. split.
  - intros [[image_id i] [<- Hin]]. eauto.
  - intros [image_id [i [Hin ->]]]. exists (image_id, i). auto.
Qed.

(** X1: provided no image annotation has a key that begins with two
    underscores (such a key can shadow an attribute of the class that
    pydantic reads when [representations] is assigned),
    load_and_annotate_study returns a study exactly when get_study and
    get_study_annotations return, no study annotation is named images, and
    for every image of the study get_image_annotations and
    get_representations return and no annotation of the image is named
    representations. *)
Theorem load_returns_iff accession_id :
  (forall image_id anns a,
      get_image_annotations accession_id image_id = Returns anns ->
      In a anns -> is_dunder (ImageAnnotation.key a) = false) ->
  ((exists study', load_and_annotate_study accession_id = Returns study')
   <-> exists (s : BIAStudy.t) anns,
         get_study accession_id = Returns s
         /\ get_study_annotations accession_id = Returns anns
         /\ (forall a, In a anns -> StudyAnnotation.key a <> "images")
         /\ forall image_id (i : BIAImage.t),
              In (image_id, i) (BIAStudy.images s) ->
              exists image_annotations fetched,
                get_image_annotations accession_id image_id
                = Returns image_annotations
                /\ get_representations accession_id image_id
                   = Returns fetched
                /\ forall a, In a image_annotations ->
                             ImageAnnotation.key a <> "representations").
Proof.
  intros Hplain. split.
  - intros [study' Hload].
    destruct (load_inv _ _ Hload)
      as [s [anns [images' [Hs [Ha [_ [Hloop _]]]]]]].
    exists s, anns. split; [assumption|]. split; [assumption|].
    split; [apply (load_study _ _ _ _ Hload Hs Ha)|].
    intros image_id i Hin.
    apply (proj1 (merge_image_returns_iff accession_id image_id i
                    (Hplain image_id))).
    apply (proj1 (for_each_returns_iff (merge_image accession_id) _)
             (ex_intro _ images' Hloop)).
    apply (proj2 (in_image_items _ _)). exists image_id, i. auto.
  - intros [s [anns [Hs [Ha [Hk Himages]]]]].
    unfold load_and_annotate_study. rewrite Hs. simpl bind.
    rewrite Ha. simpl bind. unfold getattr.
    rewrite (annotate_study_untouched _ _ _ Hk). simpl bind.
    destruct (proj2 (for_each_returns_iff (merge_image accession_id)
                       (map (fun e => (fst e, BIAImage_dict (snd e)))
                            (BIAStudy.images s)))) as [images' ->].
    + intros x Hx. apply (proj1 (in_image_items _ _)) in Hx.
      destruct Hx as [image_id [i [Hin ->]]].
      apply (proj2 (merge_image_returns_iff accession_id image_id i
                      (Hplain image_id))).
      exact (Himages image_id i Hin).
    + simpl. eauto.
Qed.

(** X2: provided no image annotation has a key that begins with two
    underscores, every exception load_and_annotate_study raises is one a
    collaborator raised, or one of the two its own statements raise: the
    AttributeError of [.items()] on the str a study annotation named images
    left, or the TypeError of [+=] on the str an image annotation named
    representations left.  In the last three cases get_study and
    get_study_annotations had returned and the images before the failing
    one had gone through. *)
Theorem load_raises_inv accession_id e :
  (forall image_id anns a,
      get_image_annotations accession_id image_id = Returns anns ->
      In a anns -> is_dunder (ImageAnnotation.key a) = false) ->
  load_and_annotate_study accession_id = Raises e ->
  get_study accession_id = Raises e
  \/ exists s : BIAStudy.t,
       get_study accession_id = Returns s
       /\ (get_study_annotations accession_id = Raises e
           \/ exists anns,
                get_study_annotations accession_id = Returns anns
                /\ ((exists a, In a anns
                               /\ StudyAnnotation.key a = "images"
                               /\ e = AttributeError "str" "items")
                    \/ exists done image_id (i : BIAImage.t) rest merged,
                         BIAStudy.images s = done ++ (image_id, i) :: rest
                         /\ for_each (merge_image accession_id)
                              (map (fun e => (fst e, BIAImage_dict (snd e)))
                                   done)
                            = Returns merged
                         /\ (get_image_annotations accession_id image_id
                             = Raises e
                             \/ exists image_annotations,
                                  get_image_annotations accession_id image_id
                                  = Returns image_annotations
                                  /\ (get_representations accession_id
                                        image_id = Raises e
                                      \/ exists fetched a,
                                           get_representations accession_id
                                             image_id = Returns fetched
                                           /\ In a image_annotations
                                           /\ ImageAnnotation.key a
                                              = "representations"
                                           /\ e = TypeError
                                                 "unsupported operand type(s) for +=")))).
Proof.
  intros Hplain. unfold load_and_annotate_study.
  destruct (get_study accession_id) as [s|e0]; simpl bind;
    [|intros H; inversion H; auto].
  intros H. right. exists s. split; [reflexivity|].
  destruct (get_study_annotations accession_id) as [anns|e0]; simpl bind in H;
    [|inversion H; auto].
  right. exists anns. split; [reflexivity|].
  unfold getattr in H.
  destruct (images_after_update (OME := OME) s anns)
    as [E|[a [Ha [Hk E]]]];
    rewrite E in H; simpl in H.
  - right.
    destruct (for_each _ _) as [images'|e0] eqn:Hloop; simpl in H;
      [discriminate|].
    inversion H; subst e0.
    destruct (for_each_raises_inv _ _ _ Hloop)
      as [done [x [rest [merged [Hsplit [Hdone Hx]]]]]].
    apply map_eq_app in Hsplit.
    destruct Hsplit as [done0 [tail [Himages [<- Htail]]]].
    destruct tail as [|[image_id i] rest0]; [discriminate|].
    simpl in Htail. inversion Htail; subst x rest.
    exists done0, image_id, i, rest0, merged.
    split; [assumption|]. split; [assumption|].
    exact (merge_image_raises_inv accession_id image_id i e
             (Hplain image_id) Hx).
  - left. inversion H. exists a. auto.
Qed.

(** X3: once get_study and get_study_annotations have returned, a study
    annotation named images makes load_and_annotate_study raise the
    AttributeError of [.items()] on a str, whatever the study and the other
    collaborators hold. *)
Theorem annotation_named_images_raises accession_id (s : BIAStudy.t) anns a :
  get_study accession_id = Returns s ->
  get_study_annotations accession_id = Returns anns ->
  In a anns ->
  StudyAnnotation.key a = "images" ->
  load_and_annotate_study accession_id
  = Raises (AttributeError "str" "items").
Proof.
  intros Hs Ha Hin Hk. unfold load_and_annotate_study.
  rewrite Hs. simpl bind. rewrite Ha. simpl bind. unfold getattr.
  rewrite annotate_study_each.
  destruct (assign_each_written StudyAnnotation.key study_value anns
              (BIAStudy_dict s) a Hin) as [b [_ [_ E]]].
  rewrite Hk in E. rewrite E. reflexivity.
Qed.

(** X4: when the loop over the images is reached and the images before
    some image went through, an annotation of that image named
    representations makes load_and_annotate_study raise the TypeError of
    [+=] on a str, provided both collaborators return for the image (what
    get_representations raises would come first). *)
Theorem annotation_named_representations_raises accession_id
    (s : BIAStudy.t) anns done image_id (i : BIAImage.t) rest merged
    image_annotations fetched a :
  get_study accession_id = Returns s ->
  get_study_annotations accession_id = Returns anns ->
  (forall b, In b anns -> StudyAnnotation.key b <> "images") ->
  BIAStudy.images s = done ++ (image_id, i) :: rest ->
  for_each (merge_image accession_id)
    (map (fun e => (fst e, BIAImage_dict (snd e))) done)
  = Returns merged ->
  get_image_annotations accession_id image_id = Returns image_annotations ->
  get_representations accession_id image_id = Returns fetched ->
  In a image_annotations ->
  ImageAnnotation.key a = "representations" ->
  load_and_annotate_study accession_id
  = Raises (TypeError "unsupported operand type(s) for +=").
Proof.
  intros Hs Ha Hk Himages Hdone Hia Hf Hin Hrep.
  unfold load_and_annotate_study.
  rewrite Hs. simpl bind. rewrite Ha. simpl bind. unfold getattr.
  rewrite (annotate_study_untouched _ _ _ Hk). simpl bind.
  rewrite Himages, map_app. simpl map.
  rewrite (for_each_raises _ _ _ _ _
             (TypeError "unsupported operand type(s) for +=") Hdone);
    [reflexivity|].
  exact (merge_image_named_representations _ _ _ _ _ _ Hia Hf Hin Hrep).
Qed.

(** X5: the returned study holds the images get_study gave, under the
    same ids and in the same order: the merge adds no image, drops none and
    moves none. *)
Theorem image_ids_are_kept accession_id (study' : obj OME) (s : BIAStudy.t) :
  load_and_annotate_study accession_id = Returns study' ->
  get_study accession_id = Returns s ->
  exists images',
    dict_get study' "images" = Some (VImages images')
    /\ dict_keys images' = dict_keys (BIAStudy.images s).
Proof.
  intros Hload Hs.
  destruct (load_inv _ _ Hload)
    as [s0 [anns [images' [Hs0 [_ [_ [Hloop ->]]]]]]].
  rewrite Hs in Hs0. inversion Hs0; subst s0.
  exists images'. rewrite dict_get_set_eq. split; [reflexivity|].
  etransitivity;
    [exact (for_each_keys _ _ _ (merge_image_keeps_key accession_id) Hloop)|].
  unfold dict_keys. rewrite map_map. reflexivity.
Qed.

(** X6: the merge writes only what it is told to.  In the returned study
    an attribute other than images that no study annotation names is as
    get_study gave it, and in each of its images an attribute other than
    representations that no annotation of the image names is as get_study
    gave it. *)
Theorem unnamed_attributes_are_kept accession_id (study' : obj OME)
    (s : BIAStudy.t) :
  load_and_annotate_study accession_id = Returns study' ->
  get_study accession_id = Returns s ->
  (forall anns k,
      get_study_annotations accession_id = Returns anns ->
      k <> "images" ->
      (forall a, In a anns -> StudyAnnotation.key a <> k) ->
      dict_get study' k = dict_get (BIAStudy_dict s) k)
  /\ (forall image_id (i : BIAImage.t),
        dict_get (BIAStudy.images s) image_id = Some i ->
        exists images' image',
          dict_get study' "images" = Some (VImages images')
          /\ dict_get images' image_id = Some image'
          /\ forall image_annotations k,
               get_image_annotations accession_id image_id
               = Returns image_annotations ->
               k <> "representations" ->
               (forall a, In a image_annotations ->
                          ImageAnnotation.key a <> k) ->
               dict_get image' k = dict_get (BIAImage_dict i) k).
Proof.
  intros Hload Hs. split.
  - intros anns k Ha Hk Hnot.
    destruct (load_study _ _ _ _ Hload Hs Ha) as [_ Hframe].
    rewrite (Hframe k Hk). now apply annotate_study_untouched.
  - intros image_id i Hi.
    destruct (load_image _ _ _ _ _ Hload Hs Hi)
      as [images' [anns0 [fetched [Himg [Ha0 [_ [_ Hg]]]]]]].
    eexists images', _. split; [exact Himg|]. split; [exact Hg|].
    intros image_annotations k Ha Hk Hnot.
    rewrite Ha in Ha0. inversion Ha0; subst anns0.
    rewrite dict_get_set_neq by congruence.
    now apply annotate_image_untouched.
Qed.

Lemma dict_keys_set_present {V : Type} (d : dict V) k v :
  In k (dict_keys d) -> dict_keys (dict_set d k v) = dict_keys d.
Proof.
  intros Hin. rewrite dict_keys_set.
  destruct (in_dec string_dec k (dict_keys d)); [reflexivity|contradiction].
Qed.

Lemma NoDup_BIAStudy_fields : NoDup BIAStudy_fields.
Proof.
  change BIAStudy_fields with (nodup string_dec BIAStudy_fields).
  apply NoDup_nodup.
Qed.

Lemma NoDup_BIAImage_fields : NoDup BIAImage_fields.
Proof.
  change BIAImage_fields with (nodup string_dec BIAImage_fields).
  apply NoDup_nodup.
Qed.

(** X7: the merge keeps the namespaces in order.  The attribute names of
    the returned study are the declared fields of BIAStudy, in declaration
    order, followed by the keys of the study annotations that are no
    declared field, and no name stands twice; the same holds of each image
    of the returned study, with the declared fields of BIAImage and the
    keys of the annotations of the image. *)
Theorem namespaces_keep_declared_fields accession_id (study' : obj OME)
    (s : BIAStudy.t) anns :
  load_and_annotate_study accession_id = Returns study' ->
  get_study accession_id = Returns s ->
  get_study_annotations accession_id = Returns anns ->
  (NoDup (dict_keys study')
   /\ exists added,
        dict_keys study' = BIAStudy_fields ++ added
        /\ forall k, In k added
                     <-> (exists a, In a anns /\ StudyAnnotation.key a = k)
                         /\ ~ In k BIAStudy_fields)
  /\ (forall image_id (i : BIAImage.t) image_annotations,
        dict_get (BIAStudy.images s) image_id = Some i ->
        get_image_annotations accession_id image_id
        = Returns image_annotations ->
        exists images' image',
          dict_get study' "images" = Some (VImages images')
          /\ dict_get images' image_id = Some image'
          /\ NoDup (dict_keys image')
          /\ exists added,
               dict_keys image' = BIAImage_fields ++ added
               /\ forall k, In k added
                            <-> (exists a, In a image_annotations
                                           /\ ImageAnnotation.key a = k)
                                /\ ~ In k BIAImage_fields).
Proof.
  intros Hload Hs Ha. split.
  - destruct (load_inv _ _ Hload)
      as [s0 [anns0 [images' [Hs0 [Ha0 [_ [_ ->]]]]]]].
    rewrite Hs in Hs0. inversion Hs0; subst s0.
    rewrite Ha in Ha0. inversion Ha0; subst anns0.
    assert (Hkeys : dict_keys (dict_set (annotate_study (BIAStudy_dict s)
                                           anns) "images" (VImages images'))
                    = dict_keys (annotate_study (BIAStudy_dict s) anns)).
    { apply dict_keys_set_present. rewrite annotate_study_each.
      apply assign_each_keeps_key. simpl. tauto. }
    rewrite Hkeys, annotate_study_each. split.
    + apply assign_each_NoDup. apply NoDup_BIAStudy_fields.
    + apply (assign_each_keys StudyAnnotation.key study_value).
  - intros image_id i image_annotations Hi Hia.
    destruct (load_image _ _ _ _ _ Hload Hs Hi)
      as [images' [anns0 [fetched [Himg [Ha0 [_ [_ Hg]]]]]]].
    rewrite Hia in Ha0. inversion Ha0; subst anns0.
    eexists images', _. split; [exact Himg|]. split; [exact Hg|].
    assert (Hkeys : dict_keys (dict_set (annotate_image (BIAImage_dict i)
                                           image_annotations)
                                 "representations"
                                 (VReps (BIAImage.representations i
                                         ++ fetched)))
                    = dict_keys (annotate_image (BIAImage_dict i)
                                   image_annotations)).
    { apply dict_keys_set_present. rewrite annotate_image_each.
      apply assign_each_keeps_key. simpl. tauto. }
    rewrite Hkeys, annotate_image_each. split.
    + apply assign_each_NoDup. apply NoDup_BIAImage_fields.
    + apply (assign_each_keys ImageAnnotation.key image_value).
Qed.

(** X8: annotations applied in two batches, one after the other, leave
    what the two lists applied as one leave; this holds of the study-level
    update through a dictionary as of the image-level assignments. *)
Theorem annotations_in_batches (target : obj OME)
    (study_first study_then : list StudyAnnotation.t)
    (image_first image_then : list ImageAnnotation.t) :
  annotate_study (annotate_study target study_first) study_then
  = annotate_study target (study_first ++ study_then)
  /\ annotate_image (annotate_image target image_first) image_then
     = annotate_image target (image_first ++ image_then).
Proof.
  split.
  - rewrite !annotate_study_each. symmetry. apply assign_each_app.
  - rewrite !annotate_image_each. symmetry. apply assign_each_app.
Qed.

Lemma assign_each_idempotent {A : Type} (key : A -> string)
    (val : A -> attr_value OME) (l : list A) (d : obj OME) :
  NoDup (dict_keys d) ->
  assign_each key val l (assign_each key val l d) = assign_each key val l d.
Proof.
  intros Hnd. apply dict_ext.
  - now apply assign_each_NoDup, assign_each_NoDup.
  - apply assign_each_keys_present. intros a Ha.
    now apply assign_each_has_key.
  - intros k. destruct (key_named_dec key l k) as [Hnamed|Hnot].
    + now apply assign_each_named.
    + now rewrite assign_each_other.
Qed.

(** X9: applying a list of annotations a second time changes nothing, on
    a namespace that holds each name once (as every __dict__ does): values,
    names and their order are as after the first time.  This holds of the
    study-level update as of the image-level assignments. *)
Theorem annotations_are_idempotent (target : obj OME)
    (study_annotations : list StudyAnnotation.t)
    (image_annotations : list ImageAnnotation.t) :
  NoDup (dict_keys target) ->
  annotate_study (annotate_study target study_annotations) study_annotations
  = annotate_study target study_annotations
  /\ annotate_image (annotate_image target image_annotations)
       image_annotations
     = annotate_image target image_annotations.
Proof.
  intros Hnd. split.
  - rewrite !annotate_study_each. now apply assign_each_idempotent.
  - rewrite !annotate_image_each. now apply assign_each_idempotent.
Qed.

Lemma dict_set_same {V : Type} (d : dict V) k v :
  dict_get d k = Some v -> dict_set d k v = d.
Proof.
  induction d as [|[k0 v0] d IH]; simpl; [discriminate|].
  destruct (String.eqb k0 k).
  - intros H. inversion H. reflexivity.
  - intros H. now rewrite IH.
Qed.

(** X10: on a study without images the merge is the study-level step
    alone: when get_study and get_study_annotations return and no study
    annotation is named images, load_and_annotate_study returns the study
    with the study annotations applied, whatever get_image_annotations and
    get_representations would answer or raise. *)
Theorem study_without_images accession_id (s : BIAStudy.t) anns :
  get_study accession_id = Returns s ->
  get_study_annotations accession_id = Returns anns ->
  (forall a, In a anns -> StudyAnnotation.key a <> "images") ->
  BIAStudy.images s = [] ->
  load_and_annotate_study accession_id
  = Returns (annotate_study (BIAStudy_dict s) anns).
Proof.
  intros Hs Ha Hk Hempty. unfold load_and_annotate_study.
  rewrite Hs. simpl bind. rewrite Ha. simpl bind. unfold getattr.
  rewrite (annotate_study_untouched _ _ _ Hk). simpl bind.
  rewrite Hempty. simpl. f_equal. apply dict_set_same.
  rewrite (annotate_study_untouched _ _ _ Hk). simpl. now rewrite Hempty.
Qed.

End MergeFurther.

(** * Further properties of ome_metadata *)

Section OmeMetadataFurther.
Context {OME : Type} {url : UrlLib} {remote : Remote OME}.
Implicit Types (self : obj OME) (net : list string).

(* one call of _ome_xml_url_parse is one request *)
Lemma _ome_xml_url_parse_requests uri net :
  snd (_ome_xml_url_parse uri net) = net ++ [uri].
Proof.
  unfold _ome_xml_url_parse.
  destruct (requests_get net uri) as [r|]; [|reflexivity].
  destruct (Z.eqb (Response.status_code r) 200); reflexivity.
Qed.

(** X11: an access of ome_metadata either leaves the image as it is,
    making a request only when it then raises, or it made exactly one
    request, stored the parsed document under [ome_metadata] and returned
    it.  Either way no attribute other than [ome_metadata] changes, and an
    access that raises changes nothing. *)
Theorem ome_metadata_touches_only_its_entry self net r self' net' :
  ome_metadata self net = (r, self', net') ->
  ((self' = self
    /\ (net' = net
        \/ exists uri e, net' = net ++ [uri] /\ r = Raises e))
   \/ exists uri document,
        r = Returns (VOME document)
        /\ self' = dict_set self "ome_metadata" (VOME document)
        /\ net' = net ++ [uri])
  /\ (forall k, k <> "ome_metadata" -> dict_get self' k = dict_get self k)
  /\ (forall e, r = Raises e -> self' = self).
Proof.
  intros H.
  assert (Hcases :
            (self' = self
             /\ (net' = net
                 \/ exists uri e, net' = net ++ [uri] /\ r = Raises e))
            \/ exists uri document,
                 r = Returns (VOME document)
                 /\ self' = dict_set self "ome_metadata" (VOME document)
                 /\ net' = net ++ [uri]).
  { revert H. unfold ome_metadata.
    destruct (is_None _); [|intros H; inversion H; auto].
    destruct (bind _ _) as [[|r0 rest]|e];
      try (intros H; inversion H; auto; fail).
    destruct (ome_metadata_uri_of (last rest r0)) as [uri|e];
      [|intros H; inversion H; auto].
    pose proof (_ome_xml_url_parse_requests uri net) as Hnet.
    destruct (_ome_xml_url_parse uri net) as [[document|e] net0];
      simpl in Hnet; subst net0; intros H; inversion H; subst.
    - right. eauto.
    - left. split; [reflexivity|]. right. eauto. }
  split; [exact Hcases|]. split.
  - intros k Hk. destruct Hcases as [[-> _]|[uri [document [_ [-> _]]]]];
      [reflexivity|].
    apply dict_get_set_neq. congruence.
  - intros e ->. destruct Hcases as [[-> _]|[uri [document [E _]]]];
      [reflexivity|discriminate].
Qed.

(** X12: when the URI of the representation popped cannot be parsed (a
    list of URIs, for one), the access raises what urlparse raises, makes no
    request and stores nothing. *)
Theorem ome_metadata_unparsable_uri self net reps pre ngff_rep post e :
  dict_get self "ome_metadata" = None
  \/ dict_get self "ome_metadata" = Some VNone ->
  dict_get self "representations" = Some (VReps reps) ->
  reps = pre ++ ngff_rep :: post ->
  BIAImageRepresentation.type ngff_rep = Some "ome_ngff" ->
  (forall r, In r post -> BIAImageRepresentation.type r <> Some "ome_ngff") ->
  urlparse (BIAImageRepresentation.uri ngff_rep) = Raises e ->
  ome_metadata self net = (Raises e, self, net).
Proof.
  intros Hcache Hreps Hsplit Htype Hpost Hparse.
  rewrite (ome_metadata_miss self net reps pre ngff_rep post)
    by assumption.
  unfold ome_metadata_uri_of. now rewrite Hparse.
Qed.

(** X13: a failed fetch is not remembered.  While the remote side answers
    the metadata URI with a status other than 200, every access of an image
    with nothing under [ome_metadata] requests the URI again and raises the
    AssertionError showing the status, the URI and the content: n accesses
    make n requests and leave the image as it is. *)
Theorem ome_metadata_failed_fetch_is_retried self net reps pre ngff_rep post
    uri response n :
  dict_get self "ome_metadata" = None
  \/ dict_get self "ome_metadata" = Some VNone ->
  dict_get self "representations" = Some (VReps reps) ->
  reps = pre ++ ngff_rep :: post ->
  BIAImageRepresentation.type ngff_rep = Some "ome_ngff" ->
  (forall r, In r post -> BIAImageRepresentation.type r <> Some "ome_ngff") ->
  ome_metadata_uri_of ngff_rep = Returns uri ->
  (forall history, requests_get history uri = Returns response) ->
  Response.status_code response <> 200%Z ->
  ome_metadata_times n self net
  = (repeat (Raises (AssertionError (Response.status_code response) uri
                                    (Response.content response))) n,
     self, net ++ repeat uri n).
Proof.
  intros Hcache Hreps Hsplit Htype Hpost Huri Hget Hstatus.
  revert net. induction n as [|n IH]; intros net.
  - simpl. now rewrite app_nil_r.
  - simpl ome_metadata_times.
    rewrite (ome_metadata_miss self net reps pre ngff_rep post)
      by assumption.
    rewrite Huri. unfold _ome_xml_url_parse. rewrite Hget.
    apply Z.eqb_neq in Hstatus. rewrite Hstatus.
    rewrite IH. simpl repeat. now rewrite <- app_assoc.
Qed.

(* an access reads two entries of the namespace and no other *)
Lemma ome_metadata_reads self1 self2 net :
  dict_get self1 "ome_metadata" = dict_get self2 "ome_metadata" ->
  dict_get self1 "representations" = dict_get self2 "representations" ->
  fst (fst (ome_metadata self1 net)) = fst (fst (ome_metadata self2 net))
  /\ snd (ome_metadata self1 net) = snd (ome_metadata self2 net).
Proof.
  intros Hm Hr. unfold ome_metadata, getattr. rewrite Hm, Hr.
  destruct (is_None _); [|auto].
  destruct (bind _ _) as [[|r0 rest]|e]; auto.
  destruct (ome_metadata_uri_of (last rest r0)) as [uri|e]; auto.
  destruct (_ome_xml_url_parse uri net) as [[document|e] net0]; auto.
Qed.

End OmeMetadataFurther.

(** * The property on a merged image *)

Section MergedAccess.
Context {OME : Type} {url : UrlLib} {remote : Remote OME}
        {collab : Collaborators}.

(** X14: on an image of the returned study none of whose annotations is
    named ome_metadata, an access of ome_metadata returns or raises, and
    requests, what it would on the image as get_study gave it with the
    fetched representations appended: the other annotations have no say. *)
Theorem merged_image_answers_as_appended accession_id (study' : obj OME)
    (s : BIAStudy.t) image_id (i : BIAImage.t) image_annotations fetched :
  load_and_annotate_study accession_id = Returns study' ->
  get_study accession_id = Returns s ->
  dict_get (BIAStudy.images s) image_id = Some i ->
  get_image_annotations accession_id image_id = Returns image_annotations ->
  get_representations accession_id image_id = Returns fetched ->
  (forall a, In a image_annotations ->
             ImageAnnotation.key a <> "ome_metadata") ->
  exists images' image',
    dict_get study' "images" = Some (VImages images')
    /\ dict_get images' image_id = Some image'
    /\ forall net,
         let appended :=
           dict_set (BIAImage_dict i) "representations"
             (VReps (BIAImage.representations i ++ fetched)) in
         fst (fst (ome_metadata image' net))
         = fst (fst (ome_metadata appended net))
         /\ snd (ome_metadata image' net) = snd (ome_metadata appended net).
Proof.
  intros Hload Hs Hi Hia Hf Hnot.
  destruct (load_image _ _ _ _ _ Hload Hs Hi)
    as [images' [anns0 [fetched0 [Himg [Ha0 [Hf0 [_ Hg]]]]]]].
  rewrite Hia in Ha0. inversion Ha0; subst anns0.
  rewrite Hf in Hf0. inversion Hf0; subst fetched0.
  eexists images', _. split; [exact Himg|]. split; [exact Hg|].
  intros net appended. apply ome_metadata_reads.
  - subst appended. rewrite !dict_get_set_neq by discriminate.
    rewrite annotate_image_each.
    now rewrite (assign_each_other ImageAnnotation.key image_value).
  - subst appended. now rewrite !dict_get_set_eq.
Qed.


End MergedAccess.

(** * The further properties on the examples *)

Lemma load_demo_fetching_ngff :
  load_and_annotate_study (collab := DemoMore.archive_fetching_ngff)
    "S-BIAD1"
  = Returns DemoMore.merged_fetching_ngff.
Proof. vm_compute. reflexivity. Defined.

(* the image annotations of the example archives have plain keys *)
Lemma archive_with_plain about_study about_IM3 :
  (forall a, In a about_IM3 -> is_dunder (ImageAnnotation.key a) = false) ->
  forall image_id anns a,
    get_image_annotations
      (Collaborators := Demo.archive_with about_study (Returns about_IM3))
      "S-BIAD1" image_id = Returns anns ->
    In a anns -> is_dunder (ImageAnnotation.key a) = false.
Proof.
  intros H3 image_id anns a. simpl.
  destruct (String.eqb image_id "IM1");
    [|destruct (String.eqb image_id "IM2")];
    intros E; inversion E; subst anns.
  - intros [<-|[<-|[]]]; reflexivity.
  - intros [<-|[<-|[<-|[]]]]; reflexivity.
  - apply H3.
Defined.

(** Every call returns in the archive of the examples. *)
Lemma load_returns_iff_example :
  exists study',
    load_and_annotate_study (OME := string) (collab := Demo.archive)
      "S-BIAD1" = Returns study'.
Proof.
  apply (proj2 (load_returns_iff (OME := string) (collab := Demo.archive)
                  "S-BIAD1"
                  (archive_with_plain _ Demo.IM3_annotations
                     ltac:(intros a [<-|[]]; reflexivity)))).
  exists Demo.study, Demo.study_annotations.
  split; [reflexivity|]. split; [reflexivity|]. split.
  - intros a [<-|[<-|[<-|[]]]]; discriminate.
  - intros image_id i [E|[E|[E|[]]]]; inversion E; subst;
      eexists _, _; (split; [reflexivity|]); (split; [reflexivity|]).
    + intros a [<-|[<-|[]]]; discriminate.
    + intros a [<-|[<-|[<-|[]]]]; discriminate.
    + intros a [<-|[]]; discriminate.
Defined.

(** The third image is annotated with a key named representations. *)
Lemma load_raises_inv_example :
  load_and_annotate_study (OME := string)
    (collab := DemoMore.archive_naming_representations) "S-BIAD1"
  = Raises (TypeError "unsupported operand type(s) for +=")
  /\ exists a,
       In a [Demo.image_annotation "IM3" "representations" "lost"]
       /\ ImageAnnotation.key a = "representations".
Proof.
  assert (Hload :
            load_and_annotate_study (OME := string)
              (collab := DemoMore.archive_naming_representations) "S-BIAD1"
            = Raises (TypeError "unsupported operand type(s) for +="))
    by (vm_compute; reflexivity).
  split; [exact Hload|].
  destruct (load_raises_inv (OME := string)
              (collab := DemoMore.archive_naming_representations)
              "S-BIAD1" _
              (archive_with_plain _
                 [Demo.image_annotation "IM3" "representations" "lost"]
                 ltac:(intros a [<-|[]]; reflexivity))
              Hload)
    as [H|[s [_ [H|[anns [_ [[a [_ [_ H]]]|H]]]]]]]; try discriminate.
  exists (Demo.image_annotation "IM3" "representations" "lost").
  split; [now left|reflexivity].
Defined.

(** A study annotation of the archive is named images. *)
Lemma annotation_named_images_raises_example :
  load_and_annotate_study (OME := string)
    (collab := DemoMore.archive_naming_images) "S-BIAD1"
  = Raises (AttributeError "str" "items").
Proof.
  exact (annotation_named_images_raises (OME := string)
           (collab := DemoMore.archive_naming_images) "S-BIAD1" Demo.study
           [ StudyAnnotation.mk "S-BIAD1" "organism" "mouse";
             StudyAnnotation.mk "S-BIAD1" "images" "none" ]
           (StudyAnnotation.mk "S-BIAD1" "images" "none")
           eq_refl eq_refl (or_intror (or_introl eq_refl)) eq_refl).
Defined.

(** The first two images go through; the third is annotated with a key
    named representations. *)
Lemma annotation_named_representations_raises_example :
  load_and_annotate_study (OME := string)
    (collab := DemoMore.archive_naming_representations) "S-BIAD1"
  = Raises (TypeError "unsupported operand type(s) for +=").
Proof.
  refine (annotation_named_representations_raises (OME := string)
            (collab := DemoMore.archive_naming_representations) "S-BIAD1"
            Demo.study Demo.study_annotations
            [("IM1", Demo.IM1); ("IM2", Demo.IM2)] "IM3" Demo.IM3 []
            (firstn 2 (Demo.merged_images Demo.merged))
            [Demo.image_annotation "IM3" "representations" "lost"] []
            (Demo.image_annotation "IM3" "representations" "lost")
            eq_refl eq_refl _ eq_refl _ eq_refl eq_refl
            (or_introl eq_refl) eq_refl).
  - intros b [<-|[<-|[<-|[]]]]; discriminate.
  - vm_compute. reflexivity.
Defined.

(** The three images of the example, in their order. *)
Lemma image_ids_are_kept_example :
  exists images',
    dict_get Demo.merged "images" = Some (VImages images')
    /\ dict_keys images' = ["IM1"; "IM2"; "IM3"].
Proof.
  exact (image_ids_are_kept (collab := Demo.archive) "S-BIAD1" Demo.merged
           Demo.study load_demo eq_refl).
Defined.

(** No study annotation of the example names the title, and no annotation
    of IM1 names its id. *)
Lemma unnamed_attributes_are_kept_example :
  dict_get Demo.merged "title" = Some (VStr "A study")
  /\ exists images' image',
       dict_get Demo.merged "images" = Some (VImages images')
       /\ dict_get images' "IM1" = Some image'
       /\ dict_get image' "id" = Some (VStr "IM1").
Proof.
  destruct (unnamed_attributes_are_kept (collab := Demo.archive) "S-BIAD1"
              Demo.merged Demo.study load_demo eq_refl) as [Hstudy Himage].
  split.
  - refine (Hstudy Demo.study_annotations "title" eq_refl _ _);
      [discriminate|].
    intros a [<-|[<-|[<-|[]]]]; discriminate.
  - destruct (Himage "IM1" Demo.IM1 eq_refl)
      as [images' [image' [H1 [H2 H3]]]].
    exists images', image'. split; [exact H1|]. split; [exact H2|].
    refine (H3 Demo.IM1_annotations "id" eq_refl _ _); [discriminate|].
    intros a [<-|[<-|[]]]; discriminate.
Defined.

(** The study annotations of the example name organism, a declared field,
    and curator, which is none. *)
Lemma namespaces_keep_declared_fields_example :
  NoDup (dict_keys Demo.merged)
  /\ exists added,
       dict_keys Demo.merged = BIAStudy_fields ++ added
       /\ (In "curator" added <-> (exists a, In a Demo.study_annotations
                                             /\ StudyAnnotation.key a
                                                = "curator")
                                  /\ ~ In "curator" BIAStudy_fields).
Proof.
  destruct (proj1 (namespaces_keep_declared_fields (collab := Demo.archive)
                     "S-BIAD1" Demo.merged Demo.study Demo.study_annotations
                     load_demo eq_refl eq_refl))
    as [Hnd [added [Hkeys Hadded]]].
  split; [exact Hnd|]. exists added. split; [exact Hkeys|].
  exact (Hadded "curator").
Defined.

(** The study annotations of the example, applied twice to the study. *)
Lemma annotations_are_idempotent_example :
  annotate_study (annotate_study (BIAStudy_dict (OME := string) Demo.study)
                    Demo.study_annotations) Demo.study_annotations
  = annotate_study (BIAStudy_dict Demo.study) Demo.study_annotations
  /\ annotate_image (annotate_image (BIAStudy_dict (OME := string)
                                      Demo.study) Demo.IM2_annotations)
       Demo.IM2_annotations
     = annotate_image (BIAStudy_dict Demo.study) Demo.IM2_annotations.
Proof.
  apply (annotations_are_idempotent (BIAStudy_dict Demo.study)
           Demo.study_annotations Demo.IM2_annotations).
  apply NoDup_BIAStudy_fields.
Defined.

(** A study without images in an archive whose image collaborators are
    out of reach. *)
Lemma study_without_images_example :
  load_and_annotate_study (OME := string)
    (collab := DemoMore.archive_of_empty_study) "S-BIAD2"
  = Returns DemoMore.merged_empty_study
  /\ dict_get DemoMore.merged_empty_study "organism" = Some (VStr "yeast").
Proof.
  split; [|reflexivity].
  refine (study_without_images (OME := string)
            (collab := DemoMore.archive_of_empty_study) "S-BIAD2"
            DemoMore.study_without_images
            [StudyAnnotation.mk "S-BIAD2" "organism" "yeast"]
            eq_refl eq_refl _ eq_refl).
  intros a [<-|[]]; discriminate.
Defined.

(** The first access on IM2: one request, the document stored, the
    representations as they were. *)
Lemma ome_metadata_touches_only_its_entry_example :
  (exists uri document,
      Returns (VOME "<OME>https://host/b/OME/METADATA.ome.xml")
      = Returns (VOME document)
      /\ dict_set (BIAImage_dict Demo.IM2) "ome_metadata"
           (VOME "<OME>https://host/b/OME/METADATA.ome.xml")
         = dict_set (BIAImage_dict Demo.IM2) "ome_metadata" (VOME document)
      /\ ["https://host/b/OME/METADATA.ome.xml"] = [] ++ [uri])
  /\ dict_get (dict_set (BIAImage_dict (OME := string) Demo.IM2)
                 "ome_metadata"
                 (VOME "<OME>https://host/b/OME/METADATA.ome.xml"))
       "representations"
     = dict_get (BIAImage_dict Demo.IM2) "representations".
Proof.
  destruct (ome_metadata_touches_only_its_entry (url := Demo.url)
              (remote := Demo.serving) (BIAImage_dict Demo.IM2) []
              (Returns (VOME "<OME>https://host/b/OME/METADATA.ome.xml"))
              (dict_set (BIAImage_dict Demo.IM2) "ome_metadata"
                 (VOME "<OME>https://host/b/OME/METADATA.ome.xml"))
              ["https://host/b/OME/METADATA.ome.xml"] eq_refl)
    as [[[_ [H|[uri [e [_ H]]]]]|H] [Hframe _]]; try discriminate.
  split; [exact H|].
  apply Hframe. discriminate.
Defined.

(** The representation of type ome_ngff of IM4 has a list of URIs. *)
Lemma ome_metadata_unparsable_uri_example :
  ome_metadata (url := Demo.url) (remote := Demo.serving)
    (BIAImage_dict DemoMore.IM4) []
  = (Raises (AttributeError "list" "decode"), BIAImage_dict DemoMore.IM4, []).
Proof.
  exact (ome_metadata_unparsable_uri (url := Demo.url)
           (remote := Demo.serving) (BIAImage_dict DemoMore.IM4) []
           [Demo.raw_rep; DemoMore.ngff_list] [Demo.raw_rep]
           DemoMore.ngff_list [] (AttributeError "list" "decode")
           (or_introl eq_refl) eq_refl eq_refl eq_refl
           (fun r (F : In r []) => match F with end) eq_refl).
Defined.

(** Three accesses on IM2 while the remote side answers 503. *)
Lemma ome_metadata_failed_fetch_is_retried_example :
  ome_metadata_times (url := Demo.url) (remote := Demo.refusing) 3
    (BIAImage_dict Demo.IM2) []
  = (repeat (Raises (AssertionError 503
                       "https://host/b/OME/METADATA.ome.xml" "unavailable"))
       3,
     BIAImage_dict Demo.IM2,
     [] ++ repeat "https://host/b/OME/METADATA.ome.xml" 3).
Proof.
  refine (ome_metadata_failed_fetch_is_retried (url := Demo.url)
            (remote := Demo.refusing) (BIAImage_dict Demo.IM2) []
            [Demo.ngff_a; Demo.raw_rep; Demo.ngff_b]
            [Demo.ngff_a; Demo.raw_rep] Demo.ngff_b []
            "https://host/b/OME/METADATA.ome.xml"
            (Response.mk 503 "unavailable") 3
            (or_introl eq_refl) eq_refl eq_refl eq_refl
            (fun r (F : In r []) => match F with end) eq_refl
            (fun _ => eq_refl) _).
  discriminate.
Defined.

(** IM2 is annotated with a name, and a representation of type ome_ngff
    and a thumbnail are fetched for it. *)
Lemma merged_image_answers_as_appended_example :
  exists images' image',
    dict_get DemoMore.merged_fetching_ngff "images" = Some (VImages images')
    /\ dict_get images' "IM2" = Some image'
    /\ fst (fst (ome_metadata (url := Demo.url) (remote := Demo.serving)
                   image' []))
       = Returns (VOME "<OME>https://host/c/OME/METADATA.ome.xml")
    /\ snd (ome_metadata (url := Demo.url) (remote := Demo.serving)
              image' [])
       = ["https://host/c/OME/METADATA.ome.xml"].
Proof.
  destruct (merged_image_answers_as_appended (url := Demo.url)
              (remote := Demo.serving)
              (collab := DemoMore.archive_fetching_ngff) "S-BIAD1"
              DemoMore.merged_fetching_ngff Demo.study "IM2" Demo.IM2
              [Demo.image_annotation "IM2" "name" "second"]
              [DemoMore.ngff_c; Demo.thumbnail_rep]
              load_demo_fetching_ngff eq_refl eq_refl eq_refl eq_refl)
    as [images' [image' [H1 [H2 H3]]]].
  - intros a [<-|[]]; discriminate.
  - exists images', image'. split; [exact H1|]. split; [exact H2|].
    destruct (H3 []) as [Hr Hn]. split.
    + rewrite Hr. reflexivity.
    + rewrite Hn. reflexivity.
Defined.


(** * Merges that add nothing, and what a merged image depends on *)

Lemma for_each_same {X : Type} (body : X -> outcome X) (l : list X) :
  (forall x, In x l -> body x = Returns x) ->
  for_each body l = Returns l.
Proof.
  induction l as [|x l IH]; intros H; simpl; [reflexivity|].
  rewrite (H x (or_introl eq_refl)). simpl.
  rewrite IH by (intros x' Hx'; apply H; now right). reflexivity.
Qed.

Section Neutral.
Context {OME : Type} {collab : Collaborators}.

(** X16: a merge of nothing is no change.  When the collaborators return
    no study annotation and, for every image of the study, no annotation
    and no representation, load_and_annotate_study returns the study as
    get_study gave it, every attribute of the study and of its images
    included. *)
Theorem merge_of_nothing accession_id (s : BIAStudy.t) :
  get_study accession_id = Returns s ->
  get_study_annotations accession_id = Returns [] ->
  (forall image_id (i : BIAImage.t),
      In (image_id, i) (BIAStudy.images s) ->
      get_image_annotations accession_id image_id = Returns []
      /\ get_representations accession_id image_id = Returns []) ->
  load_and_annotate_study (OME := OME) accession_id
  = Returns (BIAStudy_dict s).
Proof.
  intros Hs Ha Himages. unfold load_and_annotate_study.
  rewrite Hs. simpl bind. rewrite Ha. simpl bind.
  change (annotate_study (BIAStudy_dict (OME := OME) s) [])
    with (BIAStudy_dict (OME := OME) s).
  simpl getattr. simpl bind.
  rewrite for_each_same; [reflexivity|].
  intros x Hx. apply (proj1 (in_image_items _ _)) in Hx.
  destruct Hx as [image_id [i [Hin ->]]].
  destruct (Himages image_id i Hin) as [Hia Hf].
  rewrite (merge_image_returns accession_id image_id i [] [] Hia Hf)
    by (intros ? []).
  now rewrite app_nil_r.
Qed.

End Neutral.

(** X17: an image of the returned study depends on its own data alone.
    Two archives that hold the same image under an id and answer alike for
    its annotations and its representations return it merged alike,
    whatever else they hold: another study around it, other study
    annotations, other images. *)
Theorem merged_image_is_local {OME : Type} (one other : Collaborators)
    accession_id (study1 study2 : obj OME) (s1 s2 : BIAStudy.t) image_id
    (i : BIAImage.t) :
  load_and_annotate_study (collab := one) accession_id = Returns study1 ->
  load_and_annotate_study (collab := other) accession_id = Returns study2 ->
  get_study (Collaborators := one) accession_id = Returns s1 ->
  get_study (Collaborators := other) accession_id = Returns s2 ->
  dict_get (BIAStudy.images s1) image_id = Some i ->
  dict_get (BIAStudy.images s2) image_id = Some i ->
  get_image_annotations (Collaborators := one) accession_id image_id
  = get_image_annotations (Collaborators := other) accession_id image_id ->
  get_representations (Collaborators := one) accession_id image_id
  = get_representations (Collaborators := other) accession_id image_id ->
  exists images1 images2 image',
    dict_get study1 "images" = Some (VImages images1)
    /\ dict_get study2 "images" = Some (VImages images2)
    /\ dict_get images1 image_id = Some image'
    /\ dict_get images2 image_id = Some image'.
Proof.
  intros Hload1 Hload2 Hs1 Hs2 Hi1 Hi2 Hanns Hreps.
  destruct (load_image (collab := one) _ _ _ _ _ Hload1 Hs1 Hi1)
    as [images1 [anns1 [fetched1 [Himg1 [Ha1 [Hf1 [_ Hg1]]]]]]].
  destruct (load_image (collab := other) _ _ _ _ _ Hload2 Hs2 Hi2)
    as [images2 [anns2 [fetched2 [Himg2 [Ha2 [Hf2 [_ Hg2]]]]]]].
  rewrite Hanns, Ha2 in Ha1. inversion Ha1; subst anns2.
  rewrite Hreps, Hf2 in Hf1. inversion Hf1; subst fetched2.
  eexists images1, images2, _.
  split; [exact Himg1|]. split; [exact Himg2|]. split; [exact Hg1|].
  exact Hg2.
Qed.

(** Two archives of the examples that differ in the study annotations and
    in the annotations of IM3, and agree on IM1. *)
Lemma merged_image_is_local_example :
  exists images1 images2 image',
    dict_get Demo.merged "images" = Some (VImages images1)
    /\ dict_get Demo.merged_unannotated "images" = Some (VImages images2)
    /\ dict_get images1 "IM1" = Some image'
    /\ dict_get images2 "IM1" = Some image'.
Proof.
  exact (merged_image_is_local Demo.archive Demo.archive_unannotated
           "S-BIAD1" Demo.merged Demo.merged_unannotated Demo.study
           Demo.study "IM1" Demo.IM1 load_demo load_demo_unannotated
           eq_refl eq_refl eq_refl eq_refl eq_refl eq_refl).
Defined.

(** The study of the examples in an archive with nothing to add to it. *)
Lemma merge_of_nothing_example :
  load_and_annotate_study (OME := string) (collab := DemoMore.archive_bare)
    "S-BIAD1"
  = Returns (BIAStudy_dict Demo.study).
Proof.
  exact (merge_of_nothing (OME := string) (collab := DemoMore.archive_bare)
           "S-BIAD1" Demo.study eq_refl eq_refl
           (fun _ _ _ => conj eq_refl eq_refl)).
Defined.

(** * Serialization: the text *)

Section JsonTextFacts.
Local Open Scope string_scope.

Lemma append_assoc (a b c : string) : (a ++ b) ++ c = a ++ (b ++ c).
Proof. induction a as [|x a IH]; simpl; [reflexivity|now rewrite IH]. Qed.

Lemma append_nil_r (a : string) : a ++ "" = a.
Proof. induction a as [|x a IH]; simpl; [reflexivity|now rewrite IH]. Qed.

Lemma length_append (a b : string) :
  String.length (a ++ b) = String.length a + String.length b.
Proof. induction a as [|x a IH]; simpl; [reflexivity|now rewrite IH]. Qed.

(** An escape is read back as the character it stands for, whatever the
    character. *)
Lemma scanstring_replace (c : ascii) (tail : string) :
  scanstring (replace c ++ tail)
  = ('(content, after) <- scanstring tail ;;
     Returns (String c content, after)).
Proof.
  destruct c as [b0 b1 b2 b3 b4 b5 b6 b7].
  destruct b0, b1, b2, b3, b4, b5, b6, b7; reflexivity.
Qed.

(** A character ESCAPE does not match is read as itself. *)
Lemma scanstring_literal (c : ascii) (tail : string) :
  ESCAPE c = false ->
  scanstring (String c tail)
  = ('(content, after) <- scanstring tail ;;
     Returns (String c content, after)).
Proof.
  destruct c as [b0 b1 b2 b3 b4 b5 b6 b7].
  destruct b0, b1, b2, b3, b4, b5, b6, b7; intros H;
    solve [discriminate H | reflexivity].
Qed.

Lemma ESCAPE_enough : escapes_enough ESCAPE.
Proof. intros c H. exact H. Qed.

Lemma ESCAPE_ASCII_enough : escapes_enough ESCAPE_ASCII.
Proof.
  intros c.
  destruct c as [b0 b1 b2 b3 b4 b5 b6 b7].
  destruct b0, b1, b2, b3, b4, b5, b6, b7; intros H;
    solve [discriminate H | reflexivity].
Qed.

Lemma scanstring_sub (pattern : ascii -> bool) (s rest : string) :
  escapes_enough pattern ->
  scanstring (sub pattern replace s ++ String quote rest) = Returns (s, rest).
Proof.
  intros Hp. induction s as [|c s IH]; [reflexivity|].
  simpl sub. rewrite append_assoc.
  destruct (pattern c) eqn:Hc.
  - rewrite scanstring_replace, IH. reflexivity.
  - simpl append. rewrite scanstring_literal.
    + rewrite IH. reflexivity.
    + destruct (ESCAPE c) eqn:He; [|reflexivity].
      apply Hp in He. congruence.
Qed.


Lemma delimiter_spec (c : ascii) :
  delimiter c = true ->
  is_digit c = false /\ is_whitespace c = false
  /\ Ascii.eqb c "." = false /\ Ascii.eqb c "e" = false
  /\ Ascii.eqb c "E" = false /\ Ascii.eqb c "-" = false
  /\ Ascii.eqb c "+" = false.
Proof.
  destruct c as [b0 b1 b2 b3 b4 b5 b6 b7].
  destruct b0, b1, b2, b3, b4, b5, b6, b7; intros H;
    solve [discriminate H | repeat split].
Qed.

Lemma digits_delimited (rest : string) :
  delimited rest -> digits rest = ("", rest).
Proof.
  destruct rest as [|c rest]; [reflexivity|]. simpl. intros H.
  now destruct (delimiter_spec c H) as (-> & _).
Qed.

Lemma sign_delimited (b : bool) (rest : string) :
  delimited rest -> sign b rest = ("", rest).
Proof.
  destruct rest as [|c rest]; [reflexivity|]. simpl. intros H.
  destruct (delimiter_spec c H) as (_ & _ & _ & _ & _ & -> & ->).
  now rewrite andb_false_r.
Qed.

Lemma match_frac_delimited (rest : string) :
  delimited rest -> match_frac rest = ("", rest).
Proof.
  destruct rest as [|c rest]; [reflexivity|]. simpl. intros H.
  now destruct (delimiter_spec c H) as (_ & _ & -> & _).
Qed.

Lemma match_exp_delimited (rest : string) :
  delimited rest -> match_exp rest = ("", rest).
Proof.
  destruct rest as [|c rest]; [reflexivity|]. simpl. intros H.
  now destruct (delimiter_spec c H) as (_ & _ & _ & -> & -> & _).
Qed.

Lemma skip_whitespace_delimited (rest : string) :
  delimited rest -> skip_whitespace rest = rest.
Proof.
  destruct rest as [|c rest]; [reflexivity|]. simpl. intros H.
  now destruct (delimiter_spec c H) as (_ & -> & _).
Qed.

(** What follows a run of digits does not change the run. *)
Lemma digits_app (s rest : string) :
  delimited rest ->
  digits (s ++ rest) = (fst (digits s), snd (digits s) ++ rest).
Proof.
  intros H. induction s as [|c s IH]; simpl.
  - now apply digits_delimited.
  - destruct (is_digit c); [|reflexivity].
    rewrite IH. now destruct (digits s).
Qed.

Lemma digits_parts (s : string) : s = fst (digits s) ++ snd (digits s).
Proof.
  induction s as [|c s IH]; simpl; [reflexivity|].
  destruct (is_digit c); [|reflexivity].
  destruct (digits s) as [d r]. simpl in *. now rewrite <- IH.
Qed.

Lemma sign_app (b : bool) (s rest : string) :
  delimited rest ->
  sign b (s ++ rest) = (fst (sign b s), snd (sign b s) ++ rest).
Proof.
  intros H. destruct s as [|c s]; simpl.
  - now apply sign_delimited.
  - now destruct (Ascii.eqb c "-" || negb b && Ascii.eqb c "+").
Qed.

Lemma sign_parts (b : bool) (s : string) :
  s = fst (sign b s) ++ snd (sign b s).
Proof.
  destruct s as [|c s]; simpl; [reflexivity|].
  now destruct (Ascii.eqb c "-" || negb b && Ascii.eqb c "+").
Qed.

Lemma match_integer_app (s rest integer after : string) :
  delimited rest ->
  match_integer s = Some (integer, after) ->
  match_integer (s ++ rest) = Some (integer, after ++ rest).
Proof.
  intros H. unfold match_integer. rewrite (sign_app _ _ _ H).
  destruct (sign true s) as [minus s1]. simpl fst; simpl snd.
  destruct s1 as [|c s1]; [discriminate|].
  cbn [append].
  destruct (Ascii.eqb c "0"); [intros [= <- <-]; reflexivity|].
  destruct (is_digit c); [|discriminate].
  rewrite (digits_app _ _ H). destruct (digits s1) as [d r].
  intros [= <- <-]. reflexivity.
Qed.

Lemma match_integer_parts (s integer after : string) :
  match_integer s = Some (integer, after) -> s = integer ++ after.
Proof.
  unfold match_integer. rewrite (sign_parts true s) at 2.
  destruct (sign true s) as [minus s1]. simpl fst; simpl snd.
  destruct s1 as [|c s1]; [discriminate|].
  destruct (Ascii.eqb c "0") eqn:H0.
  - intros [= <- <-]. apply Ascii.eqb_eq in H0. subst c.
    now rewrite append_assoc.
  - destruct (is_digit c); [|discriminate].
    rewrite (digits_parts s1) at 2. destruct (digits s1) as [d r].
    intros [= <- <-]. now rewrite append_assoc.
Qed.

Lemma match_frac_app (s rest : string) :
  delimited rest ->
  match_frac (s ++ rest) = (fst (match_frac s), snd (match_frac s) ++ rest).
Proof.
  intros H. destruct s as [|c s]; simpl.
  - now apply match_frac_delimited.
  - destruct (Ascii.eqb c "."); [|reflexivity].
    rewrite (digits_app _ _ H). destruct (digits s) as [[|x d] r]; reflexivity.
Qed.

Lemma match_frac_parts (s : string) :
  s = fst (match_frac s) ++ snd (match_frac s).
Proof.
  destruct s as [|c s]; simpl; [reflexivity|].
  destruct (Ascii.eqb c "."); [|reflexivity].
  pose proof (digits_parts s) as Hd.
  destruct (digits s) as [[|x d] r]; simpl in *; [reflexivity|].
  now f_equal.
Qed.

Lemma match_exp_app (s rest : string) :
  delimited rest ->
  match_exp (s ++ rest) = (fst (match_exp s), snd (match_exp s) ++ rest).
Proof.
  intros H. destruct s as [|c s]; simpl.
  - now apply match_exp_delimited.
  - destruct (Ascii.eqb c "e" || Ascii.eqb c "E"); [|reflexivity].
    rewrite (sign_app _ _ _ H). destruct (sign false s) as [pm s1].
    simpl fst; simpl snd.
    rewrite (digits_app _ _ H). destruct (digits s1) as [[|x d] r];
      reflexivity.
Qed.

Lemma match_exp_parts (s : string) :
  s = fst (match_exp s) ++ snd (match_exp s).
Proof.
  destruct s as [|c s]; simpl; [reflexivity|].
  destruct (Ascii.eqb c "e" || Ascii.eqb c "E"); [|reflexivity].
  pose proof (sign_parts false s) as Hs. destruct (sign false s) as [pm s1].
  simpl in Hs.
  pose proof (digits_parts s1) as Hd.
  destruct (digits s1) as [[|x d] r]; simpl in *; [reflexivity|].
  f_equal. rewrite Hs, Hd. now rewrite append_assoc.
Qed.

(** What follows a number does not change the match. *)
Lemma match_number_app (s rest integer frac exp after : string) :
  delimited rest ->
  match_number s = Some (integer, frac, exp, after) ->
  match_number (s ++ rest) = Some (integer, frac, exp, after ++ rest).
Proof.
  intros H. unfold match_number.
  destruct (match_integer s) as [[i s1]|] eqn:Hi; [|discriminate].
  rewrite (match_integer_app _ _ _ _ H Hi).
  rewrite (match_frac_app _ _ H). destruct (match_frac s1) as [fr s2].
  simpl fst; simpl snd.
  rewrite (match_exp_app _ _ H). destruct (match_exp s2) as [ex s3].
  simpl fst; simpl snd.
  intros [= <- <- <- <-]. reflexivity.
Qed.

Lemma match_number_parts (s integer frac exp after : string) :
  match_number s = Some (integer, frac, exp, after) ->
  s = integer ++ frac ++ exp ++ after.
Proof.
  unfold match_number.
  destruct (match_integer s) as [[i s1]|] eqn:Hi; [|discriminate].
  apply match_integer_parts in Hi.
  pose proof (match_frac_parts s1) as Hf.
  destruct (match_frac s1) as [fr s2]. simpl in Hf.
  pose proof (match_exp_parts s2) as He.
  destruct (match_exp s2) as [ex s3]. simpl in He.
  intros [= <- <- <- <-]. now rewrite Hi, Hf, He.
Qed.

Lemma match_number_head (s integer frac exp after : string) :
  match_number s = Some (integer, frac, exp, after) ->
  exists c r, s = String c r /\ number_head c = true.
Proof.
  unfold match_number, match_integer, number_head.
  destruct s as [|c s]; [discriminate|]. simpl sign.
  intros H. exists c, s. split; [reflexivity|].
  destruct (Ascii.eqb c "-"); [reflexivity|]. simpl in *.
  destruct (Ascii.eqb c "0") eqn:H0.
  - apply Ascii.eqb_eq in H0. now subst c.
  - destruct (is_digit c); [reflexivity|discriminate].
Qed.

End JsonTextFacts.

Section NumberFacts.
Context {float_text : FloatText}.
Local Open Scope string_scope.

Lemma digits_string_of_uint (d : Decimal.uint) (rest : string) :
  delimited rest ->
  digits (DecimalString.NilEmpty.string_of_uint d ++ rest)
  = (DecimalString.NilEmpty.string_of_uint d, rest).
Proof.
  intros H. induction d as [|d IH|d IH|d IH|d IH|d IH|d IH|d IH|d IH|d IH|d IH];
    [now apply digits_delimited|..];
    cbn [DecimalString.NilEmpty.string_of_uint append digits]; rewrite IH; reflexivity.
Qed.

(** The decimal digits of a positive number do not start with 0. *)
Lemma to_uint_head (p : positive) :
  match Pos.to_uint p with
  | Decimal.Nil | Decimal.D0 _ => False
  | _ => True
  end.
Proof.
  assert (H : Decimal.unorm (Pos.to_uint p) = Pos.to_uint p).
  { rewrite <- (DecimalPos.Unsigned.to_of (Pos.to_uint p)), DecimalPos.Unsigned.of_to. reflexivity. }
  pose proof (DecimalPos.Unsigned.to_uint_nonnil p) as Hnil.
  pose proof (DecimalPos.Unsigned.to_uint_nonzero p) as Hzero.
  destruct (Pos.to_uint p) as [|u|u|u|u|u|u|u|u|u|u]; try exact I;
    [now apply Hnil|].
  rewrite DecimalFacts.unorm_D0 in H.
  destruct u as [|u|u|u|u|u|u|u|u|u|u]; [now apply Hzero|..];
    match type of H with
    | Decimal.unorm ?v = _ =>
        assert (Hv : v <> Decimal.Nil) by discriminate;
        pose proof (DecimalFacts.nb_digits_unorm v Hv) as Hn
    end;
    rewrite H in Hn; simpl in Hn; lia.
Qed.

Lemma match_integer_int_repr (z : Z) (rest : string) :
  delimited rest ->
  match_integer (int_repr z ++ rest) = Some (int_repr z, rest).
Proof.
  intros H. unfold int_repr.
  assert (Hpos : forall p,
             match_integer (DecimalString.NilZero.string_of_uint (Pos.to_uint p) ++ rest)
             = Some (DecimalString.NilZero.string_of_uint (Pos.to_uint p), rest)).
  { intros p. pose proof (to_uint_head p) as Hh.
    destruct (Pos.to_uint p) as [|u|u|u|u|u|u|u|u|u|u]; try contradiction;
      unfold match_integer, sign;
      cbn [DecimalString.NilZero.string_of_uint DecimalString.NilEmpty.string_of_uint append];
      match goal with
      | |- context [Ascii.eqb ?c "-" || ?b] =>
          change (Ascii.eqb c "-" || b) with false
      end;
      cbv iota beta;
      match goal with
      | |- context [Ascii.eqb ?c "0"] => change (Ascii.eqb c "0") with false
      end;
      match goal with
      | |- context [is_digit ?c] => change (is_digit c) with true
      end;
      cbv iota; rewrite (digits_string_of_uint u rest H); reflexivity. }
  destruct z as [|p|p]; simpl Z.to_int; cbn [DecimalString.NilZero.string_of_int].
  - reflexivity.
  - apply Hpos.
  - specialize (Hpos p). unfold match_integer in *.
    cbn [append sign]. change (Ascii.eqb "-" "-") with true. cbn [orb].
    cbv iota.
    destruct (sign true (DecimalString.NilZero.string_of_uint (Pos.to_uint p) ++ rest))
      as [minus s1] eqn:Hs.
    pose proof (to_uint_head p) as Hh.
    assert (minus = "" /\ s1 = DecimalString.NilZero.string_of_uint (Pos.to_uint p) ++ rest)
      as [-> ->].
    { destruct (Pos.to_uint p) as [|u|u|u|u|u|u|u|u|u|u]; try contradiction;
        cbn in Hs; now inversion Hs. }
    destruct (DecimalString.NilZero.string_of_uint (Pos.to_uint p) ++ rest) as [|c s2];
      [discriminate|].
    destruct (Ascii.eqb c "0").
    + now inversion Hpos.
    + destruct (is_digit c); [|discriminate].
      destruct (digits s2). now inversion Hpos.
Qed.

Lemma match_number_int_repr (z : Z) (rest : string) :
  delimited rest ->
  match_number (int_repr z ++ rest) = Some (int_repr z, "", "", rest).
Proof.
  intros H. unfold match_number.
  rewrite (match_integer_int_repr z rest H).
  now rewrite (match_frac_delimited rest H), (match_exp_delimited rest H).
Qed.

Lemma parse_int_int_repr (z : Z) : parse_int (int_repr z) = Returns z.
Proof.
  unfold parse_int, int_repr. rewrite DecimalString.NilZero.isi.
  - now rewrite DecimalZ.of_to.
  - destruct z as [|p|p]; simpl; try discriminate.
    intros [= E]. now apply (DecimalPos.Unsigned.to_uint_nonnil p).
  - destruct z as [|p|p]; simpl; try discriminate.
    intros [= E]. now apply (DecimalPos.Unsigned.to_uint_nonnil p).
Qed.

(** At a character a number starts with, [scan_once] is [scan_number]. *)
Lemma scan_once_number_head (fuel : nat) (c : ascii) (r : string) :
  number_head c = true ->
  scan_once (S fuel) (String c r) = scan_number (String c r).
Proof.
  destruct c as [b0 b1 b2 b3 b4 b5 b6 b7].
  destruct b0, b1, b2, b3, b4, b5, b6, b7; intros H;
    solve [discriminate H | reflexivity].
Qed.

Lemma scan_once_number (fuel : nat) (s integer frac exp after : string) :
  match_number s = Some (integer, frac, exp, after) ->
  scan_once (S fuel) s = scan_number s.
Proof.
  intros H. destruct (match_number_head _ _ _ _ _ H) as (c & r & -> & Hc).
  now apply scan_once_number_head.
Qed.

Lemma scan_once_int (fuel : nat) (z : Z) (rest : string) :
  delimited rest ->
  scan_once (S fuel) (int_repr z ++ rest) = Returns (PInt z, rest).
Proof.
  intros H. pose proof (match_number_int_repr z rest H) as Hm.
  rewrite (scan_once_number _ _ _ _ _ _ Hm). unfold scan_number.
  rewrite Hm, parse_int_int_repr. reflexivity.
Qed.

Lemma eqb_infinity (f : float) :
  PrimFloat.eqb f infinity = true -> f = infinity.
Proof.
  rewrite eqb_spec. intros H. apply Prim2SF_inj.
  destruct (Prim2SF f) as [s|s| |s m e]; try discriminate H;
    destruct s; try discriminate H; reflexivity.
Qed.

Lemma eqb_neg_infinity (f : float) :
  PrimFloat.eqb f neg_infinity = true -> f = neg_infinity.
Proof.
  rewrite eqb_spec. intros H. apply Prim2SF_inj.
  destruct (Prim2SF f) as [s|s| |s m e]; try discriminate H;
    destruct s; try discriminate H; reflexivity.
Qed.

Lemma float_literal_inv (s : string) :
  float_literal s = true ->
  exists integer frac exp,
    match_number s = Some (integer, frac, exp, "")
    /\ s = integer ++ frac ++ exp
    /\ (frac <> "" \/ exp <> "").
Proof.
  unfold float_literal.
  destruct (match_number s) as [[[[i fr] ex] [|x after]]|] eqn:Hm;
    try discriminate.
  intros H. exists i, fr, ex. split; [reflexivity|]. split.
  - rewrite (match_number_parts _ _ _ _ _ Hm) at 1.
    now rewrite append_nil_r.
  - destruct fr; [|left; discriminate]. destruct ex; [|right; discriminate].
    discriminate H.
Qed.

(** A float that is written is read back. *)
Lemma scan_once_float (fuel : nat) (f : float) (rest : string) :
  float_ok f -> delimited rest ->
  scan_once (S fuel) (floatstr f ++ rest) = Returns (PFloat f, rest).
Proof.
  intros [Hself Hfinite] H. unfold floatstr. rewrite Hself. cbn [negb].
  destruct (PrimFloat.eqb f infinity) eqn:Hinf.
  { apply eqb_infinity in Hinf. subst f. reflexivity. }
  destruct (PrimFloat.eqb f neg_infinity) eqn:Hninf.
  { apply eqb_neg_infinity in Hninf. subst f. reflexivity. }
  destruct (Hfinite eq_refl eq_refl) as [Hlit Hback].
  destruct (float_literal_inv _ Hlit) as (i & fr & ex & Hm & Hs & Hfe).
  pose proof (match_number_app _ rest _ _ _ _ H Hm) as Hm'.
  cbn [append] in Hm'.
  rewrite (scan_once_number _ _ _ _ _ _ Hm'). unfold scan_number.
  rewrite Hm', <- Hs, Hback.
  destruct fr; [|reflexivity]. destruct ex; [|reflexivity].
  destruct Hfe as [Hfe|Hfe]; now elim Hfe.
Qed.

End NumberFacts.

Lemma number_head_value_head (c : ascii) :
  number_head c = true -> value_head c = true.
Proof.
  destruct c as [b0 b1 b2 b3 b4 b5 b6 b7].
  destruct b0, b1, b2, b3, b4, b5, b6, b7; intros H;
    solve [discriminate H | reflexivity].
Qed.

Lemma dict_set_fresh {V : Type} (d : dict V) (k : string) (v : V) :
  ~ In k (dict_keys d) -> dict_set d k v = d ++ [(k, v)].
Proof.
  induction d as [|[k' v'] d IH]; simpl; intros H; [reflexivity|].
  destruct (String.eqb k' k) eqn:E.
  - apply String.eqb_eq in E. subst. elim H. now left.
  - rewrite IH; [reflexivity|]. intros Hin. apply H. now right.
Qed.

Lemma dict_update_fresh {V : Type} (l d : dict V) :
  NoDup (dict_keys (d ++ l)) -> dict_update d l = d ++ l.
Proof.
  unfold dict_update. revert d.
  induction l as [|[k v] l IH]; intros d H; simpl.
  - now rewrite List.app_nil_r.
  - assert (Hk : ~ In k (dict_keys d)).
    { unfold dict_keys in *. rewrite map_app in H. simpl in H.
      apply NoDup_remove_2 in H. intros Hin. apply H.
      apply in_or_app. now left. }
    rewrite (dict_set_fresh d k v Hk).
    rewrite IH; rewrite <- app_assoc; [reflexivity|exact H].
Qed.

(** Induction on a value, with the members of a list and of a dict. *)
Lemma pydata_nested_ind (P : pydata -> Prop) :
  P PNone ->
  (forall b, P (PBool b)) ->
  (forall z, P (PInt z)) ->
  (forall f, P (PFloat f)) ->
  (forall s, P (PStr s)) ->
  (forall l, Forall P l -> P (PList l)) ->
  (forall d, Forall (fun item => P (fst item) /\ P (snd item)) d ->
             P (PDict d)) ->
  forall v, P v.
Proof.
  intros HNone HBool HInt HFloat HStr HList HDict.
  fix IH 1. intros [ |b|z|f|s|l|d].
  - exact HNone.
  - apply HBool.
  - apply HInt.
  - apply HFloat.
  - apply HStr.
  - apply HList. induction l as [|x l IHl]; constructor; [apply IH|exact IHl].
  - apply HDict. induction d as [|[k x] d IHd]; constructor;
      [split; apply IH|exact IHd].
Qed.

Section RoundTripOfText.
Context {float_text : FloatText}.
Variable pattern : ascii -> bool.
Hypothesis pattern_enough : escapes_enough pattern.
Local Open Scope string_scope.

Local Abbreviation enc := (encoder_of pattern).

(* what [_iterencode] makes of the members of a dict *)
Local Abbreviation member :=
  (fun item : pydata * pydata =>
     key <- json_key (fst item) ;;
     value <- _iterencode enc (snd item) ;;
     Returns (enc key ++ ": " ++ value)).

Lemma iterencode_list (l : list pydata) :
  _iterencode enc (PList l)
  = (chunks <- for_each (_iterencode enc) l ;;
     match chunks with
     | [] => Returns "[]"
     | _ => Returns ("[" ++ String.concat ", " chunks ++ "]")
     end).
Proof. reflexivity. Qed.

Lemma iterencode_dict (d : list (pydata * pydata)) :
  _iterencode enc (PDict d)
  = (chunks <- for_each member d ;;
     match chunks with
     | [] => Returns "{}"
     | _ => Returns ("{" ++ String.concat ", " chunks ++ "}")
     end).
Proof. reflexivity. Qed.

(** The text of a value starts with a character that is no whitespace and
    does not close a list. *)
Lemma iterencode_head (v : pydata) (t : string) :
  native v -> _iterencode enc v = Returns t ->
  exists c r, t = String c r /\ value_head c = true.
Proof.
  intros Hn. destruct v as [ |b|z|f|s|l|d].
  - intros [= <-]. now eexists _, _.
  - destruct b; intros [= <-]; now eexists _, _.
  - intros [= <-].
    pose proof (match_number_int_repr z "" I) as Hm.
    rewrite append_nil_r in Hm.
    destruct (match_number_head _ _ _ _ _ Hm) as (c & r & -> & Hc).
    exists c, r. split; [reflexivity|].
    now apply number_head_value_head.
  - intros [= <-]. inversion Hn as [ | | |f' [Hself Hfinite]| | | ]; subst.
    unfold floatstr. rewrite Hself. cbn [negb].
    destruct (PrimFloat.eqb f infinity) eqn:Hinf; [now eexists _, _|].
    destruct (PrimFloat.eqb f neg_infinity) eqn:Hninf; [now eexists _, _|].
    destruct (Hfinite eq_refl eq_refl) as [Hlit _].
    destruct (float_literal_inv _ Hlit) as (i & fr & ex & Hm & _).
    destruct (match_number_head _ _ _ _ _ Hm) as (c & r & -> & Hc).
    exists c, r. split; [reflexivity|].
    now apply number_head_value_head.
  - intros [= <-]. now eexists _, _.
  - rewrite iterencode_list.
    destruct (for_each (_iterencode enc) l) as [[|x chunks]|e]; simpl;
      intros [= <-]; now eexists _, _.
  - rewrite iterencode_dict.
    destruct (for_each member d) as [[|x chunks]|e]; simpl;
      intros [= <-]; now eexists _, _.
Qed.

Lemma value_head_spec (c : ascii) :
  value_head c = true ->
  is_whitespace c = false /\ Ascii.eqb c "]" = false.
Proof.
  unfold value_head. destruct (is_whitespace c), (Ascii.eqb c "]"); auto;
    discriminate.
Qed.

Lemma skip_whitespace_head (c : ascii) (r : string) :
  value_head c = true -> skip_whitespace (String c r) = String c r.
Proof.
  intros H. apply value_head_spec in H as [H _]. simpl. now rewrite H.
Qed.

Lemma iterencode_skip (v : pydata) (t rest : string) :
  native v -> _iterencode enc v = Returns t ->
  skip_whitespace (t ++ rest) = t ++ rest.
Proof.
  intros Hn Ht. destruct (iterencode_head v t Hn Ht) as (c & r & -> & Hc).
  now apply skip_whitespace_head.
Qed.

Lemma iterencode_nonempty (v : pydata) (t : string) :
  native v -> _iterencode enc v = Returns t -> 1 <= String.length t.
Proof.
  intros Hn Ht. destruct (iterencode_head v t Hn Ht) as (c & r & -> & _).
  simpl. lia.
Qed.

Local Abbreviation reads := (reads pattern).

Lemma concat_cons2 (sep x y : string) (l : list string) :
  String.concat sep (x :: y :: l) = x ++ sep ++ String.concat sep (y :: l).
Proof. reflexivity. Qed.

Lemma array_reads (l : list pydata) :
  Forall (fun v => native v -> reads v) l -> Forall native l ->
  forall chunks, for_each (_iterencode enc) l = Returns chunks ->
  l <> [] ->
  (exists c r, String.concat ", " chunks = String c r
               /\ value_head c = true)
  /\ forall fuel rest values,
       String.length (String.concat ", " chunks) < fuel ->
       JSONArray fuel (String.concat ", " chunks ++ String "]" rest) values
       = Returns ((values ++ l)%list, rest).
Proof.
  induction l as [|x l IH]; intros Hr Hn chunks Hc Hne; [now elim Hne|].
  inversion Hr as [|? ? Hrx Hrl]; subst. inversion Hn as [|? ? Hnx Hnl]; subst.
  simpl in Hc.
  destruct (_iterencode enc x) as [t|e] eqn:Ht; [|discriminate].
  destruct (for_each (_iterencode enc) l) as [ts|e] eqn:Hts; [|discriminate].
  simpl in Hc. injection Hc as <-.
  destruct (iterencode_head x t Hnx Ht) as (c & r & Et & Hws).
  destruct l as [|y l].
  - simpl in Hts. injection Hts as <-. simpl String.concat. split.
    { now exists c, r. }
    intros [|fuel] rest values Hf; [inversion Hf|].
    cbn [JSONArray].
    rewrite (Hrx Hnx t Ht fuel (String "]" rest)); [|lia|reflexivity].
    reflexivity.
  - destruct (IH Hrl Hnl ts eq_refl ltac:(discriminate))
      as [(c' & r' & Ec & Hws') IHl].
    destruct ts as [|u us]; [simpl in Ec; discriminate|].
    rewrite concat_cons2. split.
    { rewrite Et. now eexists _, _. }
    intros [|fuel] rest values Hf; [inversion Hf|].
    rewrite !length_append in Hf. cbn [String.length] in Hf.
    cbn [JSONArray]. rewrite !append_assoc. cbn [append].
    rewrite (Hrx Hnx t Ht fuel); [|lia|reflexivity].
    cbn [bind]. cbv beta iota.
    change (skip_whitespace (String "," ?s)) with (String "," s).
    cbv beta iota.
    change (Ascii.eqb "," "]") with false.
    change (Ascii.eqb "," ",") with true. cbv iota.
    match goal with
    | |- JSONArray _ (skip_whitespace (String " " ?s)) _ = _ =>
        change (skip_whitespace (String " " s)) with (skip_whitespace s)
    end.
    rewrite Ec. cbn [append]. rewrite (skip_whitespace_head _ _ Hws').
    change (String c' (r' ++ String "]" rest))
      with (String c' r' ++ String "]" rest).
    rewrite <- Ec, IHl; [|lia]. now rewrite <- app_assoc.
Qed.

Lemma object_reads (d : list (pydata * pydata)) :
  Forall (fun item => (native (fst item) -> reads (fst item))
                      /\ (native (snd item) -> reads (snd item))) d ->
  Forall (fun item => (exists k, fst item = PStr k) /\ native (snd item)) d ->
  forall chunks, for_each member d = Returns chunks ->
  d <> [] ->
  exists body,
    String.concat ", " chunks = String quote body
    /\ forall fuel rest pairs,
         String.length body < fuel ->
         JSONObject fuel (body ++ String "}" rest) pairs
         = Returns ((pairs
                     ++ map (fun item => (key_str (fst item), snd item)) d)%list,
                    rest).
Proof.
  induction d as [|[key x] d IH]; intros Hr Hn chunks Hc Hne; [now elim Hne|].
  inversion Hr as [|? ? [_ Hrx] Hrd]; subst.
  inversion Hn as [|? ? [[k Hk] Hnx] Hnd]; subst.
  simpl in Hk, Hnx, Hrx. subst key.
  cbn [for_each fst snd json_key bind] in Hc.
  destruct (_iterencode enc x) as [t|e] eqn:Ht; [|discriminate].
  cbn [bind] in Hc.
  destruct (for_each member d) as [ts|e] eqn:Hts; [|discriminate].
  cbn [bind] in Hc. injection Hc as <-.
  destruct (iterencode_head x t Hnx Ht) as (c & r & Et & Hws).
  assert (Hvalue : forall fuel tail pairs,
             String.length t <= fuel -> delimited tail ->
             JSONObject (S fuel)
               (sub pattern replace k
                ++ String quote (String ":" (String " " (t ++ tail)))) pairs
             = match skip_whitespace tail with
               | String nextchar after =>
                   if Ascii.eqb nextchar "}"
                   then Returns ((pairs ++ [(k, x)])%list, after)
                   else if Ascii.eqb nextchar "," then
                     match skip_whitespace after with
                     | String c after =>
                         if Ascii.eqb c quote
                         then JSONObject fuel after (pairs ++ [(k, x)])%list
                         else JSONDecodeError
                           "Expecting property name enclosed in double quotes"
                     | EmptyString =>
                         JSONDecodeError
                           "Expecting property name enclosed in double quotes"
                     end
                   else JSONDecodeError "Expecting ',' delimiter"
               | EmptyString => JSONDecodeError "Expecting ',' delimiter"
               end).
  { intros fuel tail pairs Hf Hd. cbn [JSONObject].
    rewrite (scanstring_sub pattern k _ pattern_enough).
    cbn [bind]. cbv beta iota.
    change (skip_whitespace (String ":" ?s)) with (String ":" s).
    cbv beta iota. change (Ascii.eqb ":" ":") with true. cbv iota.
    change (skip_whitespace (String " " (t ++ tail)))
      with (skip_whitespace (t ++ tail)).
    rewrite (iterencode_skip x t tail Hnx Ht).
    rewrite (Hrx Hnx t Ht fuel tail Hf Hd). reflexivity. }
  destruct d as [|item d].
  - simpl in Hts. injection Hts as <-. simpl String.concat.
    exists ((sub pattern replace k ++ String quote "") ++ ": " ++ t).
    split; [reflexivity|].
    intros [|fuel] rest pairs Hf; [inversion Hf|].
    rewrite !length_append in Hf. cbn [String.length] in Hf.
    rewrite !append_assoc. cbn [append].
    rewrite Hvalue; [|lia|reflexivity]. reflexivity.
  - destruct (IH Hrd Hnd ts eq_refl ltac:(discriminate))
      as (body & Ebody & IHd).
    destruct ts as [|u us]; [simpl in Ebody; discriminate|].
    rewrite concat_cons2, Ebody.
    exists ((sub pattern replace k ++ String quote "") ++ ": " ++ t
            ++ ", " ++ String quote body).
    split; [unfold encoder_of; cbn [append]; now rewrite !append_assoc|].
    intros [|fuel] rest pairs Hf; [inversion Hf|].
    rewrite !length_append in Hf. cbn [String.length] in Hf.
    rewrite !append_assoc. cbn [append].
    rewrite Hvalue; [|lia|reflexivity].
    change (skip_whitespace (String "," ?s)) with (String "," s).
    cbv beta iota.
    change (Ascii.eqb "," "}") with false.
    change (Ascii.eqb "," ",") with true. cbv iota.
    change (skip_whitespace (String " " (String quote ?s)))
      with (String quote s).
    cbv beta iota.
    change (Ascii.eqb quote quote) with true. cbv iota.
    rewrite IHd; [|lia]. now rewrite <- app_assoc.
Qed.

Lemma native_keys (d : list (pydata * pydata)) :
  Forall (fun item => (exists k, fst item = PStr k) /\ native (snd item)) d ->
  map (fun kv : string * pydata => (PStr (fst kv), snd kv))
    (map (fun item => (key_str (fst item), snd item)) d) = d.
Proof.
  induction 1 as [|[key x] d [[k Hk] _] _ IH]; [reflexivity|].
  simpl in *. subst key. simpl. now rewrite IH.
Qed.

Lemma native_keys_NoDup (d : list (pydata * pydata)) :
  Forall (fun item => (exists k, fst item = PStr k) /\ native (snd item)) d ->
  NoDup (map fst d) ->
  NoDup (dict_keys (map (fun item => (key_str (fst item), snd item)) d)).
Proof.
  intros Hk. unfold dict_keys. rewrite map_map. simpl.
  induction Hk as [|[key x] d [[k Hx] _] Hd IH]; intros Hnd;
    [constructor|].
  simpl in *. subst key. inversion Hnd as [|? ? Hnot Hrest]; subst.
  constructor; [|now apply IH].
  simpl. intros Hin. apply Hnot. apply in_map_iff in Hin.
  destruct Hin as ([key' x'] & Hkey & Hin). simpl in Hkey.
  rewrite Forall_forall in Hd. destruct (Hd _ Hin) as [[k' Hk'] _].
  simpl in Hk'. subst key'. simpl in Hkey. subst k'.
  apply in_map_iff. now exists (PStr k, x').
Qed.

(** Every value of JSON is read back from its text. *)
Lemma native_reads (v : pydata) : native v -> reads v.
Proof.
  induction v as [ |b|z|f|s|l IHl|d IHd] using pydata_nested_ind;
    intros Hn t Ht fuel rest Hf Hd.
  - injection Ht as <-. destruct fuel; [simpl in Hf; lia|]. reflexivity.
  - destruct b; injection Ht as <-;
      (destruct fuel; [simpl in Hf; lia|]); reflexivity.
  - pose proof (iterencode_nonempty _ _ Hn Ht).
    injection Ht as <-. destruct fuel; [lia|].
    now apply scan_once_int.
  - pose proof (iterencode_nonempty _ _ Hn Ht).
    injection Ht as <-. destruct fuel; [lia|].
    inversion Hn; subst. now apply scan_once_float.
  - injection Ht as <-. destruct fuel; [simpl in Hf; lia|].
    unfold encoder_of. cbn [append]. rewrite append_assoc. cbn [append].
    cbn [scan_once]. change (Ascii.eqb quote quote) with true. cbv iota.
    now rewrite (scanstring_sub pattern s rest pattern_enough).
  - inversion Hn as [ | | | | |l' Hnl| ]; subst.
    rewrite iterencode_list in Ht.
    destruct (for_each (_iterencode enc) l) as [chunks|e] eqn:Hc;
      [|discriminate].
    destruct l as [|x l].
    + simpl in Hc. injection Hc as <-. simpl in Ht. injection Ht as <-.
      destruct fuel; [simpl in Hf; lia|]. reflexivity.
    + destruct (array_reads (x :: l) IHl Hnl chunks Hc ltac:(discriminate))
        as [(c & r & Ec & Hws) Hloop].
      destruct chunks as [|u us]; [simpl in Ec; discriminate|].
      cbn [bind] in Ht.
      remember (String.concat ", " (u :: us)) as text eqn:Etext.
      injection Ht as <-.
      cbn [String.length append] in Hf. rewrite length_append in Hf.
      cbn [String.length] in Hf.
      destruct fuel; [lia|].
      cbn [append]. rewrite append_assoc. cbn [append scan_once].
      change (Ascii.eqb "[" quote) with false.
      change (Ascii.eqb "[" "{") with false.
      change (Ascii.eqb "[" "[") with true. cbv iota.
      rewrite Ec. cbn [append]. rewrite (skip_whitespace_head _ _ Hws).
      destruct (value_head_spec c Hws) as [_ ->].
      change (String c (r ++ String "]" rest))
        with (String c r ++ String "]" rest).
      rewrite <- Ec, Hloop; [|lia]. reflexivity.
  - inversion Hn as [ | | | | | |d' Hnd Hnodup]; subst.
    rewrite iterencode_dict in Ht.
    destruct (for_each member d) as [chunks|e] eqn:Hc; [|discriminate].
    destruct d as [|item d].
    + simpl in Hc. injection Hc as <-. simpl in Ht. injection Ht as <-.
      destruct fuel; [simpl in Hf; lia|]. reflexivity.
    + destruct (object_reads (item :: d) IHd Hnd chunks Hc ltac:(discriminate))
        as (body & Ebody & Hloop).
      destruct chunks as [|u us]; [simpl in Ebody; discriminate|].
      cbn [bind] in Ht.
      remember (String.concat ", " (u :: us)) as text eqn:Etext.
      injection Ht as <-.
      cbn [String.length append] in Hf. rewrite length_append in Hf.
      cbn [String.length] in Hf.
      destruct fuel; [lia|].
      cbn [append]. rewrite append_assoc. cbn [append scan_once].
      change (Ascii.eqb "{" quote) with false.
      change (Ascii.eqb "{" "{") with true. cbv iota.
      rewrite Ebody in *. cbn [String.length] in Hf.
      cbn [append skip_whitespace].
      change (is_whitespace quote) with false. cbv iota.
      change (Ascii.eqb quote "}") with false.
      change (Ascii.eqb quote quote) with true. cbv iota.
      rewrite Hloop; [|lia]. cbn [bind app]. cbv beta iota.
      unfold dict_of_pairs.
      rewrite (dict_update_fresh _ []);
        [|now apply native_keys_NoDup].
      cbn [app]. now rewrite native_keys.
Qed.

End RoundTripOfText.

Section LoadsOfDumps.
Context {float_text : FloatText}.
Local Open Scope string_scope.

Lemma for_each_all {A B : Type} (body : A -> outcome B) (l : list A) :
  Forall (fun x => exists y, body x = Returns y) l ->
  exists ys, for_each body l = Returns ys.
Proof.
  induction 1 as [|x l [y Hy] _ [ys Hys]]; simpl.
  - now exists [].
  - rewrite Hy, Hys. now exists (y :: ys).
Qed.

(** A value of JSON has a text, whatever the encoder of its strs. *)
Lemma iterencode_returns (encoder : string -> string) (v : pydata) :
  native v -> exists t, _iterencode encoder v = Returns t.
Proof.
  induction v as [ |b|z|f|s|l IHl|d IHd] using pydata_nested_ind; intros Hn.
  - now eexists.
  - destruct b; now eexists.
  - now eexists.
  - now eexists.
  - now eexists.
  - inversion Hn as [ | | | | |l' Hnl| ]; subst.
    destruct (for_each_all (_iterencode encoder) l) as [chunks Hc].
    { rewrite Forall_forall in *. intros x Hx. now apply IHl, Hnl. }
    cbn [_iterencode]. rewrite Hc. destruct chunks; now eexists.
  - inversion Hn as [ | | | | | |d' Hnd _]; subst.
    cbn [_iterencode].
    match goal with
    | |- context [for_each ?body d] =>
        destruct (for_each_all body d) as [chunks Hc]
    end.
    { rewrite Forall_forall in *. intros [key x] Hx.
      destruct (Hnd _ Hx) as [[k Hk] Hnx]. simpl in Hk, Hnx. subst key.
      destruct (IHd _ Hx) as [_ IHx]. destruct (IHx Hnx) as [t Ht].
      cbn [fst snd json_key bind]. simpl in Ht. rewrite Ht. now eexists. }
    rewrite Hc. destruct chunks; now eexists.
Qed.

Lemma dumps_returns (v : pydata) (ensure_ascii : bool) :
  native v -> exists t, dumps v ensure_ascii = Returns t.
Proof. intros Hn. now apply iterencode_returns. Qed.

(** [json.loads] reads back what [json.dumps] writes of a value of JSON,
    with [ensure_ascii] or without. *)
Lemma loads_dumps (v : pydata) (ensure_ascii : bool) (t : string) :
  native v -> dumps v ensure_ascii = Returns t -> loads t = Returns v.
Proof.
  intros Hn Ht.
  assert (Henc : exists pattern,
             escapes_enough pattern
             /\ _iterencode (encoder_of pattern) v = Returns t).
  { destruct ensure_ascii.
    - exists ESCAPE_ASCII. split; [apply ESCAPE_ASCII_enough|exact Ht].
    - exists ESCAPE. split; [apply ESCAPE_enough|exact Ht]. }
  destruct Henc as (pattern & Hp & Ht').
  unfold loads.
  pose proof (iterencode_skip pattern v t "" Hn Ht') as Hskip.
  rewrite append_nil_r in Hskip. rewrite Hskip.
  pose proof (native_reads pattern Hp v Hn t Ht'
                (S (2 * String.length t)) "" ltac:(lia) I) as Hread.
  rewrite append_nil_r in Hread. rewrite Hread. reflexivity.
Qed.

End LoadsOfDumps.

(** * Serialization: the models *)

Section FieldFacts.
Context {url : UrlLib}.

Lemma required_get {A : Type} (validate : validator A) (name : string)
    (values : list (pydata * pydata)) (v : pydata) :
  data_get values name = Some v -> required validate name values = validate v.
Proof. unfold required. now intros ->. Qed.

Lemma with_default_get {A : Type} (validate : validator A) (default : A)
    (name : string) (values : list (pydata * pydata)) (v : pydata) :
  data_get values name = Some v ->
  with_default validate default name values = validate v.
Proof. unfold with_default. now intros ->. Qed.

Lemma for_each_map_back {A : Type} (validate : validator A) (f : A -> pydata)
    (l : list A) :
  Forall (fun x => validate (f x) = Returns x) l ->
  for_each validate (map f l) = Returns l.
Proof.
  induction 1 as [|x l Hx _ IH]; simpl; [reflexivity|].
  now rewrite Hx, IH.
Qed.

Lemma list_of_of_list {A : Type} (validate : validator A) (f : A -> pydata)
    (l : list A) :
  Forall (fun x => validate (f x) = Returns x) l ->
  list_of validate (of_list f l) = Returns l.
Proof. intros H. unfold list_of, of_list. now apply for_each_map_back. Qed.

Lemma dict_of_of_dict {A : Type} (validate : validator A) (f : A -> pydata)
    (d : dict A) :
  Forall (fun item => validate (f (snd item)) = Returns (snd item)) d ->
  dict_of validate (of_dict f d) = Returns d.
Proof.
  intros H. unfold dict_of, of_dict.
  induction H as [|[k x] d Hx _ IH]; simpl; [reflexivity|].
  simpl in Hx. now rewrite Hx, IH.
Qed.

Lemma optional_of_optional {A : Type} (validate : validator A)
    (f : A -> pydata) (o : option A) :
  (forall x, f x <> PNone) ->
  (forall x, o = Some x -> validate (f x) = Returns x) ->
  optional validate (of_optional f o) = Returns o.
Proof.
  intros Hf Hv. destruct o as [x|]; [|reflexivity]. simpl.
  specialize (Hf x). specialize (Hv x eq_refl). unfold optional.
  destruct (f x); try (now rewrite Hv); now elim Hf.
Qed.

Lemma uri_validator_of_uri (u : uri_t) :
  uri_validator (of_uri u) = Returns u.
Proof.
  destruct u as [s|l]; [reflexivity|].
  unfold uri_validator, of_uri. cbn [of_list str_validator].
  fold (of_list PStr l). rewrite list_of_of_list; [reflexivity|].
  now apply Forall_forall.
Qed.

Lemma set_of_str_of_list (l : list string) :
  NoDup l -> set_of_str (of_list PStr l) = Returns l.
Proof.
  intros H. unfold set_of_str, of_list.
  rewrite for_each_map_back by now apply Forall_forall.
  cbn [bind]. now rewrite nodup_fixed_point.
Qed.

Lemma path_validator_path (p : string) :
  path_ok p -> path_validator (PStr p) = Returns p.
Proof. unfold path_ok, path_validator. now intros ->. Qed.

End FieldFacts.

Section NativeFacts.
Context {float_text : FloatText}.

Lemma native_of_list {A : Type} (f : A -> pydata) (l : list A) :
  Forall (fun x => native (f x)) l -> native (of_list f l).
Proof.
  intros H. apply native_List. induction H; simpl; now constructor.
Qed.

Lemma NoDup_map_PStr (l : list string) : NoDup l -> NoDup (map PStr l).
Proof.
  induction 1 as [|k l Hk _ IH]; simpl; constructor; [|exact IH].
  intros Hin. apply Hk. apply in_map_iff in Hin.
  destruct Hin as (k' & [= ->] & Hin). exact Hin.
Qed.

Lemma native_of_dict {A : Type} (f : A -> pydata) (d : dict A) :
  NoDup (dict_keys d) ->
  Forall (fun item => native (f (snd item))) d ->
  native (of_dict f d).
Proof.
  intros Hk H. apply native_Dict.
  - clear Hk. induction H as [|[k x] d Hx _ IH]; simpl; constructor;
      [|exact IH].
    split; [now exists k|exact Hx].
  - rewrite map_map. simpl. unfold dict_keys in Hk.
    rewrite <- (map_map fst PStr).
    now apply NoDup_map_PStr.
Qed.

Lemma native_of_optional {A : Type} (f : A -> pydata) (o : option A) :
  (forall x, o = Some x -> native (f x)) -> native (of_optional f o).
Proof.
  intros H. destruct o as [x|]; simpl; [now apply H|constructor].
Qed.

Lemma native_of_strs (l : list string) : native (of_list PStr l).
Proof. apply native_of_list, Forall_forall. intros; constructor. Qed.

Lemma native_of_uri (u : uri_t) : native (of_uri u).
Proof. destruct u; [constructor|apply native_of_strs]. Qed.

Lemma native_of_optional_str (o : option string) :
  native (of_optional PStr o).
Proof. apply native_of_optional. intros; constructor. Qed.

Lemma native_of_optional_int (o : option Z) : native (of_optional PInt o).
Proof. apply native_of_optional. intros; constructor. Qed.

End NativeFacts.

(** The fields of a class, each once, make a dict of JSON when their values
    are of JSON. *)
Ltac native_fields :=
  apply native_Dict;
  [ repeat (apply Forall_cons; [split; [now eexists|cbn [snd]]|]);
    try apply Forall_nil
  | cbn [map fst];
    repeat (apply NoDup_cons;
            [cbn [In]; intuition discriminate|]);
    apply NoDup_nil ].

Ltac read_field :=
  first [ erewrite required_get by reflexivity
        | erewrite with_default_get by reflexivity ].

Section ModelFacts.
Context {url : UrlLib} {float_text : FloatText}.

Lemma ChannelRendering_read (r : ChannelRendering.t) :
  parse_obj (PDict (json_dict r)) = Returns r.
Proof.
  destruct r as [cs ce sf].
  cbn [parse_obj json_dict ChannelRendering_model parse_dict
       ChannelRendering.colormap_start ChannelRendering.colormap_end
       ChannelRendering.scale_factor].
  repeat read_field.
  rewrite !list_of_of_list by now apply Forall_forall.
  reflexivity.
Qed.

Lemma ChannelRendering_native (r : ChannelRendering.t) :
  ChannelRendering_ok r -> native (PDict (json_dict r)).
Proof.
  destruct r as [cs ce sf]. intros (Hs & He & Hf). simpl in Hs, He, Hf.
  cbn [json_dict ChannelRendering_model
       ChannelRendering.colormap_start ChannelRendering.colormap_end
       ChannelRendering.scale_factor].
  native_fields.
  - apply native_of_list.
    eapply Forall_impl; [|exact Hs]. intros; now constructor.
  - apply native_of_list.
    eapply Forall_impl; [|exact He]. intros; now constructor.
  - now constructor.
Qed.

Lemma RenderingInfo_read (r : RenderingInfo.t) :
  parse_obj (PDict (json_dict r)) = Returns r.
Proof.
  destruct r as [renders z t].
  cbn [parse_obj json_dict RenderingInfo_model parse_dict
       RenderingInfo.channel_renders RenderingInfo.default_z
       RenderingInfo.default_t].
  repeat read_field.
  rewrite list_of_of_list
    by (apply Forall_forall; intros; apply ChannelRendering_read).
  rewrite !optional_of_optional by (intros; (discriminate || reflexivity)).
  reflexivity.
Qed.

Lemma RenderingInfo_native (r : RenderingInfo.t) :
  RenderingInfo_ok r -> native (PDict (json_dict r)).
Proof.
  destruct r as [renders z t]. unfold RenderingInfo_ok. simpl. intros H.
  cbn [json_dict RenderingInfo_model
       RenderingInfo.channel_renders RenderingInfo.default_z
       RenderingInfo.default_t].
  native_fields.
  - apply native_of_list.
    eapply Forall_impl; [|exact H]. apply ChannelRendering_native.
  - apply native_of_optional_int.
  - apply native_of_optional_int.
Qed.

Lemma BIAImageRepresentation_read (r : BIAImageRepresentation.t) :
  parse_obj (PDict (json_dict r)) = Returns r.
Proof.
  destruct r as [acc img uri size type dims attrs rendering].
  cbn [parse_obj json_dict BIAImageRepresentation_model parse_dict
       BIAImageRepresentation.accession_id BIAImageRepresentation.image_id
       BIAImageRepresentation.uri BIAImageRepresentation.size
       BIAImageRepresentation.type BIAImageRepresentation.dimensions
       BIAImageRepresentation.attributes BIAImageRepresentation.rendering].
  repeat read_field.
  rewrite uri_validator_of_uri.
  rewrite !optional_of_optional
    by (intros; first [discriminate | reflexivity | apply RenderingInfo_read]).
  reflexivity.
Qed.

Lemma BIAImageRepresentation_native (r : BIAImageRepresentation.t) :
  BIAImageRepresentation_ok r -> native (PDict (json_dict r)).
Proof.
  destruct r as [acc img uri size type dims attrs rendering].
  unfold BIAImageRepresentation_ok. simpl. intros [Ha Hr].
  cbn [json_dict BIAImageRepresentation_model
       BIAImageRepresentation.accession_id BIAImageRepresentation.image_id
       BIAImageRepresentation.uri BIAImageRepresentation.size
       BIAImageRepresentation.type BIAImageRepresentation.dimensions
       BIAImageRepresentation.attributes BIAImageRepresentation.rendering].
  native_fields; try solve [constructor].
  - apply native_of_uri.
  - apply native_of_optional_str.
  - apply native_of_optional_str.
  - apply native_of_optional. now intros x ->.
  - apply native_of_optional. intros x ->. now apply RenderingInfo_native.
Qed.

Lemma BIAFileRepresentation_read (r : BIAFileRepresentation.t) :
  parse_obj (PDict (json_dict r)) = Returns r.
Proof.
  destruct r as [acc file uri size].
  cbn [parse_obj json_dict BIAFileRepresentation_model parse_dict
       BIAFileRepresentation.accession_id BIAFileRepresentation.file_id
       BIAFileRepresentation.uri BIAFileRepresentation.size].
  repeat read_field. rewrite uri_validator_of_uri. reflexivity.
Qed.

Lemma BIAFileRepresentation_native (r : BIAFileRepresentation.t) :
  native (PDict (json_dict r)).
Proof.
  destruct r as [acc file uri size].
  cbn [json_dict BIAFileRepresentation_model
       BIAFileRepresentation.accession_id BIAFileRepresentation.file_id
       BIAFileRepresentation.uri BIAFileRepresentation.size].
  native_fields; try solve [constructor]. apply native_of_uri.
Qed.

Lemma BIAFile_read (r : BIAFile.t) :
  BIAFile_ok r -> parse_obj (PDict (json_dict r)) = Returns r.
Proof.
  destruct r as [id path size attrs reps]. intros [Hp _]. simpl in Hp.
  cbn [parse_obj json_dict BIAFile_model parse_dict
       BIAFile.id BIAFile.original_relpath BIAFile.original_size
       BIAFile.attributes BIAFile.representations].
  repeat read_field.
  rewrite (path_validator_path path Hp).
  rewrite list_of_of_list
    by (apply Forall_forall; intros; apply BIAFileRepresentation_read).
  reflexivity.
Qed.

Lemma BIAFile_native (r : BIAFile.t) :
  BIAFile_ok r -> native (PDict (json_dict r)).
Proof.
  destruct r as [id path size attrs reps]. intros [_ Ha]. simpl in Ha.
  cbn [json_dict BIAFile_model
       BIAFile.id BIAFile.original_relpath BIAFile.original_size
       BIAFile.attributes BIAFile.representations].
  native_fields; try solve [constructor]; [exact Ha|].
  apply native_of_list, Forall_forall. intros.
  apply BIAFileRepresentation_native.
Qed.

Lemma FileReference_read (r : FileReference.t) :
  parse_obj (PDict (json_dict r)) = Returns r.
Proof.
  destruct r as [id name uri size attrs].
  cbn [parse_obj json_dict FileReference_model parse_dict
       FileReference.id FileReference.name FileReference.uri
       FileReference.size_in_bytes FileReference.attributes].
  repeat read_field.
  rewrite optional_of_optional by (intros; (discriminate || reflexivity)).
  reflexivity.
Qed.

Lemma FileReference_native (r : FileReference.t) :
  FileReference_ok r -> native (PDict (json_dict r)).
Proof.
  destruct r as [id name uri size attrs]. unfold FileReference_ok. simpl.
  intros Ha.
  cbn [json_dict FileReference_model
       FileReference.id FileReference.name FileReference.uri
       FileReference.size_in_bytes FileReference.attributes].
  native_fields; try solve [constructor]; [apply native_of_optional_int|exact Ha].
Qed.

Lemma BIAImage_read (r : BIAImage.t) :
  BIAImage_ok r -> parse_obj (PDict (json_dict r)) = Returns r.
Proof.
  destruct r as [id acc name path dims reps attrs]. intros (Hp & _ & _).
  simpl in Hp.
  cbn [parse_obj json_dict BIAImage_model parse_dict
       BIAImage.id BIAImage.accession_id BIAImage.name
       BIAImage.original_relpath BIAImage.dimensions
       BIAImage.representations BIAImage.attributes].
  repeat read_field.
  rewrite (path_validator_path path Hp).
  rewrite !optional_of_optional by (intros; (discriminate || reflexivity)).
  rewrite list_of_of_list
    by (apply Forall_forall; intros; apply BIAImageRepresentation_read).
  reflexivity.
Qed.

Lemma BIAImage_native (r : BIAImage.t) :
  BIAImage_ok r -> native (PDict (json_dict r)).
Proof.
  destruct r as [id acc name path dims reps attrs]. intros (_ & Hr & Ha).
  simpl in Hr, Ha.
  cbn [json_dict BIAImage_model
       BIAImage.id BIAImage.accession_id BIAImage.name
       BIAImage.original_relpath BIAImage.dimensions
       BIAImage.representations BIAImage.attributes].
  native_fields; try solve [constructor]; try apply native_of_optional_str;
    [|exact Ha].
  apply native_of_list.
  eapply Forall_impl; [|exact Hr]. apply BIAImageRepresentation_native.
Qed.

Lemma BIAImageAlias_read (r : BIAImageAlias.t) :
  parse_obj (PDict (json_dict r)) = Returns r.
Proof. now destruct r. Qed.

Lemma BIAImageAlias_native (r : BIAImageAlias.t) :
  native (PDict (json_dict r)).
Proof.
  destruct r. cbn [json_dict BIAImageAlias_model].
  native_fields; constructor.
Qed.

Lemma Author_read (r : Author.t) : parse_obj (PDict (json_dict r)) = Returns r.
Proof. now destruct r. Qed.

Lemma Author_native (r : Author.t) : native (PDict (json_dict r)).
Proof.
  destruct r. cbn [json_dict Author_model]. native_fields; constructor.
Qed.

Lemma dict_ok_read {A : Type} {M : BaseModel A} (ok : A -> Prop)
    (d : dict A) :
  (forall x, ok x -> parse_obj (PDict (json_dict x)) = Returns x) ->
  dict_ok ok d -> dict_of (model A) (of_dict of_model d) = Returns d.
Proof.
  intros Hread [_ Hall]. apply dict_of_of_dict.
  eapply Forall_impl; [|exact Hall]. intros item. apply Hread.
Qed.

Lemma dict_ok_native {A : Type} {M : BaseModel A} (ok : A -> Prop)
    (d : dict A) :
  (forall x, ok x -> native (PDict (json_dict x))) ->
  dict_ok ok d -> native (of_dict of_model d).
Proof.
  intros Hnative [Hk Hall]. apply native_of_dict; [exact Hk|].
  eapply Forall_impl; [|exact Hall]. intros item. apply Hnative.
Qed.

Lemma BIAStudy_read (r : BIAStudy.t) :
  BIAStudy_ok r -> parse_obj (PDict (json_dict r)) = Returns r.
Proof.
  destruct r as [acc title descr authors organism release imaging attrs
                 example refs images archive other aliases tags].
  intros (_ & Hrefs & Himages & Harchive & Hother & Haliases & Htags).
  simpl in Hrefs, Himages, Harchive, Hother, Haliases, Htags.
  cbn [parse_obj json_dict BIAStudy_model parse_dict
       BIAStudy.accession_id BIAStudy.title BIAStudy.description
       BIAStudy.authors BIAStudy.organism BIAStudy.release_date
       BIAStudy.imaging_type BIAStudy.attributes BIAStudy.example_image_uri
       BIAStudy.file_references BIAStudy.images BIAStudy.archive_files
       BIAStudy.other_files BIAStudy.image_aliases BIAStudy.tags].
  repeat read_field.
  rewrite (dict_ok_read _ refs (fun x _ => FileReference_read x) Hrefs).
  rewrite (dict_ok_read _ images BIAImage_read Himages).
  rewrite (dict_ok_read _ archive BIAFile_read Harchive).
  rewrite (dict_ok_read _ other BIAFile_read Hother).
  rewrite (dict_ok_read _ aliases (fun x _ => BIAImageAlias_read x) Haliases).
  rewrite (set_of_str_of_list tags Htags).
  rewrite (optional_of_optional (list_of (model Author.t))
             (of_list of_model) authors)
    by (intros; first [discriminate
                      | apply list_of_of_list, Forall_forall; intros;
                        apply Author_read]).
  rewrite optional_of_optional by (intros; (discriminate || reflexivity)).
  reflexivity.
Qed.

Lemma BIAStudy_native (r : BIAStudy.t) :
  BIAStudy_ok r -> native (PDict (json_dict r)).
Proof.
  destruct r as [acc title descr authors organism release imaging attrs
                 example refs images archive other aliases tags].
  intros (Hattrs & Hrefs & Himages & Harchive & Hother & Haliases & Htags).
  simpl in Hattrs, Hrefs, Himages, Harchive, Hother, Haliases, Htags.
  cbn [json_dict BIAStudy_model
       BIAStudy.accession_id BIAStudy.title BIAStudy.description
       BIAStudy.authors BIAStudy.organism BIAStudy.release_date
       BIAStudy.imaging_type BIAStudy.attributes BIAStudy.example_image_uri
       BIAStudy.file_references BIAStudy.images BIAStudy.archive_files
       BIAStudy.other_files BIAStudy.image_aliases BIAStudy.tags].
  native_fields; try solve [constructor]; try apply native_of_optional_str.
  - apply native_of_optional. intros l _.
    apply native_of_list, Forall_forall. intros. apply Author_native.
  - exact Hattrs.
  - exact (dict_ok_native _ refs FileReference_native Hrefs).
  - exact (dict_ok_native _ images BIAImage_native Himages).
  - exact (dict_ok_native _ archive BIAFile_native Harchive).
  - exact (dict_ok_native _ other BIAFile_native Hother).
  - exact (dict_ok_native _ aliases (fun x _ => BIAImageAlias_native x)
             Haliases).
  - apply native_of_strs.
Qed.

Lemma BIACollection_read (r : BIACollection.t) :
  parse_obj (PDict (json_dict r)) = Returns r.
Proof.
  destruct r as [name title subtitle descr ids].
  cbn [parse_obj json_dict BIACollection_model parse_dict
       BIACollection.name BIACollection.title BIACollection.subtitle
       BIACollection.description BIACollection.accession_ids].
  repeat read_field.
  rewrite optional_of_optional by (intros; (discriminate || reflexivity)).
  rewrite list_of_of_list by now apply Forall_forall.
  reflexivity.
Qed.

Lemma BIACollection_native (r : BIACollection.t) :
  native (PDict (json_dict r)).
Proof.
  destruct r as [name title subtitle descr ids].
  cbn [json_dict BIACollection_model
       BIACollection.name BIACollection.title BIACollection.subtitle
       BIACollection.description BIACollection.accession_ids].
  native_fields; try solve [constructor];
    [apply native_of_optional_str|apply native_of_strs].
Qed.

Lemma StudyTag_read (r : StudyTag.t) :
  parse_obj (PDict (json_dict r)) = Returns r.
Proof. now destruct r. Qed.

Lemma StudyTag_native (r : StudyTag.t) : native (PDict (json_dict r)).
Proof.
  destruct r. cbn [json_dict StudyTag_model]. native_fields; constructor.
Qed.

Lemma StudyAnnotation_read (r : StudyAnnotation.t) :
  parse_obj (PDict (json_dict r)) = Returns r.
Proof. now destruct r. Qed.

Lemma StudyAnnotation_native (r : StudyAnnotation.t) :
  native (PDict (json_dict r)).
Proof.
  destruct r. cbn [json_dict StudyAnnotation_model].
  native_fields; constructor.
Qed.

Lemma ImageAnnotation_read (r : ImageAnnotation.t) :
  parse_obj (PDict (json_dict r)) = Returns r.
Proof. now destruct r. Qed.

Lemma ImageAnnotation_native (r : ImageAnnotation.t) :
  native (PDict (json_dict r)).
Proof.
  destruct r. cbn [json_dict ImageAnnotation_model].
  native_fields; constructor.
Qed.

(** Every class of models.py: a record is read back from its dict, and its
    dict is a value of JSON. *)
Lemma record_read (cls : Cls.t) (self : record cls) :
  record_ok cls self ->
  @parse_obj _ (record_model cls) (PDict (@json_dict _ (record_model cls) self))
  = Returns self.
Proof.
  destruct cls; simpl in *; intros Hok;
    first [ apply ChannelRendering_read | apply RenderingInfo_read
          | apply BIAImageRepresentation_read
          | apply BIAFileRepresentation_read | now apply BIAFile_read
          | apply FileReference_read | now apply BIAImage_read
          | apply BIAImageAlias_read | apply Author_read
          | now apply BIAStudy_read | apply BIACollection_read
          | apply StudyTag_read | apply StudyAnnotation_read
          | apply ImageAnnotation_read ].
Qed.

Lemma record_native (cls : Cls.t) (self : record cls) :
  record_ok cls self ->
  native (PDict (@json_dict _ (record_model cls) self)).
Proof.
  destruct cls; simpl in *; intros Hok;
    first [ now apply ChannelRendering_native | now apply RenderingInfo_native
          | now apply BIAImageRepresentation_native
          | apply BIAFileRepresentation_native | now apply BIAFile_native
          | now apply FileReference_native | now apply BIAImage_native
          | apply BIAImageAlias_native | apply Author_native
          | now apply BIAStudy_native | apply BIACollection_native
          | apply StudyTag_native | apply StudyAnnotation_native
          | apply ImageAnnotation_native ].
Qed.

End ModelFacts.

(** * Serialization: what is outside ASCII *)

Section NonAsciiFacts.
Local Open Scope string_scope.

Lemma non_ascii_app (a b : string) :
  non_ascii (a ++ b) = non_ascii a ++ non_ascii b.
Proof.
  induction a as [|c a IH]; simpl; [reflexivity|].
  destruct (is_ascii c); simpl; now rewrite IH.
Qed.

Lemma non_ascii_cons (c : ascii) (s : string) :
  is_ascii c = true -> non_ascii (String c s) = non_ascii s.
Proof. intros H. simpl. now rewrite H. Qed.

(** ESCAPE leaves the characters outside ASCII as they are; ESCAPE_ASCII
    leaves none. *)
Lemma non_ascii_ESCAPE (c : ascii) :
  non_ascii (if ESCAPE c then replace c else String c "")
  = non_ascii (String c "").
Proof.
  destruct c as [b0 b1 b2 b3 b4 b5 b6 b7].
  destruct b0, b1, b2, b3, b4, b5, b6, b7; reflexivity.
Qed.

Lemma non_ascii_ESCAPE_ASCII (c : ascii) :
  non_ascii (if ESCAPE_ASCII c then replace c else String c "") = "".
Proof.
  destruct c as [b0 b1 b2 b3 b4 b5 b6 b7].
  destruct b0, b1, b2, b3, b4, b5, b6, b7; reflexivity.
Qed.

Lemma non_ascii_sub_ESCAPE (s : string) :
  non_ascii (sub ESCAPE replace s) = non_ascii s.
Proof.
  induction s as [|c s IH]; [reflexivity|].
  cbn [sub]. rewrite non_ascii_app, non_ascii_ESCAPE, IH.
  simpl. now destruct (is_ascii c).
Qed.

Lemma non_ascii_sub_ESCAPE_ASCII (s : string) :
  non_ascii (sub ESCAPE_ASCII replace s) = "".
Proof.
  induction s as [|c s IH]; [reflexivity|].
  cbn [sub]. now rewrite non_ascii_app, non_ascii_ESCAPE_ASCII, IH.
Qed.

Lemma non_ascii_encoder (pattern : ascii -> bool) (s : string) :
  non_ascii (encoder_of pattern s) = non_ascii (sub pattern replace s).
Proof.
  unfold encoder_of. rewrite non_ascii_cons by reflexivity.
  rewrite non_ascii_app. change (non_ascii (String quote "")) with "".
  apply append_nil_r.
Qed.

Lemma non_ascii_string_of_uint (d : Decimal.uint) :
  non_ascii (DecimalString.NilEmpty.string_of_uint d) = "".
Proof.
  induction d; [reflexivity|..];
    cbn [DecimalString.NilEmpty.string_of_uint];
    now rewrite non_ascii_cons by reflexivity.
Qed.

Lemma non_ascii_int_repr (z : Z) : non_ascii (int_repr z) = "".
Proof.
  assert (H : forall d,
             non_ascii (DecimalString.NilZero.string_of_uint d) = "").
  { intros [|d|d|d|d|d|d|d|d|d|d]; [reflexivity|..];
      match goal with
      | |- non_ascii (DecimalString.NilZero.string_of_uint ?u) = _ =>
          exact (non_ascii_string_of_uint u)
      end. }
  unfold int_repr.
  destruct (Z.to_int z) as [d|d]; cbn [DecimalString.NilZero.string_of_int];
    [apply H|].
  rewrite non_ascii_cons by reflexivity. apply H.
Qed.

Lemma is_digit_ascii (c : ascii) : is_digit c = true -> is_ascii c = true.
Proof.
  unfold is_digit, is_ascii. intros H. apply andb_prop in H as [_ H].
  apply Nat.leb_le in H. apply Nat.ltb_lt. lia.
Qed.

Lemma non_ascii_digits (s : string) : non_ascii (fst (digits s)) = "".
Proof.
  induction s as [|c s IH]; [reflexivity|]. simpl.
  destruct (is_digit c) eqn:Hc; [|reflexivity].
  destruct (digits s) as [d r]. simpl in *.
  now rewrite (is_digit_ascii c Hc).
Qed.

Lemma sign_ascii (b : bool) (c : ascii) :
  Ascii.eqb c "-" || negb b && Ascii.eqb c "+" = true -> is_ascii c = true.
Proof.
  intros H. apply orb_prop in H as [H|H].
  - apply Ascii.eqb_eq in H. now subst.
  - apply andb_prop in H as [_ H]. apply Ascii.eqb_eq in H. now subst.
Qed.

Lemma non_ascii_sign (b : bool) (s : string) :
  non_ascii (fst (sign b s)) = "".
Proof.
  destruct s as [|c s]; [reflexivity|]. simpl.
  destruct (Ascii.eqb c "-" || negb b && Ascii.eqb c "+") eqn:H;
    [|reflexivity].
  simpl. now rewrite (sign_ascii b c H).
Qed.

Lemma non_ascii_match_integer (s integer after : string) :
  match_integer s = Some (integer, after) -> non_ascii integer = "".
Proof.
  unfold match_integer. pose proof (non_ascii_sign true s) as Hs.
  destruct (sign true s) as [minus s1]. simpl in Hs.
  destruct s1 as [|c s1]; [discriminate|].
  destruct (Ascii.eqb c "0").
  - intros [= <- _]. now rewrite non_ascii_app, Hs.
  - destruct (is_digit c) eqn:Hc; [|discriminate].
    pose proof (non_ascii_digits s1) as Hd.
    destruct (digits s1) as [d r]. simpl in Hd.
    intros [= <- _]. rewrite non_ascii_app, Hs.
    now rewrite non_ascii_cons by now apply is_digit_ascii.
Qed.

Lemma non_ascii_match_frac (s : string) :
  non_ascii (fst (match_frac s)) = "".
Proof.
  destruct s as [|c s]; [reflexivity|]. simpl.
  destruct (Ascii.eqb c ".") eqn:Hc; [|reflexivity].
  apply Ascii.eqb_eq in Hc. subst c.
  pose proof (non_ascii_digits s) as Hd.
  destruct (digits s) as [[|x d] r]; [reflexivity|]. simpl fst in *.
  now rewrite non_ascii_cons by reflexivity.
Qed.

Lemma non_ascii_match_exp (s : string) :
  non_ascii (fst (match_exp s)) = "".
Proof.
  destruct s as [|c s]; [reflexivity|]. simpl.
  destruct (Ascii.eqb c "e" || Ascii.eqb c "E") eqn:Hc; [|reflexivity].
  assert (Ha : is_ascii c = true).
  { apply orb_prop in Hc as [Hc|Hc]; apply Ascii.eqb_eq in Hc; now subst. }
  pose proof (non_ascii_sign false s) as Hs.
  destruct (sign false s) as [pm s1]. simpl in Hs.
  pose proof (non_ascii_digits s1) as Hd.
  destruct (digits s1) as [[|x d] r]; [reflexivity|]. simpl fst in *.
  rewrite non_ascii_cons by exact Ha.
  now rewrite non_ascii_app, Hs, Hd.
Qed.

Lemma non_ascii_float_literal (s : string) :
  float_literal s = true -> non_ascii s = "".
Proof.
  intros H. destruct (float_literal_inv s H) as (i & fr & ex & Hm & -> & _).
  unfold match_number in Hm.
  destruct (match_integer _) as [[i' s1]|] eqn:Hi; [|discriminate].
  pose proof (non_ascii_match_integer _ _ _ Hi) as Hi'.
  pose proof (non_ascii_match_frac s1) as Hf.
  destruct (match_frac s1) as [fr' s2]. simpl in Hf.
  pose proof (non_ascii_match_exp s2) as He.
  destruct (match_exp s2) as [ex' s3]. simpl in He.
  injection Hm as <- <- <- _.
  now rewrite !non_ascii_app, Hi', Hf, He.
Qed.

Lemma concat_cons (sep x : string) (l : list string) :
  l <> [] -> String.concat sep (x :: l) = x ++ sep ++ String.concat sep l.
Proof. destruct l; [now intros H; elim H|reflexivity]. Qed.

Lemma non_ascii_concat (l : list string) :
  non_ascii (String.concat ", " l) = String.concat "" (map non_ascii l).
Proof.
  induction l as [|x l IH]; [reflexivity|].
  destruct l as [|y l]; [reflexivity|].
  cbn [map].
  rewrite (concat_cons2 ", " x y l).
  rewrite (concat_cons2 "" (non_ascii x) (non_ascii y)).
  rewrite non_ascii_app. cbn [append].
  rewrite !non_ascii_cons by reflexivity. now rewrite IH.
Qed.

Lemma for_each_map_eq {A B C : Type} (body : A -> outcome B) (g : B -> C)
    (h : A -> C) (l : list A) (ys : list B) :
  Forall (fun x => forall y, body x = Returns y -> g y = h x) l ->
  for_each body l = Returns ys -> map g ys = map h l.
Proof.
  intros H. revert ys. induction H as [|x l Hx _ IH]; intros ys; simpl.
  - now intros [= <-].
  - destruct (body x) as [y|e] eqn:Hy; [|discriminate]. simpl.
    destruct (for_each body l) as [ys'|e]; [|discriminate]. simpl.
    intros [= <-]. simpl. now rewrite (Hx y eq_refl), (IH ys' eq_refl).
Qed.

Lemma str_content_empty (v : pydata) : str_content (fun _ => "") v = "".
Proof.
  assert (Hconcat : forall l : list string,
             Forall (fun s => s = "") l -> String.concat "" l = "").
  { induction 1 as [|x l -> _ IH]; [reflexivity|].
    destruct l; [reflexivity|]. rewrite concat_cons by discriminate.
    now rewrite IH. }
  induction v as [ |b|z|f|s|l IHl|d IHd] using pydata_nested_ind;
    try reflexivity; cbn [str_content]; apply Hconcat.
  - apply Forall_map. exact IHl.
  - apply Forall_map. eapply Forall_impl; [|exact IHd].
    intros item [-> ->]. reflexivity.
Qed.

Section Content.
Context {float_text : FloatText}.
Variable pattern : ascii -> bool.
Variable shown : string -> string.
Hypothesis pattern_shows :
  forall s, non_ascii (sub pattern replace s) = shown s.

Lemma non_ascii_floatstr (f : float) :
  float_ok f -> non_ascii (floatstr f) = "".
Proof.
  intros [Hself Hfinite]. unfold floatstr. rewrite Hself. cbn [negb].
  destruct (PrimFloat.eqb f infinity); [reflexivity|].
  destruct (PrimFloat.eqb f neg_infinity); [reflexivity|].
  destruct (Hfinite eq_refl eq_refl) as [Hlit _].
  now apply non_ascii_float_literal.
Qed.

(** The characters outside ASCII in the text of a value are those its strs
    show. *)
Lemma iterencode_content (v : pydata) :
  native v ->
  forall t, _iterencode (encoder_of pattern) v = Returns t ->
  non_ascii t = str_content shown v.
Proof.
  induction v as [ |b|z|f|s|l IHl|d IHd] using pydata_nested_ind;
    intros Hn t Ht.
  - now injection Ht as <-.
  - destruct b; now injection Ht as <-.
  - injection Ht as <-. apply non_ascii_int_repr.
  - injection Ht as <-. inversion Hn; subst. now apply non_ascii_floatstr.
  - injection Ht as <-. rewrite non_ascii_encoder. apply pattern_shows.
  - inversion Hn as [ | | | | |l' Hnl| ]; subst.
    rewrite iterencode_list in Ht.
    destruct (for_each (_iterencode (encoder_of pattern)) l)
      as [chunks|e] eqn:Hc; [|discriminate].
    assert (Hmap : map non_ascii chunks = map (str_content shown) l).
    { apply (for_each_map_eq (_iterencode (encoder_of pattern)) non_ascii
               (str_content shown) l chunks); [|exact Hc].
      rewrite Forall_forall in *. intros x Hx y Hy.
      now apply (IHl x Hx (Hnl x Hx)). }
    cbn [bind] in Ht. cbn [str_content]. rewrite <- Hmap.
    destruct chunks as [|u us]; [now injection Ht as <-|].
    rewrite <- non_ascii_concat.
    remember (String.concat ", " (u :: us)) as text eqn:Etext.
    injection Ht as <-.
    change ("[" ++ text ++ "]") with (String "[" (text ++ "]")).
    rewrite non_ascii_cons by reflexivity.
    rewrite non_ascii_app. apply append_nil_r.
  - inversion Hn as [ | | | | | |d' Hnd _]; subst.
    rewrite iterencode_dict in Ht.
    destruct (for_each _ d) as [chunks|e] eqn:Hc; [|discriminate].
    assert (Hmap : map non_ascii chunks
                   = map (fun item =>
                            str_content shown (fst item)
                            ++ str_content shown (snd item)) d).
    { revert Hc. apply for_each_map_eq.
      rewrite Forall_forall in *. intros [key x] Hx y.
      destruct (Hnd _ Hx) as [[k Hk] Hnx]. simpl in Hk, Hnx. subst key.
      destruct (IHd _ Hx) as [_ IHx]. simpl in IHx.
      cbn [fst snd json_key bind str_content].
      destruct (_iterencode (encoder_of pattern) x) as [tx|e'] eqn:Hx';
        [|discriminate].
      cbn [bind]. intros [= <-].
      rewrite non_ascii_cons by reflexivity.
      rewrite !non_ascii_app, pattern_shows.
      rewrite !non_ascii_cons by reflexivity.
      change (non_ascii "") with "". rewrite append_nil_r.
      now rewrite (IHx Hnx tx eq_refl). }
    cbn [bind] in Ht. cbn [str_content]. rewrite <- Hmap.
    destruct chunks as [|u us]; [now injection Ht as <-|].
    rewrite <- non_ascii_concat.
    remember (String.concat ", " (u :: us)) as text eqn:Etext.
    injection Ht as <-.
    change ("{" ++ text ++ "}") with (String "{" (text ++ "}")).
    rewrite non_ascii_cons by reflexivity.
    rewrite non_ascii_app. apply append_nil_r.
Qed.

End Content.
End NonAsciiFacts.

(** * Serialization and parsing of the records *)

Section RoundTrip.
Context {url : UrlLib} {float_text : FloatText}.



End RoundTrip.

(** * Serialization on the examples *)

(* a float of the examples is equal to itself, and its text is read back *)
Ltac float_example :=
  split; [reflexivity|];
  let H := fresh in
  let H' := fresh in
  intros H H'; vm_compute in H, H';
  first [discriminate H | discriminate H' | split; reflexivity].

Ltac native_example :=
  repeat first
    [ apply native_None | apply native_Bool | apply native_Int
    | apply native_Str
    | apply native_Float; float_example
    | apply native_List
    | apply native_Dict
    | apply Forall_nil
    | apply Forall_cons
    | apply NoDup_nil
    | apply NoDup_cons; [cbn; intuition discriminate|]
    | split; [now eexists|] ].

Lemma study_ok :
  record_ok (url := Demo.url) (float_text := DemoJson.float_text)
    Cls.BIAStudy DemoJson.study.
Proof.
  unfold record_ok, BIAStudy_ok, dict_ok, DemoJson.study. cbn.
  repeat split.
  all: try solve [native_example].
  all: repeat first
         [ apply NoDup_nil | apply NoDup_cons; [cbn; intuition discriminate|]
         | apply Forall_nil | apply Forall_cons ].
  all: try exact I.
  all: unfold FileReference_ok, BIAImage_ok, BIAFile_ok, path_ok,
         BIAImageRepresentation_ok, RenderingInfo_ok, ChannelRendering_ok;
       cbn.
  all: repeat split.
  all: try solve [native_example].
  all: repeat first
         [ apply Forall_nil | apply Forall_cons | float_example | split
         | exact I ].
  all: try solve [native_example].
Defined.




(** * The fuel of the decoder is never spent *)

Section Fuel.
Context {float_text : FloatText}.
Local Open Scope string_scope.

Lemma skip_whitespace_length (s : string) :
  String.length (skip_whitespace s) <= String.length s.
Proof.
  induction s as [|c s IH]; simpl; [lia|].
  destruct (is_whitespace c); simpl; lia.
Qed.

Lemma startswith_length (prefix s after : string) :
  startswith prefix s = Some after ->
  String.length s = String.length prefix + String.length after.
Proof.
  revert s. induction prefix as [|a p IH]; intros s; simpl.
  - now intros [= ->].
  - destruct s as [|b s]; [discriminate|].
    destruct (Ascii.eqb a b); [|discriminate].
    intros H. simpl. now rewrite (IH s H).
Qed.

Lemma scanstring_fuel (n : nat) :
  forall s, String.length s <= n ->
    (forall content after,
       scanstring s = Returns (content, after) ->
       String.length after < String.length s)
    /\ scanstring s <> Raises out_of_fuel.
Proof.
  induction n as [|n IH]; intros s Hn.
  - destruct s; [|simpl in Hn; lia]. split; [discriminate|discriminate].
  - destruct s as [|c rest]; [split; discriminate|].
    simpl in Hn.
    assert (Hnext : forall s' (ch : ascii),
               String.length s' <= n ->
               (forall content after,
                  ('(content, after) <- scanstring s' ;;
                   Returns (String ch content, after))
                  = Returns (content, after) ->
                  String.length after < String.length s')
               /\ ('(content, after) <- scanstring s' ;;
                   Returns (String ch content, after))
                  <> Raises out_of_fuel).
    { intros s' ch Hs'. destruct (IH s' Hs') as [Hlen Herr].
      destruct (scanstring s') as [[content after]|e]; simpl.
      - split; [|discriminate]. intros content' after' [= _ <-].
        now apply (Hlen content).
      - split; [discriminate|]. intros [= ->]. now apply Herr. }
    cbn [scanstring].
    destruct (Ascii.eqb c quote).
    { split; [|discriminate]. intros content after [= _ <-]. simpl. lia. }
    destruct (Ascii.eqb c backslash).
    + destruct rest as [|esc rest1]; [split; discriminate|].
      destruct (Ascii.eqb esc "u").
      * destruct rest1 as [|h1 [|h2 [|h3 [|h4 rest2]]]];
          try (split; discriminate).
        destruct (decode_uXXXX h1 h2 h3 h4) as [uni|];
          [|split; discriminate].
        destruct (Nat.ltb uni 256); [|split; discriminate].
        destruct (Hnext rest2 (ascii_of_nat uni)) as [Hlen Herr];
          [simpl in Hn; lia|].
        split; [|exact Herr].
        intros content after H. specialize (Hlen _ _ H). simpl. lia.
      * destruct (BACKSLASH esc) as [char|]; [|split; discriminate].
        destruct (Hnext rest1 char) as [Hlen Herr]; [simpl in Hn; lia|].
        split; [|exact Herr].
        intros content after H. specialize (Hlen _ _ H). simpl. lia.
    + destruct (Nat.ltb (ord c) 32); [split; discriminate|].
      destruct (Hnext rest c) as [Hlen Herr]; [lia|].
      split; [|exact Herr].
      intros content after H. specialize (Hlen _ _ H). simpl. lia.
Qed.

Lemma match_integer_nonempty (s integer after : string) :
  match_integer s = Some (integer, after) -> 1 <= String.length integer.
Proof.
  unfold match_integer. destruct (sign true s) as [minus s1].
  destruct s1 as [|c s1]; [discriminate|].
  destruct (Ascii.eqb c "0").
  - intros [= <- _]. rewrite length_append. simpl. lia.
  - destruct (is_digit c); [|discriminate]. destruct (digits s1).
    intros [= <- _]. rewrite length_append. simpl. lia.
Qed.

Lemma scan_number_fuel (s : string) :
  (forall v after,
     scan_number s = Returns (v, after) ->
     String.length after < String.length s)
  /\ scan_number s <> Raises out_of_fuel.
Proof.
  unfold scan_number.
  destruct (match_number s) as [[[[integer frac] exp] after]|] eqn:Hm.
  - pose proof (match_number_parts _ _ _ _ _ Hm) as Hs.
    assert (Hi : 1 <= String.length integer).
    { unfold match_number in Hm.
      destruct (match_integer s) as [[i s1]|] eqn:Hi; [|discriminate].
      destruct (match_frac s1), (match_exp _). injection Hm as <- _ _ _.
      now apply (match_integer_nonempty _ _ _ Hi). }
    assert (Hlen : String.length after < String.length s).
    { rewrite Hs, !length_append. lia. }
    destruct frac, exp; try (split; [now intros v r [= _ <-]|discriminate]).
    unfold parse_int.
    destruct (DecimalString.NilZero.int_of_string integer);
      simpl; split; try discriminate. now intros v r [= _ <-].
  - destruct (startswith "NaN" s) as [r|] eqn:H1.
    { apply startswith_length in H1. split; [|discriminate].
      intros v after [= _ <-]. rewrite H1. simpl. lia. }
    destruct (startswith "Infinity" s) as [r|] eqn:H2.
    { apply startswith_length in H2. split; [|discriminate].
      intros v after [= _ <-]. rewrite H2. simpl. lia. }
    destruct (startswith "-Infinity" s) as [r|] eqn:H3.
    { apply startswith_length in H3. split; [|discriminate].
      intros v after [= _ <-]. rewrite H3. simpl. lia. }
    split; discriminate.
Qed.

(** With fuel for twice the characters of a text, [scan_once] and the two
    loops consume what they read and do not run out of fuel. *)
Lemma scan_once_fuel (fuel : nat) :
  (forall s, 2 * String.length s < fuel ->
     (forall v after, scan_once fuel s = Returns (v, after) ->
                      String.length after < String.length s)
     /\ scan_once fuel s <> Raises out_of_fuel)
  /\ (forall s values, 2 * String.length s + 2 <= fuel ->
        (forall vs after, JSONArray fuel s values = Returns (vs, after) ->
                          String.length after < String.length s)
        /\ JSONArray fuel s values <> Raises out_of_fuel)
  /\ (forall s pairs, 2 * String.length s + 2 <= fuel ->
        (forall ps after, JSONObject fuel s pairs = Returns (ps, after) ->
                          String.length after < String.length s)
        /\ JSONObject fuel s pairs <> Raises out_of_fuel).
Proof.
  induction fuel as [|fuel (IHscan & IHarray & IHobject)].
  { repeat split; intros; lia. }
  split; [|split].
  - intros s Hf. destruct s as [|nextchar rest]; [split; discriminate|].
    cbn [scan_once]. simpl String.length in Hf.
    destruct (Ascii.eqb nextchar quote).
    { destruct (scanstring_fuel (String.length rest) rest (le_n _))
        as [Hlen Herr].
      destruct (scanstring rest) as [[str after]|e]; simpl.
      - split; [|discriminate]. intros v r [= _ <-].
        specialize (Hlen _ _ eq_refl). lia.
      - split; [discriminate|]. intros [= ->]. now apply Herr. }
    pose proof (skip_whitespace_length rest) as Hskip.
    destruct (Ascii.eqb nextchar "{").
    { destruct (skip_whitespace rest) as [|c after] eqn:Hs;
        [split; discriminate|].
      simpl in Hskip.
      destruct (Ascii.eqb c "}").
      { split; [|discriminate]. intros v r [= _ <-]. simpl. lia. }
      destruct (Ascii.eqb c quote); [|split; discriminate].
      destruct (IHobject after [] ltac:(lia)) as [Hlen Herr].
      destruct (JSONObject fuel after []) as [[ps r]|e]; simpl.
      - split; [|discriminate]. intros v r' [= _ <-].
        specialize (Hlen _ _ eq_refl). simpl. lia.
      - split; [discriminate|]. intros [= ->]. now apply Herr. }
    destruct (Ascii.eqb nextchar "[").
    { destruct (skip_whitespace rest) as [|c after] eqn:Hs;
        [split; discriminate|].
      simpl in Hskip.
      destruct (Ascii.eqb c "]").
      { split; [|discriminate]. intros v r [= _ <-]. simpl. lia. }
      destruct (IHarray (String c after) [] ltac:(simpl; lia))
        as [Hlen Herr].
      destruct (JSONArray fuel (String c after) []) as [[vs r]|e]; simpl.
      - split; [|discriminate]. intros v r' [= _ <-].
        specialize (Hlen _ _ eq_refl). simpl in *. lia.
      - split; [discriminate|]. intros [= ->]. now apply Herr. }
    destruct (startswith "null" (String nextchar rest)) as [r|] eqn:H1.
    { apply startswith_length in H1. split; [|discriminate].
      intros v after [= _ <-]. rewrite H1. simpl. lia. }
    destruct (startswith "true" (String nextchar rest)) as [r|] eqn:H2.
    { apply startswith_length in H2. split; [|discriminate].
      intros v after [= _ <-]. rewrite H2. simpl. lia. }
    destruct (startswith "false" (String nextchar rest)) as [r|] eqn:H3.
    { apply startswith_length in H3. split; [|discriminate].
      intros v after [= _ <-]. rewrite H3. simpl. lia. }
    apply scan_number_fuel.
  - intros s values Hf. cbn [JSONArray].
    destruct (IHscan s ltac:(lia)) as [Hlen Herr].
    destruct (scan_once fuel s) as [[value after]|e]; simpl;
      [|split; [discriminate|intros [= ->]; now apply Herr]].
    specialize (Hlen _ _ eq_refl).
    pose proof (skip_whitespace_length after) as Hskip.
    destruct (skip_whitespace after) as [|nextchar after'];
      [split; discriminate|].
    simpl in Hskip.
    destruct (Ascii.eqb nextchar "]").
    { split; [|discriminate]. intros vs r [= _ <-]. lia. }
    destruct (Ascii.eqb nextchar ","); [|split; discriminate].
    pose proof (skip_whitespace_length after') as Hskip'.
    destruct (IHarray (skip_whitespace after') (values ++ [value])%list
                ltac:(lia)) as [Hlen' Herr'].
    split; [|exact Herr'].
    intros vs r H. specialize (Hlen' _ _ H). lia.
  - intros s pairs Hf. cbn [JSONObject].
    destruct (scanstring_fuel (String.length s) s (le_n _)) as [Hlen Herr].
    destruct (scanstring s) as [[key after]|e]; simpl;
      [|split; [discriminate|intros [= ->]; now apply Herr]].
    specialize (Hlen _ _ eq_refl).
    pose proof (skip_whitespace_length after) as Hskip.
    destruct (skip_whitespace after) as [|colon after1];
      [split; discriminate|].
    simpl in Hskip.
    destruct (Ascii.eqb colon ":"); [|split; discriminate].
    pose proof (skip_whitespace_length after1) as Hskip1.
    destruct (IHscan (skip_whitespace after1) ltac:(lia)) as [Hlen1 Herr1].
    destruct (scan_once fuel (skip_whitespace after1)) as [[value after2]|e];
      simpl; [|split; [discriminate|intros [= ->]; now apply Herr1]].
    specialize (Hlen1 _ _ eq_refl).
    pose proof (skip_whitespace_length after2) as Hskip2.
    destruct (skip_whitespace after2) as [|nextchar after3];
      [split; discriminate|].
    simpl in Hskip2.
    destruct (Ascii.eqb nextchar "}").
    { split; [|discriminate]. intros ps r [= _ <-]. lia. }
    destruct (Ascii.eqb nextchar ","); [|split; discriminate].
    pose proof (skip_whitespace_length after3) as Hskip3.
    destruct (skip_whitespace after3) as [|c after4];
      [split; discriminate|].
    simpl in Hskip3.
    destruct (Ascii.eqb c quote); [|split; discriminate].
    destruct (IHobject after4 (pairs ++ [(key, value)])%list ltac:(lia))
      as [Hlen4 Herr4].
    split; [|exact Herr4].
    intros ps r H. specialize (Hlen4 _ _ H). lia.
Qed.

(** [json.loads] as it is embedded returns a value or raises an error of
    the decoder, on every str: the fuel it hands to [scan_once] is never
    spent. *)
Lemma loads_fuel (s : string) : loads s <> Raises out_of_fuel.
Proof.
  unfold loads.
  pose proof (skip_whitespace_length s) as Hskip.
  destruct (scan_once_fuel (S (2 * String.length s))) as [Hscan _].
  destruct (Hscan (skip_whitespace s) ltac:(lia)) as [_ Herr].
  destruct (scan_once _ (skip_whitespace s)) as [[obj after]|e]; simpl.
  - destruct (skip_whitespace after); discriminate.
  - intros [= ->]. now apply Herr.
Qed.

End Fuel.
